(** * The pattern-learning core of autonomous-evolution-core

    A shallow embedding of [modules/learning-system.js] (class
    [LearningSystem]), of the template extractor (class [PatternExtractor])
    and of the trending scorer of class [CommunityShare], followed by the
    properties of these three classes.

    Conventions of the embedding.
    - A JavaScript object is a record; a property that may be missing has an
      [option] type, [None] standing for [undefined].
    - A JavaScript number is a [num]: a rational, an infinity or [NaN]; the
      sign of zero is not represented.  [add], [sub], [mul] and [div] are
      the exact operations, and [add64], [sub64], [mul64] and [div64] round
      their result to binary64 as JavaScript does.  The trending score and
      the duration estimate, whose values depend on the rounding, are
      computed with the rounding operations.  The exact ones stand where
      the rounding does not reach what is stated: counters and sums of
      integers below [2^53], the running average of success rates that are
      all 1, quotients of two small integers that are compared with a
      threshold, with 0 or with 1, comparison functions of which a sort
      reads the sign, and results that are [NaN].
    - A JavaScript string is a [string] of ASCII characters; case mapping
      and the white-space class are those of ASCII.
    - [new Date()] and [Date.now()] read a clock [now : Z] (milliseconds
      since the epoch) that is constant during one synchronous call; a time
      stamp is kept as that integer rather than as its ISO-8601 rendering.
    - An object is a record, that is a value.  Where two objects hold one
      array that the code sorts in place, [capabilitiesUsed] of a logged
      record and [capabilities] of the pattern built from it, the embedding
      of the update writes the array at both places.  The argument of a
      call is read as a value at the time of the call.
    - The file system is not represented: [saveLearningData] and
      [saveSkillTemplates] leave the in-memory state as it is. *)

From Stdlib Require Import ZArith QArith Qabs Qround Qpower Lia Lqa Ascii.
From stdpp Require Import base list strings gmap sorting pretty.

(** ** JavaScript values *)

Module Js.

(** *** Numbers *)

Inductive num : Type :=
| Fin (q : Q)
| PInf
| NInf
| NaN.

Definition of_Z (z : Z) : num := Fin (inject_Z z).
Definition of_nat (n : nat) : num := of_Z (Z.of_nat n).

Definition neg (a : num) : num :=
  match a with
  | Fin q => Fin (- q)
  | PInf => NInf
  | NInf => PInf
  | NaN => NaN
  end.

Definition add (a b : num) : num :=
  match a, b with
  | NaN, _ | _, NaN => NaN
  | Fin p, Fin q => Fin (p + q)
  | PInf, NInf | NInf, PInf => NaN
  | PInf, _ | _, PInf => PInf
  | NInf, _ | _, NInf => NInf
  end.

Definition sub (a b : num) : num := add a (neg b).

(** The sign of a rational, as the comparison of [0] with it: [Lt] for a
    positive one, [Eq] for zero, [Gt] for a negative one. *)
Definition sgn (q : Q) : comparison := (0 ?= q)%Q.

Definition mul (a b : num) : num :=
  match a, b with
  | NaN, _ | _, NaN => NaN
  | Fin p, Fin q => Fin (p * q)
  | Fin p, PInf | PInf, Fin p =>
      match sgn p with Eq => NaN | Lt => PInf | Gt => NInf end
  | Fin p, NInf | NInf, Fin p =>
      match sgn p with Eq => NaN | Lt => NInf | Gt => PInf end
  | PInf, PInf | NInf, NInf => PInf
  | PInf, NInf | NInf, PInf => NInf
  end.

Definition div (a b : num) : num :=
  match a, b with
  | NaN, _ | _, NaN => NaN
  | Fin p, Fin q =>
      match sgn q with
      | Eq => match sgn p with Eq => NaN | Lt => PInf | Gt => NInf end
      | _ => Fin (p / q)
      end
  | Fin _, _ => Fin 0
  | PInf, Fin q => match sgn q with Gt => NInf | _ => PInf end
  | NInf, Fin q => match sgn q with Gt => PInf | _ => NInf end
  | _, _ => NaN
  end.

Definition abs (a : num) : num :=
  match a with
  | Fin q => Fin (Qabs q)
  | PInf | NInf => PInf
  | NaN => NaN
  end.

(** [Math.floor] *)
Definition floor (a : num) : num :=
  match a with
  | Fin q => of_Z (Qfloor q)
  | _ => a
  end.

(** [a > b]; every comparison with [NaN] is false. *)
Definition gt (a b : num) : bool :=
  match a, b with
  | NaN, _ | _, NaN => false
  | Fin p, Fin q => negb (Qle_bool p q)
  | PInf, PInf => false
  | PInf, _ => true
  | _, NInf => match a with NInf => false | _ => true end
  | _, _ => false
  end.

(** Truthiness of a number: [0] and [NaN] are falsy. *)
Definition truthy_num (a : num) : bool :=
  match a with
  | Fin q => negb (Qeq_bool q 0)
  | NaN => false
  | _ => true
  end.

(** [ToNumber] of a property that holds a number or is missing. *)
Definition to_number (v : option num) : num :=
  match v with Some n => n | None => NaN end.

(** [v || d] for a property that holds a number or is missing. *)
Definition num_or (v : option num) (d : num) : num :=
  match v with
  | Some n => if truthy_num n then n else d
  | None => d
  end.

(** The same mathematical value (unlike [===], reflexive at [NaN]). *)
Definition same (a b : num) : Prop :=
  match a, b with
  | Fin p, Fin q => (p == q)%Q
  | PInf, PInf | NInf, NInf | NaN, NaN => True
  | _, _ => False
  end.

Definition is_finite (a : num) : Prop :=
  match a with Fin _ => True | _ => False end.

(** [Math.round]: the nearest integer, a tie going up. *)
Definition round (a : num) : num :=
  match a with
  | Fin q => of_Z (Qfloor (q + (1 # 2)))
  | _ => a
  end.

(** *** Rounding to binary64

    A finite binary64 number is a rational [m * 2^e] with [|m| < 2^53] and
    [-1074 <= e].  The result of an arithmetic operation is the exact
    result rounded to the nearest such number, a tie going to the one with
    an even [m]; a result that rounds to [2^1024] or beyond is an infinity. *)

(** The [k] with [2^k <= q < 2^(k+1)], for a positive [q]. *)
Definition binade (q : Q) : Z :=
  let k := (Z.log2 (Qnum q) - Z.log2 (Zpos (Qden q)))%Z in
  if Qle_bool (2 ^ k) q then k else (k - 1)%Z.

(** The nearest integer, a tie going to the even one. *)
Definition nearest_even (q : Q) : Z :=
  let f := Qfloor q in
  match (q - inject_Z f ?= 1 # 2)%Q with
  | Lt => f
  | Gt => (f + 1)%Z
  | Eq => if Z.even f then f else (f + 1)%Z
  end.

(** The rounding of a positive rational: [e] is the exponent of the last
    binary digit that is kept. *)
Definition round_positive (q : Q) : num :=
  let e := Z.max (binade q - 52) (-1074) in
  let r := (inject_Z (nearest_even (q / 2 ^ e)) * 2 ^ e)%Q in
  if Qle_bool (2 ^ 1024) r then PInf else Fin (Qred r).

Definition binary64 (q : Q) : num :=
  match sgn q with
  | Eq => Fin 0
  | Lt => round_positive (Qred q)
  | Gt => neg (round_positive (Qred (- q)))
  end.

Definition round64 (a : num) : num :=
  match a with
  | Fin q => binary64 q
  | _ => a
  end.

(** [a + b], [a - b], [a * b] and [a / b] as JavaScript computes them. *)
Definition add64 (a b : num) : num := round64 (add a b).
Definition sub64 (a b : num) : num := round64 (sub a b).
Definition mul64 (a b : num) : num := round64 (mul a b).
Definition div64 (a b : num) : num := round64 (div a b).

(** [a === b] on numbers; [NaN] equals nothing. *)
Definition strict_eq (a b : num) : bool :=
  match a, b with
  | Fin p, Fin q => Qeq_bool p q
  | PInf, PInf | NInf, NInf => true
  | _, _ => false
  end.

(** *** Strings *)

Definition code (c : ascii) : N := N_of_ascii c.

Definition lower_char (c : ascii) : ascii :=
  if ((65 <=? code c) && (code c <=? 90))%N
  then ascii_of_N (code c + 32) else c.

Definition upper_char (c : ascii) : ascii :=
  if ((97 <=? code c) && (code c <=? 122))%N
  then ascii_of_N (code c - 32) else c.

Fixpoint map_chars (f : ascii -> ascii) (s : string) : string :=
  match s with
  | EmptyString => EmptyString
  | String c t => String (f c) (map_chars f t)
  end.

Definition toLowerCase : string -> string := map_chars lower_char.
Definition toUpperCase : string -> string := map_chars upper_char.

(** [s.includes(needle)] *)
Fixpoint includes (s needle : string) : bool :=
  String.prefix needle s ||
  match s with
  | EmptyString => false
  | String _ t => includes t needle
  end.

(** The class [\s] on ASCII: tab, line feed, vertical tab, form feed,
    carriage return and space. *)
Definition is_space (c : ascii) : bool :=
  ((9 <=? code c) && (code c <=? 13) || (code c =? 32))%N.

(** [s.split(/\s+/)]: the pieces between the maximal runs of white space;
    a run at either end of [s] leaves an empty piece there.  [cur] is the
    piece being read and [in_sep] tells that the previous character was
    white space. *)
Fixpoint split_go (cur : string) (in_sep : bool) (s : string) : list string :=
  match s with
  | EmptyString => [cur]
  | String c t =>
      if is_space c
      then (if in_sep then split_go "" true t else cur :: split_go "" true t)
      else split_go (cur +:+ String c "") false t
  end.

Definition split_ws (s : string) : list string := split_go "" false s.

(** [l.join(sep)] *)
Definition join (sep : string) (l : list string) : string := String.concat sep l.

(** Truthiness of a string property: missing and empty are falsy. *)
Definition truthy_str (v : option string) : bool :=
  match v with
  | Some s => negb (String.eqb s "")
  | None => false
  end.

(** [a.includes(x)] on an array of strings *)
Definition mem (x : string) (a : list string) : bool := bool_decide (x ∈ a).

(** [[...new Set(a)]]: the first occurrence of every element, in order. *)
Fixpoint uniq_go (seen a : list string) : list string :=
  match a with
  | [] => []
  | x :: t => if mem x seen then uniq_go seen t else x :: uniq_go (x :: seen) t
  end.

Definition uniq (a : list string) : list string := uniq_go [] a.

(** [a.sort()] on an array of strings: ascending in the order of the
    character codes.  Equal strings are indistinguishable, so the result
    does not depend on the sorting algorithm. *)
Definition sort (a : list string) : list string := merge_sort String.le a.

(** *** Sorting with a comparison function *)

(** [Array.prototype.sort(compareFn)].  When the comparison function is not a
    consistent order (that of [getSuggestions] is not), the language leaves
    the resulting order to the implementation; what every implementation
    guarantees is a rearrangement of the array. *)
Class ArraySort : Type := {
  sort_by : forall {A : Type}, (A -> A -> num) -> list A -> list A;
  sort_by_perm : forall (A : Type) (cmp : A -> A -> num) (l : list A),
    sort_by cmp l ≡ₚ l
}.

(** A stable insertion sort, one implementation of [ArraySort]: [x] goes
    before the first element that [cmp] puts after it. *)
Fixpoint insert_by {A} (cmp : A -> A -> num) (x : A) (l : list A) : list A :=
  match l with
  | [] => [x]
  | y :: t => if gt (cmp y x) (Fin 0) then x :: y :: t else y :: insert_by cmp x t
  end.

Definition insertion_sort {A} (cmp : A -> A -> num) (l : list A) : list A :=
  foldl (fun acc x => insert_by cmp x acc) [] l.

(** *** Free-form values and exceptions *)

Inductive value : Type :=
| VUndefined
| VNull
| VBool (b : bool)
| VNumber (n : num)
| VString (s : string).

Inductive exn : Type :=
| TypeError (msg : string).

Inductive result (A : Type) : Type :=
| Return (a : A)
| Throw (e : exn).
Arguments Return {A} a.
Arguments Throw {A} e.

End Js.

(** ** Workflows, shared by the recorder and the template extractor *)

Module Workflow.
Import Js.

(** The free-form [context] object; [goal] and [industry] are the keys
    the code reads. *)
Record context : Type := Context {
  goal : option string;
  industry : option string
}.

Record step : Type := Step {
  tool : option string;
  description : option string;
  code : option string;
  step_duration : option num
}.

(** The caller's workflow object.  [recordSuccess] reads [capabilities],
    [extractFromWorkflow] reads [capabilitiesUsed]. *)
Record t : Type := Make {
  toolsUsed : option (list string);
  steps : option (list step);
  duration : option num;
  outcome : option string;
  capabilities : option (list string);
  capabilitiesUsed : option (list string);
  context_of : option context
}.

(** [a || []] *)
Definition or_empty {A} (a : option (list A)) : list A := default [] a.

(** [c || {}] *)
Definition or_blank (c : option context) : context :=
  default (Context None None) c.

End Workflow.

(** ** The learning system ([modules/learning-system.js]) *)

Module LearningSystem.
Import Js.

Inductive ErrorKind : Type :=
| permission_error
| missing_dependency
| timeout
| authentication_error
| syntax_error
| unknown_error.

Global Instance ErrorKind_eq_dec : EqDecision ErrorKind.
Proof. solve_decision. Defined.

(** The [type] tag of a learned pattern. *)
Inductive kind : Type :=
| tool_sequence
| capability_combination
| duration_estimate
| avoidance_rule.

Global Instance kind_eq_dec : EqDecision kind.
Proof. solve_decision. Defined.

(** A learned pattern is one JavaScript object whose [type] tells which
    of the other properties are meaningful.  A property that the code
    reads without looking at [type] ([count], [successRate],
    [estimatedDuration]) is optional; the array properties are read only
    under their own [type] and are empty elsewhere. *)
Record pattern : Type := Pattern {
  type : kind;
  id : option string;
  createdAt : option Z;
  sequence : list string;
  capabilities : list string;
  useCase : option string;
  context : option string;
  successRate : option num;
  count : option num;
  estimatedDuration : option num;
  confidence : option num;
  errorType : option ErrorKind;
  avoidCombination : list string;
  recommendedAlternative : option string;
  occurrenceCount : option num
}.

Definition set_capabilities (p : pattern) (c : list string) : pattern :=
  Pattern (type p) (id p) (createdAt p) (sequence p) c (useCase p)
    (context p) (successRate p) (count p) (estimatedDuration p)
    (confidence p) (errorType p) (avoidCombination p)
    (recommendedAlternative p) (occurrenceCount p).

Definition set_count (p : pattern) (c : option num) : pattern :=
  Pattern (type p) (id p) (createdAt p) (sequence p) (capabilities p)
    (useCase p) (context p) (successRate p) c (estimatedDuration p)
    (confidence p) (errorType p) (avoidCombination p)
    (recommendedAlternative p) (occurrenceCount p).

Definition set_successRate (p : pattern) (r : option num) : pattern :=
  Pattern (type p) (id p) (createdAt p) (sequence p) (capabilities p)
    (useCase p) (context p) r (count p) (estimatedDuration p)
    (confidence p) (errorType p) (avoidCombination p)
    (recommendedAlternative p) (occurrenceCount p).

Definition set_estimatedDuration (p : pattern) (d : option num) : pattern :=
  Pattern (type p) (id p) (createdAt p) (sequence p) (capabilities p)
    (useCase p) (context p) (successRate p) (count p) d
    (confidence p) (errorType p) (avoidCombination p)
    (recommendedAlternative p) (occurrenceCount p).

Definition set_identity (p : pattern) (i : string) (now : Z) : pattern :=
  Pattern (type p) (Some i) (Some now) (sequence p) (capabilities p)
    (useCase p) (context p) (successRate p) (count p) (estimatedDuration p)
    (confidence p) (errorType p) (avoidCombination p)
    (recommendedAlternative p) (occurrenceCount p).

(** A record of [successfulWorkflows].  Its array [capabilitiesUsed] is
    the array [capabilities] of the candidate that
    [_extractPatternsFromWorkflow] builds from the record, and of the stored
    pattern once that candidate is pushed: the two properties hold one
    array object, which [_patternsMatch] sorts in place.  [s_shared] is
    not a property of the object: it is the index in [learnedPatterns] of
    the pattern that holds the same array, if there is one. *)
Record success_record : Type := SuccessRecord {
  s_id : string;
  s_timestamp : Z;
  s_toolsUsed : list string;
  s_steps : list Workflow.step;
  s_duration : option num;
  s_outcome : option string;
  s_capabilitiesUsed : list string;
  s_context : Workflow.context;
  s_shared : option nat
}.

Definition set_capabilitiesUsed (r : success_record) (c : list string)
  : success_record :=
  SuccessRecord (s_id r) (s_timestamp r) (s_toolsUsed r) (s_steps r)
    (s_duration r) (s_outcome r) c (s_context r) (s_shared r).

Definition set_shared (r : success_record) (k : option nat) : success_record :=
  SuccessRecord (s_id r) (s_timestamp r) (s_toolsUsed r) (s_steps r)
    (s_duration r) (s_outcome r) (s_capabilitiesUsed r) (s_context r) k.

(** The caller's failure object. *)
Record failure : Type := Failure {
  f_toolsUsed : option (list string);
  f_error : value;
  f_step : option string;
  f_context : option Workflow.context;
  f_suggestion : option string
}.

(** A record of [failedAttempts].  [recordFailure] never writes
    [occurrenceCount]; [_learnFromFailure] reads it. *)
Record failure_record : Type := FailureRecord {
  r_id : string;
  r_timestamp : Z;
  r_toolsUsed : list string;
  r_error : value;
  r_step : option string;
  r_context : Workflow.context;
  r_suggestion : option string;
  r_occurrenceCount : option num
}.

(** The fields of a [LearningSystem] instance.  [entropy] counts the
    identifiers drawn so far and stands for [Math.random()]. *)
Record state : Type := State {
  learnedPatterns : list pattern;
  successfulWorkflows : list success_record;
  failedAttempts : list failure_record;
  entropy : nat
}.

Definition initial : state := State [] [] [] 0.

(** *** Methods that may throw: state passing with exceptions *)

Definition M (A : Type) : Type := state -> result A * state.

Global Instance M_ret : MRet M := fun A a st => (Return a, st).

Global Instance M_bind : MBind M := fun A B k m st =>
  match m st with
  | (Return a, st') => k a st'
  | (Throw e, st') => (Throw e, st')
  end.

Definition lift {A} (r : result A) : M A := fun st => (r, st).

Definition get : M state := fun st => (Return st, st).

Definition modify (f : state -> state) : M unit := fun st => (Return tt, f st).

(** *** Helper methods *)

Definition _generateId (now : Z) : M string :=
  st ← get;
  modify (fun st => State (learnedPatterns st) (successfulWorkflows st)
                      (failedAttempts st) (S (entropy st)));;
  mret ("learn_" +:+ pretty now +:+ "_" +:+ pretty (entropy st)).

Definition saveLearningData : M unit := mret tt.

(** [JSON.stringify(a) === JSON.stringify(b)] for two arrays of strings:
    [JSON.stringify] is injective on arrays of strings, so the comparison
    of the two renderings is the comparison of the arrays. *)
Definition same_json (a b : list string) : bool := bool_decide (a = b).

(** [_patternsMatch(p1, p2)].  [Array.prototype.sort] sorts in place, so
    the comparison of two capability combinations leaves both arrays
    sorted; the function returns the two objects as they are afterwards. *)
Definition _patternsMatch (p1 p2 : pattern) : bool * pattern * pattern :=
  if negb (bool_decide (type p1 = type p2)) then (false, p1, p2)
  else
    match type p1 with
    | tool_sequence => (same_json (sequence p1) (sequence p2), p1, p2)
    | capability_combination =>
        let c1 := sort (capabilities p1) in
        let c2 := sort (capabilities p2) in
        (same_json c1 c2, set_capabilities p1 c1, set_capabilities p2 c2)
    | duration_estimate => (bool_decide (context p1 = context p2), p1, p2)
    | avoidance_rule => (false, p1, p2)
    end.

Definition classify_lower (errorLower : string) : ErrorKind :=
  if includes errorLower "permission" || includes errorLower "access denied"
  then permission_error
  else if includes errorLower "not found" || includes errorLower "missing"
  then missing_dependency
  else if includes errorLower "timeout" || includes errorLower "timed out"
  then timeout
  else if includes errorLower "api" &&
          (includes errorLower "key" || includes errorLower "auth")
  then authentication_error
  else if includes errorLower "syntax" || includes errorLower "parse"
  then syntax_error
  else unknown_error.

(** [_classifyError(error)]: [error.toLowerCase()] is a method call, which
    throws a [TypeError] unless [error] is a string. *)
Definition _classifyError (error : value) : result ErrorKind :=
  match error with
  | VString s => Return (classify_lower (toLowerCase s))
  | VUndefined | VNull =>
      Throw (TypeError "Cannot read properties of undefined (reading 'toLowerCase')")
  | VBool _ | VNumber _ =>
      Throw (TypeError "error.toLowerCase is not a function")
  end.

Definition _calculateSimilarity (str1 str2 : option string) : num :=
  if negb (truthy_str str1) || negb (truthy_str str2) then Fin 0
  else
    let s1 := toLowerCase (default "" str1) in
    let s2 := toLowerCase (default "" str2) in
    let words1 := split_ws s1 in
    let words2 := split_ws s2 in
    let intersection := filter (fun w => mem w words2 = true) words1 in
    let union := uniq (words1 ++ words2) in
    if (0 <? length union)%nat
    then div (of_nat (length intersection)) (of_nat (length union))
    else Fin 0.

Definition _getSuggestionReason (p : pattern) : string :=
  match type p with
  | tool_sequence => "Similar successful workflow used this sequence"
  | capability_combination => "These capabilities worked well together"
  | duration_estimate => "Estimated duration based on similar tasks"
  | avoidance_rule => "Avoiding known error pattern"
  end.

(** *** Recording a success *)

Definition blank (k : kind) : pattern :=
  Pattern k None None [] [] None None None None None None None [] None None.

(** [a.filter(Boolean)] on an array of optional strings *)
Definition filter_truthy (a : list (option string)) : list string :=
  omap (fun v => if truthy_str v then v else None) a.

(** [v || d] for a string property *)
Definition str_or (v : option string) (d : string) : string :=
  if truthy_str v then default d v else d.

(** The array [patterns] that [_extractPatternsFromWorkflow] builds
    before it merges. *)
Definition candidates (workflow : success_record) : list pattern :=
  let goal := Workflow.goal (s_context workflow) in
  (if (1 <? length (s_steps workflow))%nat then
     let toolSequence := filter_truthy (map Workflow.tool (s_steps workflow)) in
     if (1 <? length toolSequence)%nat then
       [Pattern tool_sequence None None toolSequence [] (Some (str_or goal "Unknown"))
          None (Some (Fin 1)) (Some (Fin 1)) None None None [] None None]
     else []
   else [])
  ++ (if (1 <? length (s_capabilitiesUsed workflow))%nat then
        [Pattern capability_combination None None [] (s_capabilitiesUsed workflow) goal
           None (Some (Fin 1)) (Some (Fin 1)) None None None [] None None]
      else [])
  ++ (if truthy_num (to_number (s_duration workflow)) then
        [Pattern duration_estimate None None [] [] None
           goal None None (s_duration workflow) (Some (Fin 1)) None [] None None]
      else []).

(** [this.learnedPatterns.find(p => this._patternsMatch(p, newPattern))]:
    the index of the first match, with the store and the candidate as the
    calls of [_patternsMatch] leave them. *)
Fixpoint find_match (store : list pattern) (newPattern : pattern)
  : option nat * list pattern * pattern :=
  match store with
  | [] => (None, [], newPattern)
  | p :: rest =>
      let '(found, p', newPattern') := _patternsMatch p newPattern in
      if found then (Some 0%nat, p' :: rest, newPattern')
      else
        let '(i, rest', newPattern'') := find_match rest newPattern' in
        (S <$> i, p' :: rest', newPattern'')
  end.

(** The body of [if (existing) { ... }]. *)
Definition update_existing (newPattern existing : pattern) : pattern :=
  let e1 := set_count existing (Some (add (to_number (count existing)) (Fin 1))) in
  let e2 :=
    set_successRate e1
      (Some (div (add (mul (to_number (successRate e1))
                           (sub (to_number (count e1)) (Fin 1)))
                      (Fin 1))
                 (to_number (count e1)))) in
  if bool_decide (type newPattern = duration_estimate) then
    set_estimatedDuration e2
      (Some (div (add (mul (to_number (estimatedDuration e2))
                           (sub (to_number (count e2)) (Fin 1)))
                      (to_number (estimatedDuration newPattern)))
                 (to_number (count e2))))
  else e2.

(** A logged record when the store is [store]: the array that it shares
    with a stored pattern is the array of that pattern. *)
Definition follow (store : list pattern) (r : success_record) : success_record :=
  match s_shared r ≫= (store !!.) with
  | Some p => set_capabilitiesUsed r (capabilities p)
  | None => r
  end.

(** The patterns of the store are replaced by [l], which differs from them
    by updates in place: the logged records see the arrays that they
    share. *)
Definition set_patterns (l : list pattern) (st : state) : state :=
  State l (follow l <$> successfulWorkflows st) (failedAttempts st) (entropy st).

(** [_extractPatternsFromWorkflow] has one caller, [recordSuccess], which
    passes the record that it has just pushed: the array of a capability
    candidate is the array [capabilitiesUsed] of the last logged record. *)
Definition on_last (f : success_record -> success_record)
    (log : list success_record) : list success_record :=
  alter f (pred (length log)) log.

(** The array of the candidate as the calls of [_patternsMatch] leave it. *)
Definition set_candidate (newPattern : pattern) (st : state) : state :=
  State (learnedPatterns st)
    (if bool_decide (type newPattern = capability_combination)
     then on_last (fun r => set_capabilitiesUsed r (capabilities newPattern))
            (successfulWorkflows st)
     else successfulWorkflows st)
    (failedAttempts st) (entropy st).

(** [this.learnedPatterns.push(newPattern)]: from now on the array of a
    capability candidate is that of a stored pattern. *)
Definition push_pattern (p : pattern) (st : state) : state :=
  State (learnedPatterns st ++ [p])
    (if bool_decide (type p = capability_combination)
     then on_last (fun r => set_shared r (Some (length (learnedPatterns st))))
            (successfulWorkflows st)
     else successfulWorkflows st)
    (failedAttempts st) (entropy st).

(** One round of [patterns.forEach(newPattern => ...)]. *)
Definition merge_pattern (now : Z) (newPattern : pattern) : M unit :=
  st ← get;
  let '(existing, store, newPattern') :=
    find_match (learnedPatterns st) newPattern in
  modify (set_patterns store);;
  modify (set_candidate newPattern');;
  match existing with
  | Some i => modify (set_patterns (alter (update_existing newPattern') i store))
  | None =>
      i ← _generateId now;
      modify (push_pattern (set_identity newPattern' i now))
  end.

Fixpoint for_each {A} (f : A -> M unit) (l : list A) : M unit :=
  match l with
  | [] => mret tt
  | x :: t => f x;; for_each f t
  end.

Definition _extractPatternsFromWorkflow (workflow : success_record) (now : Z)
  : M unit :=
  for_each (merge_pattern now) (candidates workflow);;
  saveLearningData.

(** The object [record] of [recordSuccess]. *)
Definition record_of (workflow : Workflow.t) (i : string) (now : Z)
  : success_record :=
  SuccessRecord i now
    (Workflow.or_empty (Workflow.toolsUsed workflow))
    (Workflow.or_empty (Workflow.steps workflow))
    (Workflow.duration workflow)
    (Workflow.outcome workflow)
    (Workflow.or_empty (Workflow.capabilities workflow))
    (Workflow.or_blank (Workflow.context_of workflow))
    None.

Definition recordSuccess (workflow : Workflow.t) (now : Z) : M string :=
  i ← _generateId now;
  let record := record_of workflow i now in
  modify (fun st => State (learnedPatterns st) (successfulWorkflows st ++ [record])
                      (failedAttempts st) (entropy st));;
  saveLearningData;;
  _extractPatternsFromWorkflow record now;;
  mret i.

(** *** Recording a failure *)

(** [this.failedAttempts.find(f => this._classifyError(f.error) ===
    errorType && f.toolsUsed.join(',') === failure.toolsUsed.join(','))];
    the callback throws when [_classifyError] does. *)
Fixpoint find_similar (errorType : ErrorKind) (failure : failure_record)
    (attempts : list failure_record) : result (option failure_record) :=
  match attempts with
  | [] => Return None
  | f :: rest =>
      match _classifyError (r_error f) with
      | Throw e => Throw e
      | Return k =>
          if bool_decide (k = errorType) &&
             String.eqb (join "," (r_toolsUsed f)) (join "," (r_toolsUsed failure))
          then Return (Some f)
          else find_similar errorType failure rest
      end
  end.

Definition _learnFromFailure (failure : failure_record) (now : Z) : M unit :=
  errorType ← lift (_classifyError (r_error failure));
  st ← get;
  existing ← lift (find_similar errorType failure (failedAttempts st));
  let occurrenceCount :=
    match existing with
    | Some e => add (num_or (r_occurrenceCount e) (Fin 1)) (Fin 1)
    | None => Fin 1
    end in
  i ← _generateId now;
  let avoidancePattern :=
    Pattern avoidance_rule (Some i) (Some now) [] [] None None None None None
      None (Some errorType) (r_toolsUsed failure) (r_suggestion failure)
      (Some occurrenceCount) in
  modify (push_pattern avoidancePattern);;
  saveLearningData.

Definition recordFailure (failure : failure) (now : Z) : M string :=
  i ← _generateId now;
  let record :=
    FailureRecord i now
      (Workflow.or_empty (f_toolsUsed failure))
      (f_error failure)
      (f_step failure)
      (Workflow.or_blank (f_context failure))
      (f_suggestion failure)
      None in
  modify (fun st => State (learnedPatterns st) (successfulWorkflows st)
                      (failedAttempts st ++ [record]) (entropy st));;
  saveLearningData;;
  _learnFromFailure record now;;
  mret i.

(** *** Suggestions *)

(** The [context] argument of [getSuggestions]. *)
Record query : Type := Query {
  q_goal : option string;
  requiredCapabilities : option (list string);
  toolsToUse : option (list string)
}.

(** [{...pattern, relevance, reason}] *)
Record suggestion : Type := Suggestion {
  s_pattern : pattern;
  relevance : num;
  reason : string
}.

(** The value of [relevance] at the end of the [switch]. *)
Definition relevance_of (ctx : query) (pattern : pattern) : num :=
  match type pattern with
  | tool_sequence =>
      if truthy_str (useCase pattern) && truthy_str (q_goal ctx)
      then _calculateSimilarity (useCase pattern) (q_goal ctx)
      else Fin 0
  | capability_combination =>
      match requiredCapabilities ctx with
      | Some required =>
          let overlap :=
            length (filter (fun c => mem c required = true) (capabilities pattern)) in
          div (of_nat overlap) (of_nat (length (capabilities pattern)))
      | None => Fin 0
      end
  | duration_estimate =>
      if truthy_str (q_goal ctx)
      then _calculateSimilarity (context pattern) (q_goal ctx)
      else Fin 0
  | avoidance_rule =>
      match toolsToUse ctx with
      | Some tools =>
          let toolsMatch := forallb (fun t => mem t tools) (avoidCombination pattern) in
          if toolsMatch then Fin 1 else Fin 0
      | None => Fin 0
      end
  end.

(** The array [suggestions] before it is sorted. *)
Definition relevant (ctx : query) (store : list pattern) : list suggestion :=
  omap (fun pattern =>
          let relevance := relevance_of ctx pattern in
          if gt relevance (Fin (3 # 10))
          then Some (Suggestion pattern relevance (_getSuggestionReason pattern))
          else None)
       store.

Definition compare_suggestions (a b : suggestion) : num :=
  let successDiff :=
    sub (num_or (successRate (s_pattern b)) (Fin 0))
        (num_or (successRate (s_pattern a)) (Fin 0)) in
  if gt (abs successDiff) (Fin (1 # 10)) then successDiff
  else sub (relevance b) (relevance a).

Definition getSuggestions `{ArraySort} (ctx : query) (st : state)
  : list suggestion :=
  take 5 (sort_by compare_suggestions (relevant ctx (learnedPatterns st))).

(** *** Estimates, similar workflows and clean-up *)

(** [estimateDuration(context)]; [None] is the result [null]. *)
Definition estimateDuration (ctx : query) (st : state) : option num :=
  let matches :=
    filter (fun p => type p = duration_estimate /\
                     gt (_calculateSimilarity (context p) (q_goal ctx)) (Fin (1 # 2)) = true)
           (learnedPatterns st) in
  if (length matches =? 0)%nat then None
  else
    let totalWeight :=
      foldl (fun sum m => add64 sum (to_number (confidence m))) (Fin 0) matches in
    let weightedDuration :=
      foldl (fun sum m =>
               add64 sum (mul64 (to_number (estimatedDuration m))
                                (to_number (confidence m))))
            (Fin 0) matches in
    Some (round (div64 weightedDuration totalWeight)).

(** The comparison function of [getSimilarWorkflows]. *)
Definition compare_workflows (ctx : query) (a b : success_record) : num :=
  let simA := _calculateSimilarity (Workflow.goal (s_context a)) (q_goal ctx) in
  let simB := _calculateSimilarity (Workflow.goal (s_context b)) (q_goal ctx) in
  if gt (abs (sub simA simB)) (Fin (1 # 10)) then sub simB simA
  else sub (of_Z (s_timestamp b)) (of_Z (s_timestamp a)).

(** [getSimilarWorkflows(context, limit)]; the caller that omits [limit]
    passes 3.  The [context] of a logged record is always an object. *)
Definition getSimilarWorkflows `{ArraySort} (ctx : query) (limit : nat) (st : state)
  : list success_record :=
  let similar :=
    filter (fun wf =>
              truthy_str (Workflow.goal (s_context wf)) = true /\
              gt (_calculateSimilarity (Workflow.goal (s_context wf)) (q_goal ctx))
                 (Fin (4 # 10)) = true)
           (successfulWorkflows st) in
  take limit (sort_by (compare_workflows ctx) similar).




(** *** Notions used to state the properties *)



(** Running a method for its final state. *)
Definition exec {A} (m : M A) (st : state) : state := snd (m st).

(** The states that a fresh instance reaches through its two recording
    methods, whether [recordFailure] returns or throws. *)
Inductive reachable : state -> Prop :=
| reachable_initial : reachable initial
| reachable_success st workflow now :
    reachable st -> reachable (exec (recordSuccess workflow now) st)
| reachable_failure st failure now :
    reachable st -> reachable (exec (recordFailure failure now) st).

(** Two patterns that [_patternsMatch] identifies: the same mergeable
    type and the same identifying property, which for a capability
    combination is the array of capabilities up to its order. *)
Definition matches (p q : pattern) : Prop :=
  type p = type q /\
  match type p with
  | tool_sequence => sequence p = sequence q
  | capability_combination => capabilities p ≡ₚ capabilities q
  | duration_estimate => context p = context q
  | avoidance_rule => False
  end.


(** The result of [_patternsMatch], and whether a candidate matches some
    entry of the store. *)
Definition matchb (p c : pattern) : bool := (_patternsMatch p c).1.1.


(** Two patterns with the same type and the same identifying properties. *)
Definition ident (p q : pattern) : Prop :=
  type p = type q /\ sequence p = sequence q /\
  capabilities p ≡ₚ capabilities q /\ context p = context q.

(** A pattern as a comparison by [_patternsMatch] leaves it: the same
    identity and the same [count]. *)
Definition kept (p p' : pattern) : Prop := ident p p' /\ count p' = count p.




(** *** Further notions *)

(** What a comparison by [_patternsMatch] does to a pattern: nothing, or
    its capabilities are sorted. *)
Definition sorted_or_same (p p' : pattern) : Prop :=
  p' = p \/ p' = set_capabilities p (sort (capabilities p)).

(** A stored pattern at a later time: everything but the three statistics
    [count], [successRate] and [estimatedDuration] is as it was, the
    capabilities up to their order. *)
Definition evolves (p p' : pattern) : Prop :=
  type p' = type p /\ id p' = id p /\ createdAt p' = createdAt p /\
  sequence p' = sequence p /\ capabilities p' ≡ₚ capabilities p /\
  useCase p' = useCase p /\ context p' = context p /\
  confidence p' = confidence p /\ errorType p' = errorType p /\
  avoidCombination p' = avoidCombination p /\
  recommendedAlternative p' = recommendedAlternative p /\
  occurrenceCount p' = occurrenceCount p.

(** A logged record at a later time: everything is as it was, the
    capabilities possibly sorted. *)
Definition resorted (r r' : success_record) : Prop :=
  s_id r' = s_id r /\ s_timestamp r' = s_timestamp r /\
  s_toolsUsed r' = s_toolsUsed r /\ s_steps r' = s_steps r /\
  s_duration r' = s_duration r /\ s_outcome r' = s_outcome r /\
  s_context r' = s_context r /\
  (s_capabilitiesUsed r' = s_capabilitiesUsed r \/
   s_capabilitiesUsed r' = sort (s_capabilitiesUsed r)).

(** An array that a logged record shares with a stored pattern has one
    value. *)
Definition aliased (store : list pattern) (r : success_record) : Prop :=
  forall k, s_shared r = Some k ->
    exists p, store !! k = Some p /\ capabilities p = s_capabilitiesUsed r.

(** A tool sequence or capability combination with a positive integer
    [count] and the [successRate] 1. *)
Definition all_successes (p : pattern) : Prop :=
  type p = tool_sequence \/ type p = capability_combination ->
  (exists n : Z, (1 <= n)%Z /\ same (to_number (count p)) (of_Z n)) /\
  same (to_number (successRate p)) (Fin 1).

(** The shape of a stored pattern, by type. *)
Definition well_shaped (p : pattern) : Prop :=
  is_Some (id p) /\ is_Some (createdAt p) /\
  match type p with
  | tool_sequence =>
      (2 <= length (sequence p))%nat /\ ("" ∉ sequence p) /\
      truthy_str (useCase p) = true
  | capability_combination => (2 <= length (capabilities p))%nat
  | duration_estimate => confidence p = Some (Fin 1)
  | avoidance_rule => occurrenceCount p = Some (Fin 2) /\ is_Some (errorType p)
  end.

(** The patterns that [estimateDuration] averages. *)
Definition duration_matches (ctx : query) (st : state) : list pattern :=
  filter (fun p => type p = duration_estimate /\
                   gt (_calculateSimilarity (context p) (q_goal ctx)) (Fin (1 # 2)) = true)
         (learnedPatterns st).

(** The sum of the estimates of a list of patterns, where they are finite. *)
Definition total_estimate (l : list pattern) : Q :=
  foldr (fun m acc =>
           (match estimatedDuration m with Some (Fin d) => d | _ => 0 end + acc)%Q)
        0%Q l.

(** The two conditions of a stored duration estimate: never merged, with
    the duration of its workflow; or merged, with [NaN] in its statistics. *)
Definition unmerged_or_NaN (p : pattern) : Prop :=
  type p = duration_estimate ->
  (count p = None /\ successRate p = None /\
   exists d, estimatedDuration p = Some d /\ truthy_num d = true) \/
  (count p = Some NaN /\ successRate p = Some NaN /\ estimatedDuration p = Some NaN).

(** The success rate of an avoidance rule is missing. *)
Definition unrated (p : pattern) : Prop :=
  type p = avoidance_rule -> successRate p = None.

End LearningSystem.


(** ** The template extractor (class [PatternExtractor]) *)

Module PatternExtractor.
Import Js.

Inductive category : Type :=
| browser_automation
| database_operations
| file_operations
| testing
| api_integration
| media_processing
| general_automation.

Global Instance category_eq_dec : EqDecision category.
Proof. solve_decision. Defined.

(** A step as [_normalizeSteps] leaves it. *)
Record normalized_step : Type := NormalizedStep {
  n_tool : string;
  n_description : string;
  n_code : option string;
  n_duration : option num
}.

(** A skill template.  The property [parameters], which
    [_extractParameters] derives from the free-form parameter objects of
    the steps and which no other method reads, is not represented. *)
Record template : Type := Template {
  id : string;
  name : string;
  description : string;
  category_of : category;
  useCases : list string;
  steps : list normalized_step;
  toolsRequired : list string;
  capabilitiesRequired : list string;
  estimatedDuration : option num;
  successCount : num;
  lastUsed : Z;
  examples : list (option Workflow.context)
}.

Record state : Type := State {
  skillTemplates : list template;
  entropy : nat
}.

Definition initial : state := State [] 0.

(** The value [{ merged, template }] that [extractFromWorkflow] returns. *)
Record extraction : Type := Extraction {
  merged : bool;
  template_of : template
}.

Definition _generateId (now : Z) (st : state) : string * state :=
  ("pattern_" +:+ pretty now +:+ "_" +:+ pretty (entropy st),
   State (skillTemplates st) (S (entropy st))).

Definition goal_of (workflow : Workflow.t) : option string :=
  Workflow.context_of workflow ≫= Workflow.goal.

Definition _generateTemplateName (workflow : Workflow.t) : string :=
  match goal_of workflow with
  | Some (String c rest) => toUpperCase (String c "") +:+ toLowerCase rest
  | _ => "Workflow Pattern"
  end.

Definition _generateDescription (workflow : Workflow.t) : string :=
  let tools := Workflow.or_empty (Workflow.toolsUsed workflow) in
  let steps := Workflow.or_empty (Workflow.steps workflow) in
  "A " +:+ pretty (length steps) +:+ "-step workflow using " +:+
  join ", " tools +:+ " that accomplishes " +:+
  (if truthy_str (goal_of workflow) then default "" (goal_of workflow)
   else "a common task").

Definition _classifyCategory (workflow : Workflow.t) : category :=
  let tools := Workflow.or_empty (Workflow.toolsUsed workflow) in
  if existsb (fun t => includes t "browser" || includes t "web") tools
  then browser_automation
  else if existsb (fun t => includes t "database" || includes t "db") tools
  then database_operations
  else if existsb (fun t => includes t "file" || includes t "fs") tools
  then file_operations
  else if existsb (fun t => includes t "test") tools
  then testing
  else if existsb (fun t => includes t "api") tools
  then api_integration
  else if existsb (fun t => includes t "image" || includes t "video") tools
  then media_processing
  else general_automation.

Definition _extractUseCases (workflow : Workflow.t) : list string :=
  let from_context :=
    match Workflow.context_of workflow with
    | Some c =>
        (if truthy_str (Workflow.goal c) then [default "" (Workflow.goal c)] else [])
        ++ (if truthy_str (Workflow.industry c)
            then [default "" (Workflow.industry c) +:+ " automation"] else [])
    | None => []
    end in
  let tools := Workflow.or_empty (Workflow.toolsUsed workflow) in
  uniq (from_context
        ++ (if mem "web_search" tools then ["research"; "information gathering"] else [])
        ++ (if mem "browser" tools then ["web automation"; "scraping"] else [])
        ++ (if mem "message" tools then ["communication"; "notifications"] else [])).

Definition _normalizeSteps (steps : list Workflow.step) : list normalized_step :=
  map (fun step =>
         NormalizedStep
           (if truthy_str (Workflow.tool step)
            then default "" (Workflow.tool step) else "unknown")
           (if truthy_str (Workflow.description step)
            then default "" (Workflow.description step) else "Execute step")
           (if truthy_str (Workflow.code step) then Workflow.code step else None)
           (if truthy_num (to_number (Workflow.step_duration step))
            then Workflow.step_duration step else None))
      steps.

(** [_extractTools]: [tools] is the array built so far. *)
Definition _extractTools (steps : list Workflow.step) : list string :=
  foldl (fun tools step =>
           if truthy_str (Workflow.tool step) &&
              negb (mem (default "" (Workflow.tool step)) tools)
           then tools ++ [default "" (Workflow.tool step)]
           else tools)
        [] steps.

Definition similar (template t : template) : bool :=
  bool_decide (category_of t = category_of template) &&
  (length (toolsRequired t) =? length (toolsRequired template))%nat &&
  forallb (fun tool => mem tool (toolsRequired template)) (toolsRequired t).

(** [a.find(f)], with the position of the element found. *)
Fixpoint find_with_index {A} (f : A -> bool) (l : list A) : option (nat * A) :=
  match l with
  | [] => None
  | x :: t =>
      if f x then Some (0%nat, x)
      else (fun r => (S (fst r), snd r)) <$> find_with_index f t
  end.

Definition _findSimilarTemplate (st : state) (template : template)
  : option (nat * PatternExtractor.template) :=
  find_with_index (similar template) (skillTemplates st).

(** The body of [if (existing) { ... }]. *)
Definition merge_into (workflow : Workflow.t) (template : template) (now : Z)
    (existing : PatternExtractor.template) : PatternExtractor.template :=
  Template (id existing) (name existing) (description existing)
    (category_of existing) (useCases existing) (steps existing)
    (toolsRequired existing) (capabilitiesRequired existing)
    (if negb (truthy_num (to_number (estimatedDuration template)))
     then estimatedDuration template
     else estimatedDuration existing)
    (add (successCount existing) (Fin 1))
    now
    (examples existing ++ [Workflow.context_of workflow]).

Definition saveSkillTemplates (st : state) : state := st.

(** [extractFromWorkflow]; [None] is the result [null]. *)
Definition extractFromWorkflow (workflow : Workflow.t) (now : Z) (st : state)
  : option extraction * state :=
  match Workflow.steps workflow with
  | None => (None, st)
  | Some wsteps =>
      if (length wsteps <? 2)%nat then (None, st)
      else
        let '(i, st1) := _generateId now st in
        let template :=
          Template i
            (_generateTemplateName workflow)
            (_generateDescription workflow)
            (_classifyCategory workflow)
            (_extractUseCases workflow)
            (_normalizeSteps wsteps)
            (_extractTools wsteps)
            (Workflow.or_empty (Workflow.capabilitiesUsed workflow))
            (Workflow.duration workflow)
            (Fin 1)
            now
            [Workflow.context_of workflow] in
        match _findSimilarTemplate st1 template with
        | Some (k, existing) =>
            let existing' := merge_into workflow template now existing in
            (Some (Extraction true existing'),
             State (<[k := existing']> (skillTemplates st1)) (entropy st1))
        | None =>
            let st2 := State (skillTemplates st1 ++ [template]) (entropy st1) in
            (Some (Extraction false template), saveSkillTemplates st2)
        end
  end.

(** *** Searching the templates *)

(** [{...template, matchScore, matchReasons}] *)
Record search_match : Type := SearchMatch {
  m_template : template;
  matchScore : nat;
  matchReasons : list string
}.

Definition _getMatchReasons (template : template) (query : string) : list string :=
  let reasons :=
    (if includes (toLowerCase (name template)) query then ["Name match"] else [])
    ++ (if includes (toLowerCase (description template)) query
        then ["Description match"] else []) in
  foldl (fun reasons uc =>
           if includes (toLowerCase uc) query
           then reasons ++ ["Use case: " +:+ uc] else reasons)
        reasons (useCases template).

(** The value of [score] at the end of the callback of [searchTemplates]. *)
Definition score_template (template : template) (queryLower : string) : nat :=
  let score := 0%nat in
  let score :=
    if includes (toLowerCase (name template)) queryLower then (score + 3)%nat else score in
  let score :=
    if includes (toLowerCase (description template)) queryLower
    then (score + 2)%nat else score in
  let score :=
    foldl (fun score useCase =>
             if includes (toLowerCase useCase) queryLower then (score + 2)%nat else score)
          score (useCases template) in
  foldl (fun score tool =>
           if includes (toLowerCase tool) queryLower then (score + 1)%nat else score)
        score (toolsRequired template).

Definition compare_matches (a b : search_match) : num :=
  let scoreDiff := sub (of_nat (matchScore b)) (of_nat (matchScore a)) in
  if negb (strict_eq scoreDiff (Fin 0)) then scoreDiff
  else sub (successCount (m_template b)) (successCount (m_template a)).

Definition searchTemplates `{ArraySort} (query : string) (st : state)
  : list search_match :=
  let queryLower := toLowerCase query in
  let matches :=
    omap (fun template =>
            let score := score_template template queryLower in
            if (0 <? score)%nat
            then Some (SearchMatch template score (_getMatchReasons template queryLower))
            else None)
         (skillTemplates st) in
  take 10 (sort_by compare_matches matches).

(** *** Notions used to state the properties *)

(** The states that a fresh extractor reaches through [extractFromWorkflow]. *)
Inductive reachable : state -> Prop :=
| reachable_initial : reachable initial
| reachable_extract st workflow now :
    reachable st -> reachable (snd (extractFromWorkflow workflow now st)).

(** The object [template] that [extractFromWorkflow] builds from a
    workflow with the steps [wsteps], under the identifier [i]. *)
Definition candidate (workflow : Workflow.t) (wsteps : list Workflow.step)
    (i : string) (now : Z) : template :=
  Template i
    (_generateTemplateName workflow)
    (_generateDescription workflow)
    (_classifyCategory workflow)
    (_extractUseCases workflow)
    (_normalizeSteps wsteps)
    (_extractTools wsteps)
    (Workflow.or_empty (Workflow.capabilitiesUsed workflow))
    (Workflow.duration workflow)
    (Fin 1)
    now
    [Workflow.context_of workflow].

(** What a merge leaves of a template: everything but the estimate, the
    count, the time of the last use and the examples. *)
Definition same_template (t t' : template) : Prop :=
  id t' = id t /\ name t' = name t /\ description t' = description t /\
  category_of t' = category_of t /\ useCases t' = useCases t /\
  steps t' = steps t /\ toolsRequired t' = toolsRequired t /\
  capabilitiesRequired t' = capabilitiesRequired t.

End PatternExtractor.

(** ** The trending scorer (class [CommunityShare]) *)

Module CommunityShare.
Import Js.

(** An entry of [votes]. *)
Record vote : Type := Vote {
  up : Z;
  down : Z
}.

(** A shared pattern, with the properties that the scorer reads. *)
Record shared_pattern : Type := SharedPattern {
  id : string;
  name : string;
  successRate : num;
  createdAt : Z
}.

Record state : Type := State {
  sharedPatterns : list shared_pattern;
  votes : gmap string vote
}.

(** [{...pattern, score, votes}] *)
Record scored : Type := Scored {
  pattern_of : shared_pattern;
  score : num;
  net_votes : num
}.

(** [7 * 24 * 60 * 60 * 1000] *)
Definition week : Z := 7 * 24 * 60 * 60 * 1000.

(** [this.votes[voteKey]?.up || 0] and the same for [down] *)
Definition count_or_zero (f : vote -> Z) (st : state) (voteKey : string) : num :=
  of_Z (default 0%Z (f <$> votes st !! voteKey)).

(** The callback of [this.sharedPatterns.map]. *)
Definition score_pattern (now : Z) (st : state) (pattern : shared_pattern) : scored :=
  let voteKey := "pattern:" +:+ id pattern in
  let votes := sub64 (count_or_zero up st voteKey) (count_or_zero down st voteKey) in
  let age := sub64 (of_Z now) (of_Z (createdAt pattern)) in
  let agePenalty := floor (div64 age (of_Z week)) in
  Scored pattern
    (sub64 (add64 (mul64 (successRate pattern) (Fin 100)) votes) agePenalty)
    votes.

Definition getTrendingPatterns `{ArraySort} (limit : nat) (now : Z) (st : state)
  : list scored :=
  let scored := map (score_pattern now st) (sharedPatterns st) in
  take limit (sort_by (fun a b => sub64 (score b) (score a)) scored).

(** *** Votes, requests and sharing *)

(** How a call of [vote] ends: the vote is refused, the call is a dry run, or the
    vote is counted.  The identifier of the vote record, which is random
    and stored nowhere, is not represented. *)
Inductive vote_result : Type :=
| vote_refused
| vote_dry_run
| vote_recorded.

(** [vote(type, id, vote, {dryRun})]; the name [vote] is that of the record
    of the counts. *)
Definition cast_vote (type id choice : string) (dryRun : bool) (st : state)
  : vote_result * state :=
  if negb (String.eqb choice "up") && negb (String.eqb choice "down")
  then (vote_refused, st)
  else if dryRun then (vote_dry_run, st)
  else
    let voteKey := type +:+ ":" +:+ id in
    let counts := default (Vote 0 0) (votes st !! voteKey) in
    let counts' :=
      if String.eqb choice "up" then Vote (up counts + 1) (down counts)
      else Vote (up counts) (down counts + 1) in
    (vote_recorded, State (sharedPatterns st) (<[voteKey := counts']> (votes st))).

(** A capability request, with the properties that [getTopRequests] reads. *)
Record request : Type := Request {
  request_id : string;
  request_name : string;
  urgency : string
}.

(** [{...request, votes, score}] *)
Record scored_request : Type := ScoredRequest {
  request_of : request;
  request_votes : num;
  request_score : num
}.

(** The callback of [this.requestedCapabilities.map]. *)
Definition score_request (st : state) (request : request) : scored_request :=
  let voteKey := "request:" +:+ request_id request in
  let votes := count_or_zero up st voteKey in
  ScoredRequest request votes
    (add (mul votes (Fin 10))
         (if String.eqb (urgency request) "high" then Fin 50 else Fin 0)).

(** [getTopRequests(limit)].  The array [requestedCapabilities], a field of
    the instance that no other method represented here reads or writes, is
    an argument. *)
Definition getTopRequests `{ArraySort} (limit : nat)
    (requestedCapabilities : list request) (st : state) : list scored_request :=
  let scored := map (score_request st) requestedCapabilities in
  take limit (sort_by (fun a b => sub (request_score b) (request_score a)) scored).

(** The [type] of a learned pattern as a string. *)
Definition kind_name (k : LearningSystem.kind) : string :=
  match k with
  | LearningSystem.tool_sequence => "tool-sequence"
  | LearningSystem.capability_combination => "capability-combination"
  | LearningSystem.duration_estimate => "duration-estimate"
  | LearningSystem.avoidance_rule => "avoidance-rule"
  end.

(** [sharePattern(pattern, {dryRun})] for a learned pattern, which has no
    [name]: the shared pattern is named after its type.  [salt] is the
    random part of the identifier.  The result is the shared pattern, with
    the properties that the scorer reads. *)
Definition sharePattern (pattern : LearningSystem.pattern) (dryRun : bool)
    (now : Z) (salt : string) (st : state) : shared_pattern * state :=
  let sharedPattern :=
    SharedPattern
      ("comm_" +:+ pretty now +:+ "_" +:+ salt)
      (kind_name (LearningSystem.type pattern))
      (num_or (LearningSystem.successRate pattern) (Fin 1))
      now in
  if dryRun then (sharedPattern, st)
  else (sharedPattern, State (sharedPatterns st ++ [sharedPattern]) (votes st)).

End CommunityShare.

(** ** Concrete inputs *)

Module Scenario.
Import Js.

Definition step_with (tool : string) : Workflow.step :=
  Workflow.Step (Some tool) None None None.

Definition about (goal : string) : option Workflow.context :=
  Some (Workflow.Context (Some goal) None).

(** [{toolsUsed: ["web_search", "browser"], steps: [{tool: "web_search"},
    {tool: "browser"}], context: {goal: "scrape site"}}], with an optional
    [duration]. *)
Definition scrape (duration : option num) : Workflow.t :=
  Workflow.Make (Some ["web_search"; "browser"])
    (Some [step_with "web_search"; step_with "browser"])
    duration None None None (about "scrape site").

(** [{duration: d, context: {goal: "nightly backup"}}] *)
Definition backup (d : Z) : Workflow.t :=
  Workflow.Make None None (Some (of_Z d)) None None None (about "nightly backup").

(** [{duration: d, context: {goal: "nightly backup job"}}] *)
Definition backup_job (d : Z) : Workflow.t :=
  Workflow.Make None None (Some (of_Z d)) None None None (about "nightly backup job").

(** [{capabilities: c}] *)
Definition combining (c : list string) : Workflow.t :=
  Workflow.Make None None None None (Some c) None None.

(** [{error: e, toolsUsed: ["web_search"]}] *)
Definition search_failure (e : value) : LearningSystem.failure :=
  LearningSystem.Failure (Some ["web_search"]) e None None None.


(** [{error: "connection timed out"}] *)
Definition bare_failure : LearningSystem.failure :=
  LearningSystem.Failure None (VString "connection timed out") None None None.

(** One shared pattern with the success rate [0.9], the binary64 number
    nearest to 9/10, created at time 0, with seven votes up and two down. *)
Definition shared : CommunityShare.shared_pattern :=
  CommunityShare.SharedPattern "comm_0_a" "scraper" (binary64 (9 # 10)) 0.

Definition community : CommunityShare.state :=
  CommunityShare.State [shared]
    {["pattern:comm_0_a" := CommunityShare.Vote 7 2]}.




(** [{toolsUsed: ["read", "write"], steps: [{tool: "read"}, {tool: "write"}],
    context: {goal: "copy notes"}}] *)
Definition copying : Workflow.t :=
  Workflow.Make (Some ["read"; "write"])
    (Some [step_with "read"; step_with "write"])
    None None None None (about "copy notes").

(** A stored capability combination. *)
Definition searching_and_browsing : LearningSystem.pattern :=
  LearningSystem.Pattern LearningSystem.capability_combination
    (Some "learn_1_1") (Some 1%Z) [] ["web-search"; "web-browser"] None None
    (Some (Fin 1)) (Some (Fin 1)) None None None [] None None.

(** [{requiredCapabilities: ["web-search"]}] *)
Definition needing_search : LearningSystem.query :=
  LearningSystem.Query None (Some ["web-search"]) None.

(** [{goal: "nightly backup"}] *)
Definition backing_up : LearningSystem.query :=
  LearningSystem.Query (Some "nightly backup") None None.

(** A stored template. *)
Definition scraper : PatternExtractor.template :=
  PatternExtractor.Template "pattern_1_0" "Scrape site" "A 2-step workflow"
    PatternExtractor.browser_automation ["scrape site"] []
    ["web_search"; "browser"] [] None (Fin 1) 1%Z [].

End Scenario.

(** * Properties *)

Import Js.

(** ** Numbers *)

Section numbers.

Lemma same_refl (a : num) : same a a.
Proof. destruct a; simpl; auto. reflexivity. Qed.

Lemma same_sym (a b : num) : same a b -> same b a.
Proof. destruct a, b; simpl; auto. intros ->. reflexivity. Qed.

Lemma same_trans (a b c : num) : same a b -> same b c -> same a c.
Proof.
  destruct a, b, c; simpl; auto; try contradiction.
  intros -> ->. reflexivity.
Qed.

Lemma add_of_Z (m n : Z) : same (add (of_Z m) (of_Z n)) (of_Z (m + n)).
Proof. simpl. rewrite inject_Z_plus. reflexivity. Qed.

Lemma add_same (a a' b b' : num) :
  same a a' -> same b b' -> same (add a b) (add a' b').
Proof.
  destruct a, a', b, b'; simpl; auto; try contradiction.
  intros -> ->. reflexivity.
Qed.

(** [a > b] on finite numbers is the strict order of the rationals. *)
Lemma gt_Fin (p q : Q) : gt (Fin p) (Fin q) = true <-> (q < p)%Q.
Proof.
  simpl. rewrite negb_true_iff. split.
  - intros H. apply Qnot_le_lt. intros Hle.
    apply Qle_bool_iff in Hle. congruence.
  - intros H. destruct (Qle_bool p q) eqn:E; [|done].
    apply Qle_bool_iff in E. exfalso. by apply (Qlt_not_le q p).
Qed.

End numbers.

(** ** Rounding to binary64 *)

Section rounding.

Lemma pow2_pos (e : Z) : (0 < 2 ^ e)%Q.
Proof. apply Qpower_0_lt. reflexivity. Qed.

Lemma pow2_add (a b : Z) : (2 ^ (a + b) == 2 ^ a * 2 ^ b)%Q.
Proof. apply Qpower_plus. discriminate. Qed.

Lemma pow2_Z (e : Z) : (0 <= e)%Z -> (2 ^ e == inject_Z (2 ^ e))%Q.
Proof. intros He. symmetry. apply (Zpower_Qpower 2 e He). Qed.


Lemma pow2_succ (a : Z) : (2 ^ (a + 1) == 2 * 2 ^ a)%Q.
Proof. rewrite pow2_add. change (2 ^ 1)%Q with 2%Q. ring. Qed.

Lemma pow2_le (a b : Z) : (a <= b)%Z -> (2 ^ a <= 2 ^ b)%Q.
Proof.
  intros Hab. replace b with (a + (b - a))%Z by lia. rewrite pow2_add.
  assert (1 <= 2 ^ (b - a))%Q as H1.
  { rewrite pow2_Z by lia. change 1%Q with (inject_Z 1). rewrite <- Zle_Qle.
    pose proof (Z.pow_pos_nonneg 2 (b - a)). lia. }
  pose proof (pow2_pos a). nra.
Qed.

(** The binade of a positive rational. *)
Lemma binade_spec (q : Q) :
  (0 < q)%Q -> (2 ^ binade q <= q)%Q /\ (q < 2 ^ (binade q + 1))%Q.
Proof.
  intros Hq. unfold binade.
  destruct q as [n d]. cbn [Qnum Qden].
  assert (0 < n)%Z as Hn by (unfold Qlt in Hq; simpl in Hq; lia).
  set (a := Z.log2 n). set (b := Z.log2 (Z.pos d)).
  destruct (Z.log2_spec n Hn) as [Ha1 Ha2]. fold a in Ha1, Ha2.
  destruct (Z.log2_spec (Z.pos d) ltac:(lia)) as [Hb1 Hb2]. fold b in Hb1, Hb2.
  assert (0 <= a)%Z as Ha0 by apply Z.log2_nonneg.
  assert (0 <= b)%Z as Hb0 by apply Z.log2_nonneg.
  assert (2 ^ a <= inject_Z n)%Q as HA1 by (rewrite pow2_Z by done; by rewrite <- Zle_Qle).
  assert (inject_Z n < 2 * 2 ^ a)%Q as HA2.
  { rewrite <- pow2_succ, pow2_Z by lia. rewrite <- Zlt_Qlt.
    by replace (a + 1)%Z with (Z.succ a) by lia. }
  assert (2 ^ b <= inject_Z (Z.pos d))%Q as HB1
    by (rewrite pow2_Z by done; by rewrite <- Zle_Qle).
  assert (inject_Z (Z.pos d) < 2 * 2 ^ b)%Q as HB2.
  { rewrite <- pow2_succ, pow2_Z by lia. rewrite <- Zlt_Qlt.
    by replace (b + 1)%Z with (Z.succ b) by lia. }
  assert (n # d == inject_Z n / inject_Z (Z.pos d))%Q as Eq by apply Qmake_Qdiv.
  pose proof (pow2_pos a) as Pa. pose proof (pow2_pos b) as Pb.
  assert (0 < inject_Z (Z.pos d))%Q as Pd by lra.
  set (N := inject_Z n) in *. set (D := inject_Z (Z.pos d)) in *.
  assert (n # d == N / D)%Q as Eq' by exact Eq.
  assert ((n # d) * D == N)%Q as Em by (rewrite Eq'; field; lra).
  set (x := (n # d)%Q) in *.
  assert (2 ^ (a - b) * 2 ^ b == 2 ^ a)%Q as Ek.
  { rewrite <- pow2_add. by replace (a - b + b)%Z with a by lia. }
  pose proof (pow2_pos (a - b)) as Pk.
  set (K := (2 ^ (a - b))%Q) in *. set (A := (2 ^ a)%Q) in *. set (B := (2 ^ b)%Q) in *.
  destruct (Qle_bool K x) eqn:E.
  - apply Qle_bool_iff in E. split; [done|].
    rewrite pow2_succ. fold K.
    (* x D = N < 2A = 2 K B <= 2 K D *)
    apply Qnot_le_lt. intros Hc. nra.
  - assert (x < K)%Q as Hlt.
    { apply Qnot_le_lt. intros Hc. apply Qle_bool_iff in Hc. congruence. }
    replace (a - b - 1 + 1)%Z with (a - b)%Z by lia. fold K. split; [|done].
    assert (2 * 2 ^ (a - b - 1) == K)%Q as Eh.
    { rewrite <- pow2_succ. by replace (a - b - 1 + 1)%Z with (a - b)%Z by lia. }
    pose proof (pow2_pos (a - b - 1)) as Ph.
    set (Hf := (2 ^ (a - b - 1))%Q) in *.
    apply Qnot_lt_le. intros Hc. nra.
Qed.

Lemma nearest_even_bounds (q : Q) :
  (inject_Z (nearest_even q) - q <= 1 # 2)%Q /\
  (q - inject_Z (nearest_even q) <= 1 # 2)%Q.
Proof.
  unfold nearest_even.
  pose proof (Qfloor_le q) as Hl. pose proof (Qlt_floor q) as Hu.
  rewrite inject_Z_plus in Hu. change (inject_Z 1) with 1%Q in Hu.
  set (f := Qfloor q) in *.
  destruct (Qcompare_spec (q - inject_Z f) (1 # 2)) as [E | E | E].
  - destruct (Z.even f); rewrite ?inject_Z_plus; change (inject_Z 1) with 1%Q; lra.
  - lra.
  - rewrite inject_Z_plus. change (inject_Z 1) with 1%Q. lra.
Qed.

Lemma nearest_even_ge (q : Q) (z : Z) :
  (inject_Z z <= q)%Q -> (z <= nearest_even q)%Z.
Proof.
  intros Hz. assert (z <= Qfloor q)%Z as Hf.
  { rewrite <- (Qfloor_Z z). by apply Qfloor_resp_le. }
  unfold nearest_even. destruct (_ ?= _)%Q; [destruct (Z.even _)|..]; lia.
Qed.

Lemma nearest_even_lt (q : Q) (z : Z) :
  (q < inject_Z z - (1 # 2))%Q -> (nearest_even q < z)%Z.
Proof.
  intros Hz. destruct (nearest_even_bounds q) as [Hb _].
  rewrite Zlt_Qlt. lra.
Qed.

Lemma nearest_even_Z (q : Q) (z : Z) : (q == inject_Z z)%Q -> nearest_even q = z.
Proof.
  intros E. apply Z.le_antisymm.
  - assert (nearest_even q < z + 1)%Z; [|lia].
    apply nearest_even_lt. rewrite inject_Z_plus. change (inject_Z 1) with 1%Q. lra.
  - apply nearest_even_ge. lra.
Qed.

Lemma pow2_lt_inv (a b : Z) : (2 ^ a < 2 ^ b)%Q -> (a < b)%Z.
Proof.
  intros Hlt. destruct (Z.lt_ge_cases a b) as [|Hge]; [done|].
  apply pow2_le in Hge. lra.
Qed.

Lemma sgn_comp (p q : Q) : (p == q)%Q -> sgn p = sgn q.
Proof. intros E. unfold sgn. by rewrite E. Qed.

Lemma binary64_comp (p q : Q) : (p == q)%Q -> binary64 p = binary64 q.
Proof.
  intros E. unfold binary64. rewrite (sgn_comp p q E).
  rewrite (Qred_complete p q E).
  assert (- p == - q)%Q as E' by (by rewrite E).
  by rewrite (Qred_complete _ _ E').
Qed.

Lemma Qred_inject_Z (q : Q) (z : Z) : (q == inject_Z z)%Q -> Qred q = inject_Z z.
Proof.
  intros E. rewrite (Qred_complete _ _ E). unfold inject_Z, Qred. simpl.
  pose proof (Z.ggcd_gcd z 1) as Hg. pose proof (Z.ggcd_correct_divisors z 1) as Hd.
  destruct (Z.ggcd z 1) as [g [aa bb]]. simpl in *.
  rewrite Z.gcd_1_r in Hg. subst g. destruct Hd as [Ha Hb].
  assert (aa = z) as -> by lia. assert (bb = 1%Z) as -> by lia. reflexivity.
Qed.

(** Integers below [2^53] are binary64 numbers. *)
Lemma round_positive_Z (q : Q) (n : Z) :
  (q == inject_Z n)%Q -> (0 < n < 2 ^ 53)%Z ->
  round_positive q = of_Z n.
Proof.
  intros E [Hn0 Hn]. unfold round_positive.
  assert (0 < q)%Q as Hq by (rewrite E; change 0%Q with (inject_Z 0); by rewrite <- Zlt_Qlt).
  destruct (binade_spec q Hq) as [Hk1 Hk2]. set (k := binade q) in *.
  assert (1 <= q)%Q as H1 by (rewrite E; change 1%Q with (inject_Z 1); rewrite <- Zle_Qle; lia).
  assert (q < 2 ^ 53)%Q as H53.
  { rewrite E, pow2_Z by lia. by rewrite <- Zlt_Qlt. }
  assert (0 <= k)%Z as Hk0.
  { assert (0 < k + 1)%Z; [|lia]. apply pow2_lt_inv. change (2 ^ 0)%Q with 1%Q. lra. }
  assert (k < 53)%Z as Hk53 by (apply pow2_lt_inv; lra).
  rewrite Z.max_l by lia.
  assert (2 ^ (k - 52) * inject_Z (2 ^ (52 - k)) == 1)%Q as Einv.
  { rewrite <- pow2_Z by lia. rewrite <- pow2_add.
    by replace (k - 52 + (52 - k))%Z with 0%Z by lia. }
  pose proof (pow2_pos (k - 52)) as Pe.
  assert (q / 2 ^ (k - 52) == inject_Z (n * 2 ^ (52 - k)))%Q as Ey.
  { rewrite inject_Z_mult, E. set (u := (2 ^ (k - 52))%Q) in *.
    set (v := inject_Z (2 ^ (52 - k))) in *.
    apply Qmult_inj_r with u; [lra|]. field_simplify; [|lra]. 
    transitivity (inject_Z n * (u * v))%Q; [rewrite Einv; field | field]. }
  rewrite (nearest_even_Z _ _ Ey).
  assert (inject_Z (n * 2 ^ (52 - k)) * 2 ^ (k - 52) == inject_Z n)%Q as Er.
  { rewrite inject_Z_mult. set (u := (2 ^ (k - 52))%Q) in *.
    set (v := inject_Z (2 ^ (52 - k))) in *.
    transitivity (inject_Z n * (u * v))%Q; [ring | rewrite Einv; ring]. }
  assert (Qle_bool (2 ^ 1024) (inject_Z (n * 2 ^ (52 - k)) * 2 ^ (k - 52)) = false) as ->.
  { apply not_true_iff_false. intros Hc. apply Qle_bool_iff in Hc.
    rewrite Er, <- E in Hc.
    assert (2 ^ 53 <= 2 ^ 1024)%Q by (apply pow2_le; lia). lra. }
  unfold of_Z. f_equal. by apply Qred_inject_Z.
Qed.

Lemma binary64_Z (q : Q) (n : Z) :
  (q == inject_Z n)%Q -> (Z.abs n < 2 ^ 53)%Z -> binary64 q = of_Z n.
Proof.
  intros E Hn. unfold binary64.
  destruct (Z.lt_trichotomy n 0) as [Hneg | [-> | Hpos]].
  - assert (sgn q = Gt) as ->.
    { unfold sgn. apply (proj1 (Qgt_alt _ _)). rewrite E. unfold Qlt. simpl. lia. }
    rewrite (round_positive_Z _ (- n)); [| |lia].
    + unfold of_Z, neg. f_equal. rewrite inject_Z_opp.
      unfold Qopp, inject_Z. simpl. by rewrite Z.opp_involutive.
    + rewrite Qred_correct, E, inject_Z_opp. reflexivity.
  - assert (sgn q = Eq) as ->; [|done].
    unfold sgn. apply (proj1 (Qeq_alt _ _)). by rewrite E.
  - assert (sgn q = Lt) as ->.
    { unfold sgn. apply (proj1 (Qlt_alt _ _)). rewrite E. unfold Qlt. simpl. lia. }
    apply round_positive_Z; [|lia]. by rewrite Qred_correct.
Qed.

(** The quotient of two integers below [2^52] is rounded without crossing
    an integer or the middle between two integers. *)
Lemma binary64_quotient (a w : Z) :
  (0 < a < 2 ^ 52)%Z -> (0 < w < 2 ^ 52)%Z ->
  exists r,
    binary64 (inject_Z a / inject_Z w) = Fin r /\
    forall j : Z,
      (inject_Z j <= 2 * r)%Q <-> (inject_Z j <= 2 * (inject_Z a / inject_Z w))%Q.
Proof.
  intros [Ha0 Ha] [Hw0 Hw].
  set (A := inject_Z a). set (W := inject_Z w).
  assert (1 <= A)%Q as HA1
    by (unfold A; change 1%Q with (inject_Z 1); rewrite <- Zle_Qle; lia).
  assert (1 <= W)%Q as HW1
    by (unfold W; change 1%Q with (inject_Z 1); rewrite <- Zle_Qle; lia).
  assert (A + 1 <= 2 ^ 52)%Q as HA2.
  { unfold A. rewrite pow2_Z by lia. change 1%Q with (inject_Z 1).
    rewrite <- inject_Z_plus, <- Zle_Qle. lia. }
  assert (W + 1 <= 2 ^ 52)%Q as HW2.
  { unfold W. rewrite pow2_Z by lia. change 1%Q with (inject_Z 1).
    rewrite <- inject_Z_plus, <- Zle_Qle. lia. }
  pose proof (pow2_pos 52) as P52.
  assert (2 ^ (-52) * 2 ^ 52 == 1)%Q as E52 by (by rewrite <- pow2_add).
  pose proof (pow2_pos (-52)) as Pm52.
  set (q0 := (A / W)%Q).
  assert (q0 * W == A)%Q as Eq0 by (unfold q0; field; lra).
  clearbody q0.
  assert (0 < q0)%Q as Hq0 by (apply Qnot_le_lt; intros Hc; nra).
  unfold binary64.
  assert (sgn q0 = Lt) as -> by (by apply (proj1 (Qlt_alt _ _))).
  set (q := Qred q0). assert (q == q0)%Q as Eq by apply Qred_correct.
  assert (0 < q)%Q as Hq by lra.
  unfold round_positive.
  destruct (binade_spec q Hq) as [Hk1 Hk2]. set (k := binade q) in *.
  assert (q < 2 ^ 52)%Q as Hq52 by (apply Qnot_le_lt; intros Hc; nra).
  assert (2 ^ (-52) < q)%Q as Hqm52.
  { apply Qnot_le_lt. intros Hc.
    assert (q * W <= 2 ^ (-52) * W)%Q by nra. nra. }
  assert (k < 52)%Z as Hk52 by (apply pow2_lt_inv; lra).
  assert (-52 < k + 1)%Z as Hkm by (apply pow2_lt_inv; lra).
  rewrite Z.max_l by lia.
  set (S := (2 ^ (51 - k))%Z). set (Sq := inject_Z S).
  assert (0 < S)%Z as HS by (apply Z.pow_pos_nonneg; lia).
  assert (1 <= Sq)%Q as HSq
    by (unfold Sq; change 1%Q with (inject_Z 1); rewrite <- Zle_Qle; lia).
  assert (2 ^ (52 - k) == 2 * Sq)%Q as E2S.
  { replace (52 - k)%Z with (51 - k + 1)%Z by lia.
    rewrite pow2_succ, pow2_Z by lia. reflexivity. }
  pose proof (pow2_pos (k - 52)) as Pu.
  assert (2 ^ (k - 52) * (2 * Sq) == 1)%Q as Eu.
  { rewrite <- E2S, <- pow2_add. by replace (k - 52 + (52 - k))%Z with 0%Z by lia. }
  assert (2 ^ k * (2 * Sq) == 2 ^ 52)%Q as Ek.
  { rewrite <- E2S, <- pow2_add. by replace (k + (52 - k))%Z with 52%Z by lia. }
  set (u := (2 ^ (k - 52))%Q) in *.
  set (y := (q / u)%Q).
  assert (y == q * (2 * Sq))%Q as Ey.
  { unfold y. apply Qmult_inj_r with u; [lra|].
    transitivity q; [field; lra|].
    transitivity (q * (u * (2 * Sq)))%Q; [rewrite Eu; ring | ring]. }
  clearbody y.
  assert (2 ^ 52 <= y)%Q as Hy.
  { rewrite Ey, <- Ek. pose proof (pow2_pos k). nra. }
  set (m := nearest_even y).
  destruct (nearest_even_bounds y) as [Hm1 Hm2]. fold m in Hm1, Hm2.
  set (M := inject_Z m) in *.
  assert (W < 2 * Sq)%Q as HSW.
  { apply Qnot_le_lt. intros Hc.
    assert (y * W == A * (2 * Sq))%Q as E1 by (rewrite Ey, Eq, <- Eq0; ring).
    nra. }
  assert (Qle_bool (2 ^ 1024) (M * u) = false) as ->.
  { apply not_true_iff_false. intros Hc. apply Qle_bool_iff in Hc.
    assert (2 ^ 53 <= 2 ^ 1024)%Q as H53 by (apply pow2_le; lia).
    assert (2 ^ 53 == 2 * 2 ^ 52)%Q as E53 by (by rewrite <- pow2_succ).
    assert (M * u * (2 * Sq) == M)%Q as EM.
    { transitivity (M * (u * (2 * Sq)))%Q; [ring | rewrite Eu; ring]. }
    assert (M <= q * (2 * Sq) + 1)%Q as HM by lra.
    assert (2 ^ 1024 * (2 * Sq) <= M)%Q as Hbig by (rewrite <- EM; nra).
    nra. }
  exists (Qred (M * u)). split; [done|].
  intros j. rewrite Qred_correct. set (J := inject_Z j).
  assert (J <= 2 * (M * u) <-> J * Sq <= M)%Q as ->.
  { assert (M * u * (2 * Sq) == M)%Q as EM.
    { transitivity (M * (u * (2 * Sq)))%Q; [ring | rewrite Eu; ring]. }
    split; intros Hle.
    - rewrite <- EM. nra.
    - apply Qnot_lt_le. intros Hc.
      assert (2 * (M * u) * Sq < J * Sq)%Q by nra. lra. }
  split.
  - intros Hle. apply Qnot_lt_le. intros Hc.
    assert (2 * A < J * W)%Q as H2 by (rewrite <- Eq0; nra).
    assert (2 * A + 1 <= J * W)%Q as H3.
    { unfold A, J, W in *. change 2%Q with (inject_Z 2) in *.
      change 1%Q with (inject_Z 1).
      rewrite <- !inject_Z_mult, <- ?inject_Z_plus in *.
      rewrite <- Zlt_Qlt in H2. rewrite <- Zle_Qle. lia. }
    assert (y * W == A * (2 * Sq))%Q as E1 by (rewrite Ey, Eq, <- Eq0; ring).
    assert (y < inject_Z (j * S) - (1 # 2))%Q as Hlt.
    { rewrite inject_Z_mult. fold J Sq. apply Qnot_le_lt. intros Hc'.
      assert ((J * Sq - (1 # 2)) * W <= y * W)%Q as H4 by nra.
      rewrite E1 in H4. nra. }
    apply nearest_even_lt in Hlt. fold m in Hlt.
    assert (M < J * Sq)%Q; [|lra].
    unfold M, J, Sq. rewrite <- inject_Z_mult, <- Zlt_Qlt. lia.
  - intros Hle.
    assert (inject_Z (j * S) <= y)%Q as Hge.
    { rewrite inject_Z_mult, Ey, Eq. fold J Sq.
      nra. }
    apply nearest_even_ge in Hge. fold m in Hge.
    unfold M, J, Sq. rewrite <- inject_Z_mult, <- Zle_Qle. lia.
Qed.

Lemma Qfloor_unique (x : Q) (z : Z) :
  (inject_Z z <= x)%Q -> (x < inject_Z z + 1)%Q -> Qfloor x = z.
Proof.
  intros Hl Hu. apply Z.le_antisymm.
  - assert (Qfloor x < z + 1)%Z; [|lia].
    rewrite Zlt_Qlt, inject_Z_plus. change (inject_Z 1) with 1%Q.
    pose proof (Qfloor_le x). lra.
  - rewrite <- (Qfloor_Z z). by apply Qfloor_resp_le.
Qed.


(** [Math.round(a / w)] is the nearest integer of the exact quotient. *)
Lemma round_quotient (a w : Z) :
  (0 <= a < 2 ^ 52)%Z -> (0 < w < 2 ^ 52)%Z ->
  round (binary64 (inject_Z a / inject_Z w))
  = of_Z (Qfloor (inject_Z a / inject_Z w + (1 # 2))).
Proof.
  intros [Ha0 Ha] Hw.
  destruct (Z.eq_dec a 0%Z) as [-> | Hne].
  - assert (inject_Z 0 / inject_Z w == 0)%Q as E by (unfold Qdiv; ring).
    rewrite (Qfloor_comp _ _ (Qplus_comp _ _ E _ _ (Qeq_refl _))).
    assert (binary64 (inject_Z 0 / inject_Z w) = Fin 0) as ->; [|done].
    unfold binary64. assert (sgn (inject_Z 0 / inject_Z w) = Eq) as ->; [|done].
    by apply (proj1 (Qeq_alt _ _)).
  - destruct (binary64_quotient a w) as (r & -> & Hr); [lia | done |].
    cbn [round]. f_equal.
    set (x := (inject_Z a / inject_Z w)%Q) in *. clearbody x.
    pose proof (Qfloor_le (x + (1 # 2))) as Hl. pose proof (Qlt_floor (x + (1 # 2))) as Hu.
    rewrite inject_Z_plus in Hu. change (inject_Z 1) with 1%Q in Hu.
    set (K := Qfloor (x + (1 # 2))) in *. apply Qfloor_unique.
    + assert (inject_Z (2 * K - 1) <= 2 * r)%Q as H1.
      { apply Hr. unfold Z.sub. rewrite inject_Z_plus, inject_Z_mult.
        change (inject_Z 2) with 2%Q. change (inject_Z (- (1))) with (- (1))%Q. lra. }
      unfold Z.sub in H1. rewrite inject_Z_plus, inject_Z_mult in H1.
      change (inject_Z 2) with 2%Q in H1. change (inject_Z (- (1))) with (- (1))%Q in H1.
      lra.
    + apply Qnot_le_lt. intros Hc.
      assert (inject_Z (2 * K + 1) <= 2 * x)%Q as H1.
      { apply Hr. rewrite inject_Z_plus, inject_Z_mult.
        change (inject_Z 2) with 2%Q. change (inject_Z 1) with 1%Q. lra. }
      rewrite inject_Z_plus, inject_Z_mult in H1.
      change (inject_Z 2) with 2%Q in H1. change (inject_Z 1) with 1%Q in H1. lra.
Qed.

(** The four operations on integers: no rounding below [2^53]. *)
Lemma add64_Z (a b : num) (x y : Z) :
  same a (of_Z x) -> same b (of_Z y) -> (Z.abs (x + y) < 2 ^ 53)%Z ->
  add64 a b = of_Z (x + y).
Proof.
  destruct a as [p| | |], b as [q| | |]; try done. cbn [same of_Z]. intros Ep Eq Hb.
  unfold add64. cbn [add round64]. apply binary64_Z; [|done].
  rewrite Ep, Eq, inject_Z_plus. reflexivity.
Qed.


Lemma mul64_Z (a b : num) (x y : Z) :
  same a (of_Z x) -> same b (of_Z y) -> (Z.abs (x * y) < 2 ^ 53)%Z ->
  mul64 a b = of_Z (x * y).
Proof.
  destruct a as [p| | |], b as [q| | |]; try done. cbn [same of_Z]. intros Ep Eq Hb.
  unfold mul64. cbn [mul round64]. apply binary64_Z; [|done].
  rewrite Ep, Eq, inject_Z_mult. reflexivity.
Qed.

Lemma div64_Z (a b : num) (x y : Z) :
  same a (of_Z x) -> same b (of_Z y) -> (0 < y)%Z ->
  div64 a b = binary64 (inject_Z x / inject_Z y).
Proof.
  destruct a as [p| | |], b as [q| | |]; try done. cbn [same of_Z]. intros Ep Eq Hy.
  unfold div64. cbn [div].
  assert (sgn q = Lt) as ->.
  { apply (proj1 (Qlt_alt _ _)). rewrite Eq. unfold Qlt. simpl. lia. }
  cbn [round64]. apply binary64_comp. by rewrite Ep, Eq.
Qed.

End rounding.

(** ** Sorting *)

Section sorting.

Lemma insert_by_perm {A} (cmp : A -> A -> num) (x : A) (l : list A) :
  insert_by cmp x l ≡ₚ x :: l.
Proof.
  induction l as [|y t IH]; simpl; [done|].
  destruct (gt (cmp y x) (Fin 0)); [done|].
  rewrite IH. apply Permutation_swap.
Qed.

Lemma insertion_sort_perm {A} (cmp : A -> A -> num) (l : list A) :
  insertion_sort cmp l ≡ₚ l.
Proof.
  unfold insertion_sort.
  enough (forall acc, foldl (fun acc x => insert_by cmp x acc) acc l ≡ₚ acc ++ l) as H
    by apply (H []).
  induction l as [|x t IH]; intros acc; simpl.
  - by rewrite app_nil_r.
  - rewrite IH, insert_by_perm. simpl. apply Permutation_middle.
Qed.

Lemma sort_perm (a : list string) : sort a ≡ₚ a.
Proof. apply merge_sort_Permutation. Qed.

(** Two arrays sort to the same array exactly when one is a
    rearrangement of the other. *)
Lemma sort_eq_iff (a b : list string) : sort a = sort b <-> a ≡ₚ b.
Proof.
  split.
  - intros H. rewrite <- (sort_perm a), <- (sort_perm b). by rewrite H.
  - intros H. apply (Sorted_unique String.le).
    + apply Sorted_merge_sort, _.
    + apply Sorted_merge_sort, _.
    + unfold sort in *. by rewrite !merge_sort_Permutation.
Qed.

End sorting.

#[export] Instance insertion_ArraySort : ArraySort :=
{| sort_by := @insertion_sort; sort_by_perm := @insertion_sort_perm |}.

(** ** The error classifier *)

Section classifier.
Import LearningSystem.





End classifier.

(** ** The similarity utility *)

Section similarity.
Import LearningSystem.

(** C3.  A word that occurs twice in the first string is counted twice in
    the intersection and once in the union: the similarity of "a a" and
    "a" is 2, it differs from that of "a" and "a a", and the similarity of
    "a a" with itself is 2. *)
Theorem similarity_counts_repeated_words :
  _calculateSimilarity (Some "a a") (Some "a") = Fin 2 /\
  gt (_calculateSimilarity (Some "a a") (Some "a")) (Fin 1) = true /\
  _calculateSimilarity (Some "a") (Some "a a") = Fin 1 /\
  _calculateSimilarity (Some "a a") (Some "a a") = Fin 2.
Proof. repeat split; reflexivity. Qed.

End similarity.

(** ** Recording failures *)

Section failures.
Import LearningSystem.

(** X27.  [recordFailure] throws as soon as the error is not a string; the
    record has been appended to [failedAttempts] by then, and no pattern
    is stored. *)
Lemma recordFailure_throws (failure : failure) (now : Z) (st : state) :
  (forall s, f_error failure <> VString s) ->
  exists e st',
    recordFailure failure now st = (Throw e, st') /\
    learnedPatterns st' = learnedPatterns st /\
    length (failedAttempts st') = S (length (failedAttempts st)).
Proof.
  intros H. unfold recordFailure, _learnFromFailure, _generateId, mbind, M_bind;
    simpl.
  destruct (f_error failure) eqn:E; simpl;
    try (eexists _, _; split; [reflexivity|]; simpl;
         split; [reflexivity|]; rewrite length_app; simpl; lia).
  by destruct (H s).
Qed.

(** C4.  On a failure object without an [error] property, [recordFailure]
    throws a [TypeError] instead of returning an identifier: the record is
    in [failedAttempts], no avoidance rule is stored. *)
Theorem recordFailure_without_error_throws :
  let call := recordFailure (Scenario.search_failure VUndefined) 1 initial in
  fst call
  = Throw (TypeError "Cannot read properties of undefined (reading 'toLowerCase')") /\
  learnedPatterns (snd call) = [] /\
  r_error <$> failedAttempts (snd call) = [VUndefined].
Proof. repeat split; reflexivity. Qed.

(** After such a call the log holds a record that [_classifyError]
    cannot read, and a later, well-formed failure throws as well. *)
Lemma recordFailure_poisoned :
  fst (recordFailure (Scenario.search_failure (VString "API key not found")) 2
         (exec (recordFailure (Scenario.search_failure VUndefined) 1) initial))
  = Throw (TypeError "Cannot read properties of undefined (reading 'toLowerCase')").
Proof. reflexivity. Qed.

(** C8.  The first failure ever recorded gets an avoidance rule with
    [occurrenceCount] 2, and so does a second, identical one: the record
    of the failure is in [failedAttempts] before the search and is what
    the search finds. *)
Theorem occurrenceCount_is_always_two :
  let failure := Scenario.search_failure (VString "API key not found") in
  let st1 := exec (recordFailure failure 1) initial in
  let st2 := exec (recordFailure failure 2) st1 in
  occurrenceCount <$> learnedPatterns st1 = [Some (Fin 2)] /\
  occurrenceCount <$> learnedPatterns st2 = [Some (Fin 2); Some (Fin 2)].
Proof. split; reflexivity. Qed.

End failures.

(** ** Merging duration estimates *)

Section durations.
Import LearningSystem.

(** C5.  Two successes with the same goal and the durations 100 and 300:
    the first stores the estimate 100 in a pattern without [count], the
    second merges into it (the store keeps one entry) and leaves [NaN] as
    the estimate, where the running average is 200. *)
Theorem duration_estimate_merges_to_NaN :
  let st1 := exec (recordSuccess (Scenario.backup 100) 1) initial in
  let st2 := exec (recordSuccess (Scenario.backup 300) 2) st1 in
  (fun p => (type p, context p, count p, estimatedDuration p)) <$> learnedPatterns st1
  = [(duration_estimate, Some "nightly backup", None, Some (Fin 100))] /\
  (fun p => (type p, context p, count p, estimatedDuration p)) <$> learnedPatterns st2
  = [(duration_estimate, Some "nightly backup", Some NaN, Some NaN)].
Proof. split; reflexivity. Qed.

End durations.

(** ** Merging templates *)

Section templates.
Import PatternExtractor.

(** C7.  A template is extracted from a workflow that took 1000 ms.  A
    second workflow with the same tools and category merges into it:
    [successCount] becomes 2, the context is appended to [examples] and
    [lastUsed] is refreshed; but a duration of 2000 ms leaves the estimate
    at 1000 ms, and a workflow without duration erases the estimate. *)
Theorem merge_keeps_or_erases_duration :
  let st1 := snd (extractFromWorkflow (Scenario.scrape (Some (Fin 1000))) 1 initial) in
  let with_duration := extractFromWorkflow (Scenario.scrape (Some (Fin 2000))) 2 st1 in
  let without_duration := extractFromWorkflow (Scenario.scrape None) 2 st1 in
  estimatedDuration <$> skillTemplates st1 = [Some (Fin 1000)] /\
  (merged <$> fst with_duration = Some true /\
   (fun t => (successCount t, length (examples t), lastUsed t, estimatedDuration t))
     <$> skillTemplates (snd with_duration)
   = [(Fin 2, 2%nat, 2%Z, Some (Fin 1000))]) /\
  (merged <$> fst without_duration = Some true /\
   (fun t => (successCount t, length (examples t), lastUsed t, estimatedDuration t))
     <$> skillTemplates (snd without_duration)
   = [(Fin 2, 2%nat, 2%Z, None)]).
Proof. repeat split; reflexivity. Qed.

End templates.

(** ** Suggestions *)

Section suggestions.
Import LearningSystem.
Context `{ArraySort}.

Lemma div_of_nat_pos (m n : nat) :
  (0 < n)%nat ->
  div (of_nat m) (of_nat n)
  = Fin (inject_Z (Z.of_nat m) / inject_Z (Z.of_nat n)).
Proof. intros Hn. destruct n; [lia|]. reflexivity. Qed.

Lemma similarity_finite (a b : option string) :
  exists q, _calculateSimilarity a b = Fin q.
Proof.
  unfold _calculateSimilarity.
  destruct (negb (truthy_str a) || negb (truthy_str b)); [by eexists|].
  destruct (0 <? length _)%nat eqn:E; [|by eexists].
  apply Nat.ltb_lt in E. rewrite div_of_nat_pos by done. by eexists.
Qed.

(** The relevance is never infinite: a quotient of two lengths whose
    divisor is 0 has the dividend 0. *)
Lemma relevance_of_finite_or_NaN (ctx : query) (p : pattern) :
  relevance_of ctx p = NaN \/ exists q, relevance_of ctx p = Fin q.
Proof.
  unfold relevance_of. destruct (type p).
  - right. destruct (_ && _); [apply similarity_finite | by eexists].
  - destruct (requiredCapabilities ctx) as [required|]; [|right; by eexists].
    destruct (capabilities p) as [|c l] eqn:E; [by left|].
    right. rewrite div_of_nat_pos by (simpl; lia). by eexists.
  - right. destruct (truthy_str _); [apply similarity_finite | by eexists].
  - right. destruct (toolsToUse ctx); [|by eexists].
    destruct (forallb _ _); by eexists.
Qed.

Lemma relevant_spec (ctx : query) (store : list pattern) (s : suggestion) :
  s ∈ relevant ctx store <->
  exists p, p ∈ store /\ gt (relevance_of ctx p) (Fin (3 # 10)) = true /\
            s = Suggestion p (relevance_of ctx p) (_getSuggestionReason p).
Proof.
  unfold relevant. rewrite list_elem_of_omap. split.
  - intros (p & Hp & Hs). exists p. split; [done|].
    destruct (gt _ _); [|done]. by injection Hs as <-.
  - intros (p & Hp & Hgt & ->). exists p. split; [done|]. by rewrite Hgt.
Qed.

Lemma getSuggestions_relevant (ctx : query) (st : state) (s : suggestion) :
  s ∈ getSuggestions ctx st -> s ∈ relevant ctx (learnedPatterns st).
Proof.
  unfold getSuggestions. intros Hs.
  apply elem_of_take in Hs as (i & Hi & _).
  apply list_elem_of_lookup_2 in Hi. by rewrite sort_by_perm in Hi.
Qed.

(** C6.  [getSuggestions] returns at most 5 entries; each one is a stored
    pattern with the relevance computed for it, and that relevance is a
    number strictly greater than 3/10. *)
Theorem getSuggestions_top_five (ctx : query) (st : state) :
  (length (getSuggestions ctx st) <= 5)%nat /\
  forall s, s ∈ getSuggestions ctx st ->
    s_pattern s ∈ learnedPatterns st /\
    relevance s = relevance_of ctx (s_pattern s) /\
    gt (relevance s) (Fin (3 # 10)) = true /\
    exists q, relevance s = Fin q /\ (3 # 10 < q)%Q.
Proof.
  split.
  - unfold getSuggestions. rewrite length_take. lia.
  - intros s Hs. apply getSuggestions_relevant, relevant_spec in Hs.
    destruct Hs as (p & Hp & Hgt & ->). simpl.
    repeat split; [done..|].
    destruct (relevance_of_finite_or_NaN ctx p) as [E | [q E]];
      rewrite E in Hgt |- *; [done|].
    exists q. split; [done|]. by apply gt_Fin.
Qed.

(** A pattern whose relevance is not above 3/10 is in no suggestion. *)
Corollary getSuggestions_discards (ctx : query) (st : state) (p : pattern) :
  gt (relevance_of ctx p) (Fin (3 # 10)) = false ->
  forall s, s ∈ getSuggestions ctx st -> s_pattern s <> p.
Proof.
  intros Hp s Hs Hsp. subst p.
  apply getSuggestions_relevant, relevant_spec in Hs.
  destruct Hs as (p & _ & Hgt & ->). simpl in Hp. congruence.
Qed.



End suggestions.

(** ** The trending score *)

Section trending.
Import CommunityShare.
Context `{ArraySort}.



Lemma getTrendingPatterns_scored (limit : nat) (now : Z) (st : state) (e : scored) :
  e ∈ getTrendingPatterns limit now st ->
  exists p, p ∈ sharedPatterns st /\ e = score_pattern now st p.
Proof.
  unfold getTrendingPatterns. intros He.
  apply elem_of_take in He as (i & Hi & _).
  apply list_elem_of_lookup_2 in Hi. rewrite sort_by_perm in Hi.
  apply list_elem_of_fmap in Hi as (p & -> & Hp). by exists p.
Qed.




End trending.

(** ** Merging patterns *)

Section merging.
Import LearningSystem.

(** *** Identity of patterns *)

Lemma ident_refl (p : pattern) : ident p p.
Proof. by repeat split. Qed.

Lemma ident_sym (p q : pattern) : ident p q -> ident q p.
Proof. intros (? & ? & ? & ?). by repeat split. Qed.

Lemma ident_trans (p q r : pattern) : ident p q -> ident q r -> ident p r.
Proof.
  intros (? & ? & ? & ?) (? & ? & ? & ?).
  repeat split; by etrans.
Qed.

Lemma ident_sorted (p : pattern) :
  ident p (set_capabilities p (sort (capabilities p))).
Proof. repeat split; simpl; try done. by rewrite sort_perm. Qed.



Lemma matches_sym (p q : pattern) : matches p q -> matches q p.
Proof.
  intros [Ht Hm]. split; [done|]. rewrite <- Ht.
  destruct (type p); by try symmetry.
Qed.

Lemma matches_ident_l (p p' c : pattern) :
  ident p p' -> matches p c -> matches p' c.
Proof.
  intros (Ht & Hs & Hc & Hx) [Htc Hm]. split; [congruence|].
  rewrite <- Ht. destruct (type p); try done; try congruence.
  by rewrite <- Hc.
Qed.

Lemma matches_ident_r (p c c' : pattern) :
  ident c c' -> matches p c -> matches p c'.
Proof.
  intros Hi Hm. by apply matches_sym, (matches_ident_l c), matches_sym.
Qed.

Lemma matches_trans (p q r : pattern) :
  matches p q -> matches q r -> matches p r.
Proof.
  intros [Ht Hm] [Ht' Hm']. split; [congruence|].
  rewrite <- Ht in Hm'. destruct (type p); try done; by etrans.
Qed.

Lemma matches_type (p c : pattern) : matches p c -> type p = type c.
Proof. by intros [? _]. Qed.

Lemma matches_mergeable (p c : pattern) :
  matches p c -> type c <> avoidance_rule.
Proof. intros [Ht Hm] E. rewrite <- Ht in E. by rewrite E in Hm. Qed.

(** *** [_patternsMatch] *)

Lemma patternsMatch_spec (p c : pattern) :
  let '(b, p', c') := _patternsMatch p c in
  (b = true <-> matches p c) /\ ident p p' /\ ident c c' /\
  count p' = count p /\ successRate p' = successRate p /\
  estimatedDuration p' = estimatedDuration p /\
  count c' = count c /\ estimatedDuration c' = estimatedDuration c.
Proof.
  unfold _patternsMatch, matches, same_json.
  case_bool_decide as Ht; simpl.
  - destruct (type p) eqn:E; simpl;
      (split; [|repeat split; try done; simpl; by rewrite ?sort_perm]).
    + rewrite bool_decide_eq_true. tauto.
    + rewrite bool_decide_eq_true, sort_eq_iff. tauto.
    + rewrite bool_decide_eq_true. tauto.
    + intuition discriminate.
  - split; [intuition discriminate|]. by repeat split.
Qed.

Lemma matchb_spec (p c : pattern) : matchb p c = true <-> matches p c.
Proof.
  unfold matchb. pose proof (patternsMatch_spec p c) as H.
  destruct (_patternsMatch p c) as [[b p'] c']. apply H.
Qed.



Lemma kept_refl (p : pattern) : kept p p.
Proof. split; [apply ident_refl | done]. Qed.

Lemma kept_trans (p q r : pattern) : kept p q -> kept q r -> kept p r.
Proof.
  intros [Hi Hc] [Hi' Hc']. split; [by eapply ident_trans | congruence].
Qed.

Lemma patternsMatch_kept (p c : pattern) :
  kept p (_patternsMatch p c).1.2 /\ kept c (_patternsMatch p c).2.
Proof.
  pose proof (patternsMatch_spec p c) as H.
  destruct (_patternsMatch p c) as [[b p'] c']. simpl.
  destruct H as (_ & ? & ? & ? & _ & _ & ? & _). split; by split.
Qed.

(** *** The search for an existing pattern *)

Lemma find_match_spec (store : list pattern) (c : pattern) :
  let '(r, store', c') := find_match store c in
  Forall2 kept store store' /\ kept c c' /\
  match r with
  | Some k => exists p, store !! k = Some p /\ matches p c
  | None => forall q, q ∈ store -> ~ matches q c
  end.
Proof.
  revert c. induction store as [|p rest IH]; intros c; simpl.
  - split; [constructor|]. split; [apply kept_refl|]. by intros q ?%elem_of_nil.
  - pose proof (patternsMatch_spec p c) as Hspec.
    pose proof (patternsMatch_kept p c) as [Hp Hc].
    destruct (_patternsMatch p c) as [[b p'] c1]. simpl in Hp, Hc.
    destruct Hspec as [Hb _]. destruct b.
    + split; [constructor; [done | apply Forall_Forall2_diag, Forall_forall;
                                    intros; apply kept_refl]|].
      split; [done|]. exists p. split; [done | by apply Hb].
    + specialize (IH c1). destruct (find_match rest c1) as [[r rest'] c2].
      destruct IH as (Hrest & Hc2 & Hr).
      split; [by constructor|]. split; [by eapply kept_trans|].
      destruct r as [k|]; simpl.
      * destruct Hr as (q & Hq & Hm). exists q. split; [done|].
        apply (matches_ident_r q c1 c); [apply ident_sym, Hc | done].
      * intros q [-> | Hq]%elem_of_cons Hm.
        -- apply Hb in Hm. discriminate.
        -- apply (Hr q Hq). apply (matches_ident_r q c c1); [apply Hc | done].
Qed.

Lemma merge_pattern_unfold (now : Z) (c : pattern) (st : state) :
  merge_pattern now c st =
  (Return tt,
   match find_match (learnedPatterns st) c with
   | (Some k, store', c') =>
       set_patterns (alter (update_existing c') k store')
         (set_candidate c' (set_patterns store' st))
   | (None, store', c') =>
       State (store' ++ [set_identity c' ("learn_" +:+ pretty now +:+ "_" +:+
                                              pretty (entropy st)) now])
         (successfulWorkflows
            (push_pattern c' (set_candidate c' (set_patterns store' st))))
         (failedAttempts st) (S (entropy st))
   end).
Proof.
  unfold merge_pattern, _generateId, mbind, M_bind, get, modify, mret, M_ret.
  simpl. destruct (find_match (learnedPatterns st) c) as [[[k|] store'] c'];
    reflexivity.
Qed.

Lemma count_update_existing (c p : pattern) :
  count (update_existing c p) = Some (add (to_number (count p)) (Fin 1)).
Proof. unfold update_existing. by case_bool_decide. Qed.

(** *** One round of the merge *)


Lemma for_each_merge_cons (now : Z) (c : pattern) (rest : list pattern) (st : state) :
  exec (for_each (merge_pattern now) (c :: rest)) st
  = exec (for_each (merge_pattern now) rest) (exec (merge_pattern now c) st).
Proof.
  unfold exec. cbn [for_each]. unfold mbind, M_bind.
  by rewrite merge_pattern_unfold.
Qed.

Lemma for_each_merge_returns (now : Z) (cands : list pattern) (st : state) :
  fst (for_each (merge_pattern now) cands st) = Return tt.
Proof.
  revert st. induction cands as [|c rest IH]; intros st; [done|].
  cbn [for_each]. unfold mbind, M_bind. rewrite merge_pattern_unfold. apply IH.
Qed.




(** *** All rounds *)


(** *** The candidates of one workflow *)

Lemma candidates_types (record : success_record) :
  NoDup (type <$> candidates record) /\
  forall c, c ∈ candidates record ->
    type c <> avoidance_rule /\
    (type c = tool_sequence \/ type c = capability_combination ->
     count c = Some (Fin 1)).
Proof.
  unfold candidates.
  destruct (1 <? length (s_steps record))%nat;
    [destruct (1 <? length (filter_truthy _))%nat|];
    destruct (1 <? length (s_capabilitiesUsed record))%nat;
    destruct (truthy_num _); cbn [app fmap list_fmap type];
    (split;
     [ repeat (apply NoDup_cons; split;
               [rewrite ?elem_of_cons, elem_of_nil; intuition discriminate|]);
       apply NoDup_nil_2
     | intros c Hc; rewrite ?elem_of_cons, elem_of_nil in Hc;
       repeat (destruct Hc as [-> | Hc]); try done;
       cbn [type count]; (split; [discriminate|]);
       intros [E | E]; (discriminate E || reflexivity) ]).
Qed.

(** *** The two recording methods, unfolded *)

Lemma recordSuccess_unfold (workflow : Workflow.t) (now : Z) (st : state) :
  let i := "learn_" +:+ pretty now +:+ "_" +:+ pretty (entropy st) in
  let st0 :=
    State (learnedPatterns st)
      (successfulWorkflows st ++ [record_of workflow i now])
      (failedAttempts st) (S (entropy st)) in
  recordSuccess workflow now st
  = (Return i,
     exec (for_each (merge_pattern now) (candidates (record_of workflow i now))) st0).
Proof.
  intros i st0.
  unfold recordSuccess, _extractPatternsFromWorkflow, _generateId, exec,
    saveLearningData, mbind, M_bind, get, modify, mret, M_ret.
  cbn -[for_each candidates record_of pretty String.app]. fold i. fold st0.
  pose proof (for_each_merge_returns now (candidates (record_of workflow i now)) st0) as E.
  destruct (for_each _ _ st0) as [r st']. simpl in E. by subst r.
Qed.

Lemma recordFailure_patterns (failure : failure) (now : Z) (st : state) :
  let store' := learnedPatterns (exec (recordFailure failure now) st) in
  store' = learnedPatterns st \/
  exists a, type a = avoidance_rule /\ store' = learnedPatterns st ++ [a].
Proof.
  unfold exec, recordFailure, _learnFromFailure, _generateId, lift,
    saveLearningData, mbind, M_bind, get, modify, mret, M_ret.
  cbn -[find_similar pretty String.app].
  destruct (_classifyError (f_error failure)) as [kind|e]; [|by left].
  cbn -[find_similar pretty String.app].
  destruct (find_similar _ _ _) as [existing|e]; [|by left].
  right. eexists. split; cycle 1.
  { cbn. reflexivity. }
  reflexivity.
Qed.

(** *** The invariant of the store *)






End merging.

(** ** The properties at concrete inputs *)

Section examples.



End examples.

(** * Further properties *)

(** ** The pattern store over time *)

Section store.
Import LearningSystem.

(** X1.  [_patternsMatch] is symmetric and transitive, identifies only
    patterns of one mergeable type, and identifies every pattern other
    than an avoidance rule with itself. *)
Theorem patternsMatch_equivalence (p q r : pattern) :
  matchb p q = matchb q p /\
  (matchb p q = true -> matchb q r = true -> matchb p r = true) /\
  (matchb p q = true -> type p = type q /\ type p <> avoidance_rule) /\
  (type p <> avoidance_rule -> matchb p p = true) /\
  (type p = avoidance_rule -> matchb p q = false /\ matchb q p = false).
Proof.
  split; [|split; [|split; [|split]]].
  - apply eq_true_iff_eq. rewrite !matchb_spec.
    split; apply matches_sym.
  - rewrite !matchb_spec. apply matches_trans.
  - rewrite matchb_spec. intros Hm. split; [by apply matches_type|].
    rewrite (matches_type p q Hm). by apply (matches_mergeable p q).
  - intros Hp. apply matchb_spec. split; [done|]. by destruct (type p).
  - intros Hp. split; apply not_true_iff_false; rewrite matchb_spec; intros Hm.
    + apply (matches_mergeable q p); [by apply matches_sym | done].
    + by apply (matches_mergeable q p).
Qed.

Lemma patternsMatch_sorted_or_same (p c : pattern) :
  sorted_or_same p (_patternsMatch p c).1.2 /\
  sorted_or_same c (_patternsMatch p c).2.
Proof.
  unfold _patternsMatch, sorted_or_same.
  destruct (negb _); [by split; left|].
  destruct (type p); simpl; split; auto.
Qed.

Lemma sorted_or_same_trans (p q r : pattern) :
  sorted_or_same p q -> sorted_or_same q r -> sorted_or_same p r.
Proof.
  intros [-> | ->] [-> | ->]; [by left | by right | by right |].
  right. simpl. f_equal. apply sort_eq_iff, sort_perm.
Qed.

Lemma find_match_sorted_or_same (store : list pattern) (c : pattern) :
  Forall2 sorted_or_same store (find_match store c).1.2 /\
  sorted_or_same c (find_match store c).2.
Proof.
  revert c. induction store as [|p rest IH]; intros c; simpl.
  - split; [constructor | by left].
  - pose proof (patternsMatch_sorted_or_same p c) as [Hp Hc].
    destruct (_patternsMatch p c) as [[b p'] c1]. simpl in Hp, Hc.
    destruct b; simpl.
    + split; [|done]. constructor; [done|].
      apply Forall_Forall2_diag, Forall_forall. intros; by left.
    + specialize (IH c1). destruct (find_match rest c1) as [[r rest'] c2].
      simpl in IH |- *. destruct IH as [Hrest Hc2].
      split; [by constructor | by eapply sorted_or_same_trans].
Qed.

(** One round of the merge leaves the store as it was up to sorted
    capabilities, with either one entry of the type of the candidate updated
    or one entry appended. *)
Lemma merge_pattern_shape (now : Z) (c : pattern) (st : state) :
  exists store' c',
    Forall2 sorted_or_same (learnedPatterns st) store' /\
    sorted_or_same c c' /\
    ((exists k p',
        store' !! k = Some p' /\ type p' = type c' /\
        learnedPatterns (exec (merge_pattern now c) st)
        = alter (update_existing c') k store') \/
     (exists i, learnedPatterns (exec (merge_pattern now c) st)
                = store' ++ [set_identity c' i now])).
Proof.
  unfold exec. rewrite merge_pattern_unfold. cbn [snd].
  pose proof (find_match_sorted_or_same (learnedPatterns st) c) as [Hs Hc].
  pose proof (find_match_spec (learnedPatterns st) c) as Hspec.
  destruct (find_match (learnedPatterns st) c) as [[[k|] store'] c'];
    simpl in Hs, Hc; exists store', c'; (split; [done|]); (split; [done|]).
  - left. destruct Hspec as (_ & _ & p & Hp & Hm).
    destruct (Forall2_lookup_l _ _ _ _ _ Hs Hp) as (p' & Hp' & Hpp).
    exists k, p'. split; [done|]. split; [|done].
    apply matches_type in Hm.
    assert (type p' = type p) as -> by (by destruct Hpp as [-> | ->]).
    assert (type c' = type c) as -> by (by destruct Hc as [-> | ->]).
    done.
  - right. by eexists.
Qed.

(** A property of patterns that sorting and updating preserve, and that
    the candidate has once it is named, is kept by a round of the merge. *)
Lemma merge_pattern_Forall (P : pattern -> Prop) (now : Z) (c : pattern) (st : state) :
  (forall p p', sorted_or_same p p' -> P p -> P p') ->
  (forall c' p, sorted_or_same c c' -> type p = type c' -> P p ->
                P (update_existing c' p)) ->
  (forall c' i, sorted_or_same c c' -> P (set_identity c' i now)) ->
  Forall P (learnedPatterns st) ->
  Forall P (learnedPatterns (exec (merge_pattern now c) st)).
Proof.
  intros Hsort Hupd Hnew Hstore.
  destruct (merge_pattern_shape now c st)
    as (store' & c' & Hs & Hc' & [(k & p0 & Hp0 & Ht0 & ->) | [i ->]]).
  - assert (Forall P store') as Hstore'.
    { apply Forall_lookup. intros j p' Hp'.
      destruct (Forall2_lookup_r _ _ _ _ _ Hs Hp') as (p & Hp & Hpp).
      apply (Hsort p p' Hpp). by apply (proj1 (Forall_lookup _ _) Hstore j). }
    apply Forall_lookup. intros j p1 Hp1.
    destruct (decide (j = k)) as [-> | Hne].
    + rewrite list_lookup_alter_eq in Hp1.
      rewrite Hp0 in Hp1. injection Hp1 as <-. apply Hupd; [done | done |].
      by apply (proj1 (Forall_lookup _ _) Hstore' k).
    + rewrite list_lookup_alter_ne in Hp1 by done.
      by apply (proj1 (Forall_lookup _ _) Hstore' j).
  - apply Forall_app. split.
    + apply Forall_lookup. intros j p' Hp'.
      destruct (Forall2_lookup_r _ _ _ _ _ Hs Hp') as (p & Hp & Hpp).
      apply (Hsort p p' Hpp). by apply (proj1 (Forall_lookup _ _) Hstore j).
    + constructor; [|constructor]. by apply Hnew.
Qed.

Lemma for_each_merge_Forall (P : pattern -> Prop) (now : Z)
    (cands : list pattern) (st : state) :
  (forall p p', sorted_or_same p p' -> P p -> P p') ->
  (forall c c' p, c ∈ cands -> sorted_or_same c c' -> type p = type c' -> P p ->
                  P (update_existing c' p)) ->
  (forall c c' i, c ∈ cands -> sorted_or_same c c' -> P (set_identity c' i now)) ->
  Forall P (learnedPatterns st) ->
  Forall P (learnedPatterns (exec (for_each (merge_pattern now) cands) st)).
Proof.
  intros Hsort. revert st.
  induction cands as [|c rest IH]; intros st Hupd Hnew Hstore; [done|].
  rewrite for_each_merge_cons. apply IH.
  - intros c0 c' p Hc0. apply Hupd. by right.
  - intros c0 c' i Hc0. apply Hnew. by right.
  - apply merge_pattern_Forall; try done.
    + intros c' p. apply Hupd. by left.
    + intros c' i. apply Hnew. by left.
Qed.

(** The same for a relation between a stored pattern and what it has
    become. *)
Lemma merge_pattern_evolves (now : Z) (c : pattern) (st : state) :
  let store := learnedPatterns st in
  let store1 := learnedPatterns (exec (merge_pattern now c) st) in
  (length store <= length store1 <= S (length store))%nat /\
  forall k p, store !! k = Some p ->
    exists p1, store1 !! k = Some p1 /\ evolves p p1.
Proof.
  assert (forall p p', sorted_or_same p p' -> evolves p p') as Hsort.
  { intros p p' [-> | ->]; repeat split; simpl; try done. apply sort_perm. }
  assert (forall c' p, evolves p (update_existing c' p)) as Hupd.
  { intros c' p. unfold update_existing. case_bool_decide; by repeat split. }
  assert (forall p q r, evolves p q -> evolves q r -> evolves p r) as Htrans.
  { intros p q r (?&?&?&?&?&?&?&?&?&?&?&?) (?&?&?&?&?&?&?&?&?&?&?&?).
    repeat split; by etrans. }
  intros store store1. subst store store1.
  destruct (merge_pattern_shape now c st)
    as (store' & c' & Hs & Hc' & [(k & _ & _ & _ & ->) | [i ->]]);
    pose proof (Forall2_length _ _ _ Hs) as Hlen.
  - rewrite length_alter. split; [lia|]. intros j p Hp.
    destruct (Forall2_lookup_l _ _ _ _ _ Hs Hp) as (p' & Hp' & Hpp).
    destruct (decide (j = k)) as [-> | Hne].
    + exists (update_existing c' p'). rewrite list_lookup_alter_eq, Hp'.
      split; [done|]. eapply Htrans; [by apply Hsort | apply Hupd].
    + exists p'. rewrite list_lookup_alter_ne by done. split; [done|].
      by apply Hsort.
  - rewrite length_app. simpl. split; [lia|]. intros j p Hp.
    destruct (Forall2_lookup_l _ _ _ _ _ Hs Hp) as (p' & Hp' & Hpp).
    exists p'. rewrite lookup_app_l by (by eapply lookup_lt_Some).
    split; [done | by apply Hsort].
Qed.

Lemma candidates_at_most_three (record : success_record) :
  (length (candidates record) <= 3)%nat.
Proof.
  unfold candidates.
  destruct (1 <? length (s_steps record))%nat;
    [destruct (1 <? length (filter_truthy _))%nat|];
    destruct (1 <? length (s_capabilitiesUsed record))%nat;
    destruct (truthy_num _); simpl; lia.
Qed.

Lemma for_each_merge_evolves (now : Z) (cands : list pattern) (st : state) :
  let store := learnedPatterns st in
  let store' := learnedPatterns (exec (for_each (merge_pattern now) cands) st) in
  (length store <= length store' <= length store + length cands)%nat /\
  forall k p, store !! k = Some p ->
    exists p', store' !! k = Some p' /\ evolves p p'.
Proof.
  revert st. induction cands as [|c rest IH]; intros st store store'.
  - subst store'. unfold exec. cbn. fold store. split; [lia|].
    intros k p Hp. exists p. split; [done|]. by repeat split.
  - subst store'. rewrite for_each_merge_cons.
    destruct (merge_pattern_evolves now c st) as [Hlen1 Hold1].
    destruct (IH (exec (merge_pattern now c) st)) as [Hlen Hold].
    fold store in Hlen1, Hold1. split; [simpl; lia|].
    intros k p Hp.
    destruct (Hold1 k p Hp) as (p1 & Hp1 & He1).
    destruct (Hold k p1 Hp1) as (p' & Hp' & He).
    exists p'. split; [done|].
    destruct He1 as (?&?&?&?&?&?&?&?&?&?&?&?).
    destruct He as (?&?&?&?&?&?&?&?&?&?&?&?).
    repeat split; by etrans.
Qed.

(** *** The arrays that the log shares with the store *)

Lemma resorted_refl (r : success_record) : resorted r r.
Proof. repeat split; by left. Qed.

Lemma follow_aliased (store : list pattern) (r : success_record) :
  aliased store r -> follow store r = r.
Proof.
  intros Hr. unfold follow. destruct (s_shared r) as [k|] eqn:Ek; [|done].
  destruct (Hr k Ek) as (p & Hp & Ec). cbn. rewrite Hp, Ec.
  by destruct r.
Qed.

Lemma fmap_follow_aliased (store : list pattern) (log : list success_record) :
  Forall (aliased store) log -> follow store <$> log = log.
Proof.
  intros Hl. induction Hl as [|r log Hr _ IH]; [done|].
  cbn. by rewrite IH, follow_aliased.
Qed.

(** The records follow a store whose arrays have been sorted. *)
Lemma follow_sorted (store store' : list pattern) (r : success_record) :
  Forall2 sorted_or_same store store' -> aliased store r ->
  resorted r (follow store' r) /\ aliased store' (follow store' r) /\
  s_shared (follow store' r) = s_shared r.
Proof.
  intros Hs Hr. unfold follow. destruct (s_shared r) as [k|] eqn:Ek; cycle 1.
  { cbn. split; [apply resorted_refl|]. split; [|done]. intros k. by rewrite Ek. }
  destruct (Hr k Ek) as (p & Hp & Ec).
  destruct (Forall2_lookup_l _ _ _ _ _ Hs Hp) as (p' & Hp' & Hpp).
  cbn. rewrite Hp'. split; [|split; [|done]].
  - repeat (split; [done|]). cbn. rewrite <- Ec. by destruct Hpp as [-> | ->]; auto.
  - intros k'. cbn. rewrite Ek. intros [= <-]. by exists p'.
Qed.

Lemma aliased_mono (store store' : list pattern) (r : success_record) :
  (forall k p, store !! k = Some p ->
     exists p', store' !! k = Some p' /\ capabilities p' = capabilities p) ->
  aliased store r -> aliased store' r.
Proof.
  intros Hs Hr k Hk. destruct (Hr k Hk) as (p & Hp & Ec).
  destruct (Hs k p Hp) as (p' & Hp' & Ec'). exists p'. split; [done | congruence].
Qed.

Lemma capabilities_update_existing (c p : pattern) :
  capabilities (update_existing c p) = capabilities p.
Proof. unfold update_existing. by case_bool_decide. Qed.

Lemma lookup_alter_update (c : pattern) (k : nat) (store : list pattern)
    (j : nat) (p : pattern) :
  store !! j = Some p ->
  exists p', alter (update_existing c) k store !! j = Some p' /\
             capabilities p' = capabilities p.
Proof.
  intros Hp. destruct (decide (j = k)) as [-> | Hne].
  - exists (update_existing c p). rewrite list_lookup_alter_eq, Hp.
    split; [done | apply capabilities_update_existing].
  - exists p. by rewrite list_lookup_alter_ne.
Qed.

(** A candidate that is no capability combination sorts nothing. *)
Lemma find_match_other (store : list pattern) (c : pattern) :
  type c <> capability_combination ->
  (find_match store c).1.2 = store /\ (find_match store c).2 = c.
Proof.
  intros Hc. induction store as [|p rest [IH1 IH2]]; [done|]. cbn [find_match].
  assert (_patternsMatch p c = ((_patternsMatch p c).1.1, p, c)) as E.
  { unfold _patternsMatch. case_bool_decide as Ht; [|done]. cbn [negb].
    destruct (type p) eqn:Etp; done. }
  rewrite E. destruct (_patternsMatch p c).1.1; [done|].
  destruct (find_match rest c) as [[i rest'] c'']. cbn in *. by subst.
Qed.

Lemma on_last_snoc (f : success_record -> success_record)
    (log : list success_record) (r : success_record) :
  on_last f (log ++ [r]) = log ++ [f r].
Proof.
  unfold on_last. rewrite length_app. cbn [length]. replace (pred (length log + 1)) with (length log + 0)%nat by lia.
  by rewrite alter_app_r.
Qed.

(** A round of the merge for a candidate that is no capability combination
    leaves the log as it is. *)
Lemma merge_pattern_other (now : Z) (c : pattern) (st : state) :
  type c <> capability_combination ->
  Forall (aliased (learnedPatterns st)) (successfulWorkflows st) ->
  let st1 := exec (merge_pattern now c) st in
  successfulWorkflows st1 = successfulWorkflows st /\
  Forall (aliased (learnedPatterns st1)) (successfulWorkflows st1) /\
  (capability_combination ∈ type <$> learnedPatterns st1 <->
   capability_combination ∈ type <$> learnedPatterns st).
Proof.
  intros Hc Hal st1. subst st1. unfold exec. rewrite merge_pattern_unfold. cbn [snd].
  destruct (find_match_other (learnedPatterns st) c Hc) as [E1 E2].
  destruct (find_match (learnedPatterns st) c) as [[[k|] store'] c'];
    cbn in E1, E2; subst store' c'.
  - cbn [successfulWorkflows learnedPatterns set_patterns set_candidate].
    rewrite bool_decide_eq_false_2 by done.
    rewrite !(fmap_follow_aliased _ _ Hal).
    assert (Forall (aliased (alter (update_existing c) k (learnedPatterns st)))
              (successfulWorkflows st)) as Hal'.
    { eapply Forall_impl; [exact Hal|]. intros r. apply aliased_mono.
      intros j p. apply lookup_alter_update. }
    rewrite (fmap_follow_aliased _ _ Hal'). split; [done|]. split; [done|].
    rewrite (list_fmap_alter type (update_existing c) (fun t => t)).
    + by rewrite list_alter_id.
    + apply Forall_forall. intros p _. unfold update_existing. by case_bool_decide.
  - cbn [successfulWorkflows learnedPatterns set_patterns set_candidate
           push_pattern type set_identity].
    rewrite !bool_decide_eq_false_2 by done.
    rewrite !(fmap_follow_aliased _ _ Hal).
    split; [done|]. split.
    + eapply Forall_impl; [exact Hal|]. intros r. apply aliased_mono.
      intros j p Hp. exists p. split; [|done].
      rewrite lookup_app_l; [done | by eapply lookup_lt_Some].
    + rewrite fmap_app, elem_of_app. cbn [fmap list_fmap type set_identity].
      rewrite list_elem_of_singleton. intuition congruence.
Qed.

(** The array of a capability candidate is sorted as soon as the store has
    a capability combination to compare it with. *)
Lemma find_match_capability (store : list pattern) (c : pattern) :
  type c = capability_combination ->
  capabilities (find_match store c).2
  = if bool_decide (capability_combination ∈ type <$> store)
    then sort (capabilities c) else capabilities c.
Proof.
  intros Hc. revert c Hc. induction store as [|p rest IH]; intros c Hc.
  { cbn. rewrite bool_decide_eq_false_2; [done | apply not_elem_of_nil]. }
  cbn [find_match]. unfold _patternsMatch.
  destruct (decide (type p = capability_combination)) as [Hp | Hp].
  - rewrite bool_decide_eq_true_2 by congruence. cbn [negb]. rewrite Hp.
    rewrite (bool_decide_eq_true_2 (_ ∈ _)) by (cbn; rewrite Hp; apply list_elem_of_here).
    destruct (same_json _ _); [done|].
    set (c1 := set_capabilities c (sort (capabilities c))).
    specialize (IH c1 Hc).
    destruct (find_match rest c1) as [[i rest'] c2]. cbn [snd] in IH |- *.
    rewrite IH. cbn [capabilities c1 set_capabilities].
    case_bool_decide; [|done]. apply sort_eq_iff, sort_perm.
  - rewrite bool_decide_eq_false_2 by congruence. cbn [negb].
    specialize (IH c Hc).
    destruct (find_match rest c) as [[i rest'] c2]. cbn [snd] in IH |- *.
    rewrite IH.
    assert (bool_decide (capability_combination ∈ type <$> rest)
            = bool_decide (capability_combination ∈ type <$> p :: rest)) as ->; [|done].
    apply bool_decide_ext. cbn [fmap list_fmap].
    rewrite elem_of_cons. intuition congruence.
Qed.

(** A round of the merge for the capability combination of the record
    logged last: the arrays that were compared are sorted, in the store
    and in the log. *)
Lemma merge_pattern_capability (now : Z) (c : pattern) (st : state)
    (log : list success_record) (r : success_record) :
  type c = capability_combination ->
  successfulWorkflows st = log ++ [r] ->
  s_shared r = None -> s_capabilitiesUsed r = capabilities c ->
  Forall (aliased (learnedPatterns st)) (successfulWorkflows st) ->
  let st1 := exec (merge_pattern now c) st in
  Forall2 resorted (successfulWorkflows st) (successfulWorkflows st1) /\
  Forall (aliased (learnedPatterns st1)) (successfulWorkflows st1) /\
  exists log1 r1,
    successfulWorkflows st1 = log1 ++ [r1] /\
    s_capabilitiesUsed r1 = capabilities (find_match (learnedPatterns st) c).2.
Proof.
  intros Hc Hlog Hr Hcap Hal st1. subst st1. unfold exec.
  rewrite merge_pattern_unfold. cbn [snd].
  pose proof (find_match_sorted_or_same (learnedPatterns st) c) as [Hs Hc'].
  destruct (find_match (learnedPatterns st) c) as [[existing store'] c'].
  cbn [fst snd] in Hs, Hc'.
  assert (type c' = capability_combination) as Htc'
    by (by destruct Hc' as [-> | ->]).
  assert (capabilities c' = capabilities c \/ capabilities c' = sort (capabilities c))
    as Hcaps by (destruct Hc' as [-> | ->]; auto).
  rewrite Hlog in Hal |- *. apply Forall_app in Hal as [Hal _].
  set (log1 := follow store' <$> log).
  set (r1 := set_capabilitiesUsed r (capabilities c')).
  assert (follow store' r = r) as Efr.
  { apply follow_aliased. intros k. by rewrite Hr. }
  assert (Forall2 resorted log log1 /\ Forall (aliased store') log1) as [Hres Hal1].
  { subst log1. clear Hlog. induction Hal as [|x l Hx _ [IH1 IH2]]; [by split|].
    destruct (follow_sorted _ _ x Hs Hx) as (H1 & H2 & _).
    cbn. split; by constructor. }
  assert (resorted r r1) as Hr1.
  { repeat (split; [done|]). cbn. rewrite Hcap. destruct Hcaps as [-> | ->]; auto. }
  assert (successfulWorkflows (set_candidate c' (set_patterns store' st))
          = log1 ++ [r1]) as Elog.
  { cbn [successfulWorkflows set_candidate set_patterns]. rewrite Hlog.
    rewrite fmap_app. cbn [fmap list_fmap]. rewrite Efr. fold log1.
    by rewrite bool_decide_eq_true_2, on_last_snoc. }
  destruct existing as [k|].
  - cbn [successfulWorkflows learnedPatterns set_patterns]. rewrite Elog.
    assert (Forall (aliased (alter (update_existing c') k store')) (log1 ++ [r1]))
      as Hal2.
    { apply Forall_app. split.
      - eapply Forall_impl; [exact Hal1|]. intros x. apply aliased_mono.
        intros j p. apply lookup_alter_update.
      - constructor; [|constructor]. intros j. cbn. by rewrite Hr. }
    rewrite (fmap_follow_aliased _ _ Hal2). split; [|split; [done|]].
    + apply Forall2_app; [done|]. by constructor.
    + by exists log1, r1.
  - cbn [successfulWorkflows learnedPatterns push_pattern]. rewrite Elog.
    cbn [type set_identity]. rewrite bool_decide_eq_true_2, on_last_snoc by done.
    cbn [learnedPatterns set_candidate set_patterns].
    split; [|split].
    + apply Forall2_app; [done|]. constructor; [|constructor].
      destruct Hr1 as (?&?&?&?&?&?&?&?). by repeat split.
    + apply Forall_app. split.
      * eapply Forall_impl; [exact Hal1|]. intros x. apply aliased_mono.
        intros j p Hp. exists p. split; [|done].
        rewrite lookup_app_l; [done | by eapply lookup_lt_Some].
      * constructor; [|constructor]. intros j. cbn. intros [= <-].
        eexists. split; [apply list_lookup_middle; done|]. done.
    + by eexists log1, _.
Qed.

Lemma for_each_merge_app (now : Z) (l1 l2 : list pattern) (st : state) :
  exec (for_each (merge_pattern now) (l1 ++ l2)) st
  = exec (for_each (merge_pattern now) l2) (exec (for_each (merge_pattern now) l1) st).
Proof.
  revert st. induction l1 as [|c l1 IH]; intros st; [done|].
  cbn [app]. by rewrite !for_each_merge_cons, IH.
Qed.

Lemma for_each_merge_others (now : Z) (l : list pattern) (st : state) :
  (forall c, c ∈ l -> type c <> capability_combination) ->
  Forall (aliased (learnedPatterns st)) (successfulWorkflows st) ->
  let st' := exec (for_each (merge_pattern now) l) st in
  successfulWorkflows st' = successfulWorkflows st /\
  Forall (aliased (learnedPatterns st')) (successfulWorkflows st') /\
  (capability_combination ∈ type <$> learnedPatterns st' <->
   capability_combination ∈ type <$> learnedPatterns st).
Proof.
  revert st. induction l as [|c l IH]; intros st Hl Hal st'; [done|].
  subst st'. rewrite for_each_merge_cons.
  destruct (merge_pattern_other now c st) as (E1 & Hal1 & Ht1);
    [apply Hl; by left | done |].
  destruct (IH (exec (merge_pattern now c) st)) as (E2 & Hal2 & Ht2);
    [intros x Hx; apply Hl; by right | done |].
  split; [congruence|]. split; [done|]. by rewrite Ht2.
Qed.

Lemma for_each_merge_failedAttempts (now : Z) (cands : list pattern) (st : state) :
  failedAttempts (exec (for_each (merge_pattern now) cands) st) = failedAttempts st.
Proof.
  revert st. induction cands as [|c rest IH]; intros st; [done|].
  rewrite for_each_merge_cons, IH. unfold exec. rewrite merge_pattern_unfold. cbn [snd].
  by destruct (find_match (learnedPatterns st) c) as [[[k|] store'] c'].
Qed.

Lemma recordSuccess_failedAttempts (workflow : Workflow.t) (now : Z) (st : state) :
  failedAttempts (exec (recordSuccess workflow now) st) = failedAttempts st.
Proof.
  unfold exec. rewrite recordSuccess_unfold. cbn [snd].
  by rewrite for_each_merge_failedAttempts.
Qed.

(** What [recordSuccess] does to the log: the records logged before are as
    they were, up to sorted capabilities; the capabilities of the new
    record are sorted exactly when they make a candidate and the store has
    a capability combination to compare it with. *)
Lemma recordSuccess_log (workflow : Workflow.t) (now : Z) (st : state) :
  Forall (aliased (learnedPatterns st)) (successfulWorkflows st) ->
  let st' := exec (recordSuccess workflow now) st in
  let i := "learn_" +:+ pretty now +:+ "_" +:+ pretty (entropy st) in
  let caps := Workflow.or_empty (Workflow.capabilities workflow) in
  Forall (aliased (learnedPatterns st')) (successfulWorkflows st') /\
  exists log record,
    successfulWorkflows st' = log ++ [record] /\
    Forall2 resorted (successfulWorkflows st) log /\
    resorted (record_of workflow i now) record /\
    s_capabilitiesUsed record
    = if (1 <? length caps)%nat &&
         bool_decide (capability_combination ∈ type <$> learnedPatterns st)
      then sort caps else caps.
Proof.
  intros Hal st' i caps. subst st'. unfold exec. rewrite recordSuccess_unfold.
  cbn [snd]. fold i. set (st0 := State _ _ _ _).
  set (record := record_of workflow i now).
  assert (Forall (aliased (learnedPatterns st0)) (successfulWorkflows st0)) as Hal0.
  { subst st0. cbn [successfulWorkflows learnedPatterns].
    apply Forall_app. split; [done|]. constructor; [|constructor]. by intros k. }
  unfold candidates. rewrite !for_each_merge_app.
  set (T := if (1 <? length (s_steps record))%nat then _ else _).
  set (D := if truthy_num (to_number (s_duration record)) then _ else _).
  assert (forall c, c ∈ T -> type c <> capability_combination) as HT.
  { subst T. intros c Hc.
    destruct (1 <? length (s_steps record))%nat; [|by apply elem_of_nil in Hc].
    destruct (1 <? length (filter_truthy _))%nat; [|by apply elem_of_nil in Hc].
    by apply list_elem_of_singleton in Hc as ->. }
  assert (forall c, c ∈ D -> type c <> capability_combination) as HD.
  { subst D. intros c Hc. destruct (truthy_num _); [|by apply elem_of_nil in Hc].
    by apply list_elem_of_singleton in Hc as ->. }
  destruct (for_each_merge_others now T st0 HT Hal0) as (ET & HalT & HtT).
  set (sT := exec (for_each (merge_pattern now) T) st0) in *.
  assert (successfulWorkflows sT = successfulWorkflows st ++ [record]) as HlogT
    by (by rewrite ET).
  change (s_capabilitiesUsed record) with caps.
  destruct (1 <? length caps)%nat eqn:Ecaps; cbn [andb].
  - set (c := Pattern capability_combination _ _ _ _ _ _ _ _ _ _ _ _ _ _).
    rewrite (for_each_merge_cons now c []).
    change (exec (for_each (merge_pattern now) []) ?s) with s.
    destruct (merge_pattern_capability now c sT (successfulWorkflows st) record)
      as (Hres & HalC & log1 & r1 & Elog1 & Ecap1); try done.
    set (sC := exec (merge_pattern now c) sT) in *.
    destruct (for_each_merge_others now D sC HD HalC) as (ED & HalD & _).
    split; [done|]. rewrite ED, Elog1.
    rewrite HlogT, Elog1 in Hres.
    apply Forall2_app_inv_l in Hres as (log' & last' & Hold & Hnew & Eapp).
    apply Forall2_cons_inv_l in Hnew as (r' & rest & Hrec & Hnil & ->).
    apply Forall2_nil_inv_l in Hnil as ->.
    apply app_inj_tail in Eapp as [-> ->].
    exists log', r'. split; [done|]. split; [done|]. split; [done|].
    rewrite Ecap1, find_match_capability by done.
    cbn [capabilities c]. apply (f_equal (fun b : bool => if b then _ else _)).
    apply bool_decide_ext. by rewrite HtT.
  - change (exec (for_each (merge_pattern now) []) sT) with sT.
    destruct (for_each_merge_others now D sT HD HalT) as (ED & HalD & _).
    split; [done|]. rewrite ED, HlogT.
    exists (successfulWorkflows st), record. split; [done|].
    split; [apply Forall_Forall2_diag, Forall_forall; intros; apply resorted_refl|].
    split; [apply resorted_refl | done].
Qed.

Lemma reachable_aliased (st : state) :
  reachable st -> Forall (aliased (learnedPatterns st)) (successfulWorkflows st).
Proof.
  induction 1 as [|st workflow now _ IH|st failure now _ IH]; [constructor| |].
  - by apply recordSuccess_log.
  - destruct (recordFailure_patterns failure now st) as [E | (a & _ & E)].
    + assert (successfulWorkflows (exec (recordFailure failure now) st)
              = successfulWorkflows st) as ->; [|by rewrite E].
      unfold exec, recordFailure, _learnFromFailure, _generateId, lift,
        saveLearningData, mbind, M_bind, get, modify, mret, M_ret.
      cbn -[find_similar pretty String.app].
      destruct (_classifyError (f_error failure)) as [kind|e]; [|done].
      cbn -[find_similar pretty String.app].
      by destruct (find_similar _ _ _) as [existing|e].
    + assert (successfulWorkflows (exec (recordFailure failure now) st)
              = successfulWorkflows st) as ->.
      { unfold exec, recordFailure, _learnFromFailure, _generateId, lift,
          saveLearningData, mbind, M_bind, get, modify, mret, M_ret.
        cbn -[find_similar pretty String.app].
        destruct (_classifyError (f_error failure)) as [kind|e]; [|done].
        cbn -[find_similar pretty String.app].
        by destruct (find_similar _ _ _) as [existing|e]. }
      rewrite E. eapply Forall_impl; [exact IH|]. intros r. apply aliased_mono.
      intros j p Hp. exists p. split; [|done].
      rewrite lookup_app_l; [done | by eapply lookup_lt_Some].
Qed.

(** X2.  In every state reached from a fresh instance, [recordSuccess]
    returns, adds at most three patterns and removes or moves none: every
    stored pattern is at its index afterwards, with everything but [count],
    [successRate] and [estimatedDuration] as it was (the capabilities up to
    their order).  The log grows by the new record.  Its records are as
    they were but for their capabilities, which the comparisons of the
    merge may have sorted in place; those of the new record are sorted
    exactly when there are two or more and the store had a capability
    combination.  [failedAttempts] is as it was. *)
Theorem recordSuccess_keeps_entries (st : state) (workflow : Workflow.t) (now : Z) :
  reachable st ->
  let st' := exec (recordSuccess workflow now) st in
  let caps := Workflow.or_empty (Workflow.capabilities workflow) in
  (exists i log record,
     fst (recordSuccess workflow now st) = Return i /\
     successfulWorkflows st' = log ++ [record] /\
     Forall2 resorted (successfulWorkflows st) log /\
     resorted (record_of workflow i now) record /\
     s_capabilitiesUsed record
     = if (1 <? length caps)%nat &&
          bool_decide (capability_combination ∈ type <$> learnedPatterns st)
       then sort caps else caps) /\
  failedAttempts st' = failedAttempts st /\
  (length (learnedPatterns st) <= length (learnedPatterns st')
   <= length (learnedPatterns st) + 3)%nat /\
  forall k p, learnedPatterns st !! k = Some p ->
    exists p', learnedPatterns st' !! k = Some p' /\ evolves p p'.
Proof.
  intros Hr st' caps.
  destruct (recordSuccess_log workflow now st (reachable_aliased st Hr))
    as (_ & log & record & Elog & Hold & Hrec & Hcaps).
  fold st' in Elog.
  split; [|split; [apply recordSuccess_failedAttempts|]].
  { eexists _, log, record. split; [by rewrite recordSuccess_unfold|].
    split; [exact Elog|]. split; [exact Hold|]. split; [exact Hrec | exact Hcaps]. }
  subst st'. unfold exec. rewrite recordSuccess_unfold. cbn [fst snd].
  set (i := "learn_" +:+ _). set (st0 := State _ _ _ _).
  set (cands := candidates (record_of workflow i now)).
  destruct (for_each_merge_evolves now cands st0) as [Hlen Hold'].
  pose proof (candidates_at_most_three (record_of workflow i now)) as H3.
  fold cands in H3. split; [simpl in Hlen; lia | exact Hold'].
Qed.

End store.

(** ** Recording failures, in general *)

Section failures_in_general.
Import LearningSystem.

Lemma find_similar_elem (kind : ErrorKind) (record : failure_record)
    (attempts : list failure_record) (e : failure_record) :
  find_similar kind record attempts = Return (Some e) -> e ∈ attempts.
Proof.
  induction attempts as [|f rest IH]; simpl; [done|].
  destruct (_classifyError (r_error f)) as [k|]; [|done].
  destruct (_ && _).
  - intros [= ->]. by left.
  - intros H. right. by apply IH.
Qed.

(** The search finds the new record at the latest, when no record before
    it is unreadable. *)
Lemma find_similar_self (record : failure_record) (message : string)
    (attempts : list failure_record) :
  r_error record = VString message ->
  Forall (fun r => exists m, r_error r = VString m) attempts ->
  exists e,
    find_similar (classify_lower (toLowerCase message)) record (attempts ++ [record])
    = Return (Some e).
Proof.
  intros Hrec Hlog. induction Hlog as [|x l [m Hx] _ IH]; simpl.
  - rewrite Hrec. simpl. rewrite bool_decide_eq_true_2 by done.
    rewrite String.eqb_refl. by eexists.
  - rewrite Hx. simpl. destruct (_ && _); [by eexists | apply IH].
Qed.

(** What [recordFailure] does in every case: the record is logged; then
    either nothing else happens (the call throws), or one avoidance rule is
    appended, whose count comes from a logged record. *)
Lemma recordFailure_cases (failure : failure) (now : Z) (st : state) :
  let st' := exec (recordFailure failure now) st in
  exists record,
    failedAttempts st' = failedAttempts st ++ [record] /\
    r_error record = f_error failure /\
    r_occurrenceCount record = None /\
    successfulWorkflows st' = successfulWorkflows st /\
    ((exists e, fst (recordFailure failure now st) = Throw e /\
                learnedPatterns st' = learnedPatterns st) \/
     (exists i a message e,
        fst (recordFailure failure now st) = Return i /\
        learnedPatterns st' = learnedPatterns st ++ [a] /\
        f_error failure = VString message /\
        e ∈ failedAttempts st ++ [record] /\
        type a = avoidance_rule /\ is_Some (id a) /\ createdAt a = Some now /\
        successRate a = None /\
        errorType a = Some (classify_lower (toLowerCase message)) /\
        avoidCombination a = Workflow.or_empty (f_toolsUsed failure) /\
        recommendedAlternative a = f_suggestion failure /\
        occurrenceCount a
        = Some (add (num_or (r_occurrenceCount e) (Fin 1)) (Fin 1)))).
Proof.
  unfold exec, recordFailure, _learnFromFailure, _generateId, lift,
    saveLearningData, mbind, M_bind, get, modify, mret, M_ret.
  cbn -[find_similar pretty String.app].
  set (record := FailureRecord _ _ _ _ _ _ _ _).
  exists record.
  destruct (f_error failure) as [| |b|n|message] eqn:Herr;
    cbn -[find_similar pretty String.app];
    try (repeat (split; [reflexivity|]); left; eexists; by split).
  destruct (find_similar _ record _) as [[e|]|e] eqn:Hfind;
    cbn -[find_similar pretty String.app].
  - repeat (split; [reflexivity|]). right.
    eexists _, _, message, e. split; [reflexivity|]. split; [reflexivity|].
    split; [reflexivity|]. split; [by eapply find_similar_elem|].
    repeat split; try reflexivity. by eexists.
  - exfalso. clear -Hfind Herr.
    assert (forall l, find_similar (classify_lower (toLowerCase message)) record
                        (l ++ [record]) <> Return None) as Hnever.
    { induction l as [|f rest IH]; simpl.
      - rewrite bool_decide_eq_true_2 by done. by rewrite String.eqb_refl.
      - destruct (_classifyError (r_error f)); [|done].
        by destruct (_ && _). }
    by apply (Hnever (failedAttempts st)).
  - repeat (split; [reflexivity|]). left. eexists. by split.
Qed.

(** X3.  When the error of the failure and the errors of all logged
    attempts are strings, [recordFailure] returns an identifier, logs the
    failure and appends exactly one avoidance rule, never merging it into an
    existing one: the rule carries the class of the message, the tools of
    the failure and its suggestion.  The log stays readable. *)
Theorem recordFailure_appends_rule
    (failure : failure) (now : Z) (st : state) (message : string) :
  f_error failure = VString message ->
  Forall (fun r => exists m, r_error r = VString m) (failedAttempts st) ->
  let st' := exec (recordFailure failure now) st in
  exists i a,
    fst (recordFailure failure now st) = Return i /\
    learnedPatterns st' = learnedPatterns st ++ [a] /\
    type a = avoidance_rule /\
    errorType a = Some (classify_lower (toLowerCase message)) /\
    avoidCombination a = Workflow.or_empty (f_toolsUsed failure) /\
    recommendedAlternative a = f_suggestion failure /\
    length (failedAttempts st') = S (length (failedAttempts st)) /\
    Forall (fun r => exists m, r_error r = VString m) (failedAttempts st') /\
    successfulWorkflows st' = successfulWorkflows st.
Proof.
  intros Herr Hlog st'.
  destruct (recordFailure_cases failure now st)
    as (record & Hf & Hre & _ & Hs & Hcase). fold st' in Hf, Hs, Hcase.
  assert (Forall (fun r => exists m, r_error r = VString m) (failedAttempts st'))
    as Hlog'.
  { rewrite Hf. apply Forall_app. split; [done|].
    constructor; [|constructor]. exists message. congruence. }
  destruct Hcase as [(e & Hthrow & _) | (i & a & m & e & Hret & Hp & Hm & _ & Ht & _ & _ & _ & Hk & Ha & Hr & _)].
  - exfalso. revert Hthrow.
    unfold recordFailure, _learnFromFailure, _generateId, lift,
      saveLearningData, mbind, M_bind, get, modify, mret, M_ret.
    cbn -[find_similar pretty String.app]. rewrite Herr.
    cbn -[find_similar pretty String.app].
    set (record0 := FailureRecord _ _ _ _ _ _ _ _).
    destruct (find_similar_self record0 message (failedAttempts st)) as [e0 ->];
      [reflexivity | done |].
    done.
  - exists i, a. assert (m = message) as -> by congruence.
    repeat (split; [done|]). split; [|done].
    rewrite Hf, length_app. simpl. lia.
Qed.

(** X4.  Once the first logged attempt has an error that is not a string,
    [recordFailure] throws on every failure, whatever its error, and stores
    no avoidance rule. *)
Theorem recordFailure_unreadable_log
    (failure : failure) (now : Z) (st : state)
    (r : failure_record) (rest : list failure_record) :
  failedAttempts st = r :: rest ->
  (forall m, r_error r <> VString m) ->
  exists e,
    fst (recordFailure failure now st) = Throw e /\
    learnedPatterns (exec (recordFailure failure now) st) = learnedPatterns st.
Proof.
  intros Hlog Hr.
  unfold exec, recordFailure, _learnFromFailure, _generateId, lift,
    saveLearningData, mbind, M_bind, get, modify, mret, M_ret.
  cbn -[find_similar pretty String.app]. rewrite Hlog.
  destruct (f_error failure) as [| |b|n|message];
    cbn -[pretty String.app]; try (eexists; by split).
  destruct (r_error r) as [| |b|n|m] eqn:E; cbn -[pretty String.app];
    try (eexists; by split).
  by destruct (Hr m).
Qed.

End failures_in_general.

(** ** Invariants of the reachable states *)

Section invariants.
Import LearningSystem.

Lemma all_successes_sorted (p p' : pattern) :
  sorted_or_same p p' -> all_successes p -> all_successes p'.
Proof. by intros [-> | ->]. Qed.

(** The running average of successes only: [(1 * (n + 1 - 1) + 1) / (n + 1)]
    is 1. *)
Lemma all_successes_update (c p : pattern) :
  all_successes p -> all_successes (update_existing c p).
Proof.
  intros Hp Hty.
  assert (type (update_existing c p) = type p) as Et
    by (unfold update_existing; by case_bool_decide).
  rewrite Et in Hty. destruct (Hp Hty) as [(n & Hn & Hc) Hs].
  assert (count (update_existing c p) = Some (add (to_number (count p)) (Fin 1)))
    as Ec by apply count_update_existing.
  assert (successRate (update_existing c p)
          = Some (div (add (mul (to_number (successRate p))
                                (sub (add (to_number (count p)) (Fin 1)) (Fin 1)))
                           (Fin 1))
                      (add (to_number (count p)) (Fin 1)))) as Es
    by (unfold update_existing; by case_bool_decide).
  rewrite Ec, Es. clear Ec Es Et.
  destruct (to_number (count p)) as [qc| | |]; try done.
  destruct (to_number (successRate p)) as [qs| | |]; try done.
  simpl in Hc, Hs. split.
  - exists (n + 1)%Z. split; [lia|]. simpl. rewrite Hc, inject_Z_plus. reflexivity.
  - assert (0 < qc + 1)%Q as Hpos.
    { rewrite Hc. change 1%Q with (inject_Z 1). rewrite <- inject_Z_plus.
      change 0%Q with (inject_Z 0). rewrite <- Zlt_Qlt. lia. }
    cbn [to_number add sub neg mul]. unfold div, sgn.
    rewrite (proj1 (Qlt_alt _ _) Hpos). cbn [same].
    rewrite Hs. field. intros E. rewrite E in Hpos. by apply Qlt_irrefl in Hpos.
Qed.

Lemma well_shaped_sorted (p p' : pattern) :
  sorted_or_same p p' -> well_shaped p -> well_shaped p'.
Proof.
  intros [-> | ->]; [done|]. intros (Hi & Hc & Hs).
  split; [done|]. split; [done|]. simpl.
  destruct (type p); try done. simpl. by rewrite sort_perm.
Qed.

Lemma well_shaped_update (c p : pattern) :
  well_shaped p -> well_shaped (update_existing c p).
Proof. unfold update_existing. by case_bool_decide. Qed.

Lemma filter_truthy_nonempty (a : list (option string)) : "" ∉ filter_truthy a.
Proof.
  unfold filter_truthy. rewrite list_elem_of_omap. intros (v & _ & Hv).
  destruct v as [s|]; [|done]. simpl in Hv.
  destruct (String.eqb_spec s ""); simpl in Hv; [done|]. congruence.
Qed.

Lemma str_or_truthy (v : option string) : truthy_str (Some (str_or v "Unknown")) = true.
Proof.
  unfold str_or. destruct (truthy_str v) eqn:E; [|done].
  destruct v as [s|]; [|done]. done.
Qed.

Lemma candidates_shaped (record : success_record) (c c' : pattern) (i : string) (now : Z) :
  c ∈ candidates record -> sorted_or_same c c' ->
  well_shaped (set_identity c' i now) /\ all_successes (set_identity c' i now).
Proof.
  intros Hc Hs.
  enough (well_shaped (set_identity c i now) /\ all_successes (set_identity c i now))
    as [Hw Ha].
  { destruct Hs as [-> | ->]; [done|]. split.
    - apply (well_shaped_sorted (set_identity c i now)); [by right | done].
    - done. }
  unfold candidates in Hc.
  apply elem_of_app in Hc as [Hc | Hc]; [|apply elem_of_app in Hc as [Hc | Hc]].
  - destruct (1 <? length (s_steps record))%nat; [|by apply elem_of_nil in Hc].
    destruct (1 <? length (filter_truthy _))%nat eqn:E; [|by apply elem_of_nil in Hc].
    apply list_elem_of_singleton in Hc as ->. apply Nat.ltb_lt in E. split.
    + split; [by eexists|]. split; [by eexists|]. simpl.
      split; [lia|]. split; [apply filter_truthy_nonempty | apply str_or_truthy].
    + intros _. simpl. split; [|reflexivity]. exists 1%Z. split; [lia | reflexivity].
  - destruct (1 <? length (s_capabilitiesUsed record))%nat eqn:E;
      [|by apply elem_of_nil in Hc].
    apply list_elem_of_singleton in Hc as ->. apply Nat.ltb_lt in E. split.
    + split; [by eexists|]. split; [by eexists|]. simpl. lia.
    + intros _. simpl. split; [|reflexivity]. exists 1%Z. split; [lia | reflexivity].
  - destruct (truthy_num _); [|by apply elem_of_nil in Hc].
    apply list_elem_of_singleton in Hc as ->. split.
    + split; [by eexists|]. split; [by eexists|]. done.
    + intros [? | ?]; discriminate.
Qed.

Lemma reachable_shape (st : state) :
  reachable st ->
  Forall all_successes (learnedPatterns st) /\
  Forall well_shaped (learnedPatterns st) /\
  Forall (fun r => r_occurrenceCount r = None) (failedAttempts st).
Proof.
  induction 1 as [|st workflow now _ (Ha & Hw & Hl)|st failure now _ (Ha & Hw & Hl)].
  - by repeat split.
  - rewrite recordSuccess_failedAttempts. split; [|split; [|done]];
      unfold exec; rewrite recordSuccess_unfold; cbn [snd].
    + apply for_each_merge_Forall;
        [apply all_successes_sorted
        | intros c c' p _ _ _; apply all_successes_update | | done].
      intros c c' i Hc Hs. by eapply candidates_shaped.
    + apply for_each_merge_Forall;
        [apply well_shaped_sorted
        | intros c c' p _ _ _; apply well_shaped_update | | done].
      intros c c' i Hc Hs. by eapply candidates_shaped.
  - destruct (recordFailure_cases failure now st)
      as (record & Hf & _ & Hnone & _ & Hcase).
    assert (Forall (fun r => r_occurrenceCount r = None)
              (failedAttempts st ++ [record])) as Hl'.
    { apply Forall_app. split; [done|]. by constructor. }
    rewrite Hf.
    destruct Hcase as [(e & _ & ->) | (i & a & m & e & _ & -> & _ & He & Ht & Hi & Hc & _ & Hk & _ & _ & Ho)];
      [done|].
    split; [|split; [|done]]; (apply Forall_app; split; [done|]);
      (constructor; [|constructor]).
    + intros [E | E]; congruence.
    + split; [done|]. split; [by rewrite Hc|]. rewrite Ht. split; [|by rewrite Hk].
      rewrite Ho, (proj1 (Forall_forall _ _) Hl' e He). reflexivity.
Qed.

(** X5.  In every state reached from a fresh instance, a stored tool
    sequence or capability combination has a positive integer [count] and
    the [successRate] 1: only successes are folded in. *)
Theorem reachable_success_rate (st : state) (p : pattern) :
  reachable st ->
  p ∈ learnedPatterns st ->
  type p = tool_sequence \/ type p = capability_combination ->
  (exists n : Z, (1 <= n)%Z /\ same (to_number (count p)) (of_Z n)) /\
  same (to_number (successRate p)) (Fin 1).
Proof.
  intros Hr Hp Hty. destruct (reachable_shape st Hr) as (Ha & _ & _).
  by apply (proj1 (Forall_forall _ _) Ha p Hp).
Qed.

(** X6.  In every state reached from a fresh instance, every stored pattern
    has an identifier and a creation time; a tool sequence has at least two
    tools, none of them empty, and a non-empty use case; a capability
    combination has at least two capabilities; a duration estimate has the
    confidence 1; an avoidance rule has an error class and the occurrence
    count 2. *)
Theorem reachable_shapes (st : state) (p : pattern) :
  reachable st ->
  p ∈ learnedPatterns st ->
  is_Some (id p) /\ is_Some (createdAt p) /\
  match type p with
  | tool_sequence =>
      (2 <= length (sequence p))%nat /\ ("" ∉ sequence p) /\
      truthy_str (useCase p) = true
  | capability_combination => (2 <= length (capabilities p))%nat
  | duration_estimate => confidence p = Some (Fin 1)
  | avoidance_rule => occurrenceCount p = Some (Fin 2) /\ is_Some (errorType p)
  end.
Proof.
  intros Hr Hp. destruct (reachable_shape st Hr) as (_ & Hw & _).
  by apply (proj1 (Forall_forall _ _) Hw p Hp).
Qed.

End invariants.

(** ** Similarity and relevance as quotients *)

Section quotients.
Import LearningSystem.

(** The quotient of two lengths. *)
Lemma quotient_facts (m n : nat) :
  (0 < n)%nat ->
  let q := (inject_Z (Z.of_nat m) / inject_Z (Z.of_nat n))%Q in
  (0 <= q)%Q /\
  ((q <= 1)%Q <-> (m <= n)%nat) /\
  ((1 <= q)%Q <-> (n <= m)%nat) /\
  ((q == 1)%Q <-> m = n) /\
  ((q == 0)%Q <-> m = 0%nat).
Proof.
  intros Hn q. subst q. destruct n as [|k]; [lia|].
  unfold Qdiv, Qmult, Qinv, Qle, Qeq. cbn [inject_Z Qnum Qden].
  rewrite Nat2Z.inj_succ. unfold Z.succ.
  destruct (Z.of_nat k + 1)%Z as [|d|d] eqn:E; try lia.
  cbn [Qnum Qden]. rewrite ?Z.mul_1_r, ?Z.mul_1_l, ?Z.mul_0_l.
  rewrite Pos2Z.inj_mul, ?Z.mul_1_l.
  repeat split; try lia.
Qed.

Lemma uniq_go_spec (seen a : list string) :
  NoDup (uniq_go seen a) /\
  forall x, x ∈ uniq_go seen a <-> x ∈ a /\ x ∉ seen.
Proof.
  revert seen. induction a as [|y t IH]; intros seen; simpl.
  - split; [constructor|]. intros x. rewrite elem_of_nil. tauto.
  - unfold mem. case_bool_decide as Hy.
    + destruct (IH seen) as [Hnd Hin]. split; [done|].
      intros x. rewrite Hin, elem_of_cons. split; [tauto|].
      intros [[-> | Hx] Hs]; tauto.
    + destruct (IH (y :: seen)) as [Hnd Hin]. split.
      * constructor; [|done]. rewrite Hin, elem_of_cons. tauto.
      * intros x. rewrite !elem_of_cons, Hin, elem_of_cons.
        destruct (decide (x = y)) as [-> | Hne]; tauto.
Qed.

Lemma uniq_NoDup (a : list string) : NoDup (uniq a).
Proof. apply uniq_go_spec. Qed.

Lemma elem_of_uniq (a : list string) (x : string) : x ∈ uniq a <-> x ∈ a.
Proof.
  unfold uniq. rewrite (proj2 (uniq_go_spec [] a)), elem_of_nil. tauto.
Qed.

Lemma uniq_length (a : list string) :
  (length (uniq a) <= length a)%nat /\
  (length (uniq a) = length a <-> NoDup a).
Proof.
  assert (uniq a ⊆+ a) as Hsub
    by (apply NoDup_submseteq; [apply uniq_NoDup | intros x; apply elem_of_uniq]).
  split; [by apply submseteq_length|]. split.
  - intros Hlen. apply submseteq_length_Permutation in Hsub; [|lia].
    rewrite <- Hsub. apply uniq_NoDup.
  - intros Hnd. apply Permutation_length, NoDup_Permutation;
      [apply uniq_NoDup | done | apply elem_of_uniq].
Qed.

Lemma filter_all {A} (P : A -> Prop) `{forall x, Decision (P x)} (l : list A) :
  Forall P l -> filter P l = l.
Proof.
  induction 1 as [|x l Hx _ IH]; [done|].
  by rewrite filter_cons_True, IH.
Qed.

Lemma split_go_nonempty (cur : string) (in_sep : bool) (s : string) :
  split_go cur in_sep s <> [].
Proof.
  revert cur in_sep. induction s as [|c t IH]; intros cur in_sep; simpl; [done|].
  destruct (is_space c); [destruct in_sep|]; auto.
Qed.

(** The words of a string, as [_calculateSimilarity] sees them. *)
Lemma similarity_unfold (a b : string) :
  a <> "" -> b <> "" ->
  let words1 := split_ws (toLowerCase a) in
  let words2 := split_ws (toLowerCase b) in
  let union := uniq (words1 ++ words2) in
  (0 < length union)%nat /\
  _calculateSimilarity (Some a) (Some b)
  = Fin (inject_Z (Z.of_nat (length (filter (fun w => mem w words2 = true) words1)))
         / inject_Z (Z.of_nat (length union))).
Proof.
  intros Ha Hb words1 words2 union.
  assert (0 < length union)%nat as Hpos.
  { destruct union as [|x l] eqn:E; [|simpl; lia]. exfalso.
    destruct words1 as [|w ws] eqn:Ew; [by apply split_go_nonempty in Ew|].
    assert (w ∈ union) as Hw by (apply elem_of_uniq; by left).
    rewrite E in Hw. by apply elem_of_nil in Hw. }
  split; [done|]. unfold _calculateSimilarity, truthy_str.
  rewrite (proj2 (String.eqb_neq a "") Ha), (proj2 (String.eqb_neq b "") Hb).
  cbn [negb orb default from_option]. unfold Datatypes.id.
  fold words1 words2 union.
  rewrite (proj2 (Nat.ltb_lt _ _) Hpos). by apply div_of_nat_pos.
Qed.

Lemma elem_of_common (words1 words2 : list string) (x : string) :
  x ∈ filter (fun w => mem w words2 = true) words1 <-> x ∈ words1 /\ x ∈ words2.
Proof.
  rewrite list_elem_of_filter. unfold mem. rewrite bool_decide_eq_true. tauto.
Qed.

(** X7.  The similarity of two non-empty strings is a number that is not
    negative; when the first string repeats no word, it is at most 1. *)
Theorem similarity_bounded (a b : string) :
  a <> "" -> b <> "" ->
  exists q,
    _calculateSimilarity (Some a) (Some b) = Fin q /\
    (0 <= q)%Q /\
    (NoDup (split_ws (toLowerCase a)) -> (q <= 1)%Q).
Proof.
  intros Ha Hb. destruct (similarity_unfold a b Ha Hb) as [Hpos ->].
  eexists. split; [reflexivity|].
  destruct (quotient_facts
              (length (filter (fun w => mem w (split_ws (toLowerCase b)) = true)
                         (split_ws (toLowerCase a))))
              _ Hpos) as (H0 & H1 & _).
  split; [done|]. intros Hnd. apply H1.
  apply submseteq_length, NoDup_submseteq; [by apply NoDup_filter|].
  intros x [Hx _]%elem_of_common. apply elem_of_uniq, elem_of_app. by left.
Qed.

(** X8.  On two strings that repeat no word, the similarity is symmetric. *)
Theorem similarity_symmetric (a b : option string) :
  NoDup (split_ws (toLowerCase (default "" a))) ->
  NoDup (split_ws (toLowerCase (default "" b))) ->
  _calculateSimilarity a b = _calculateSimilarity b a.
Proof.
  intros Hna Hnb. unfold _calculateSimilarity.
  rewrite (orb_comm (negb (truthy_str b))).
  destruct (negb (truthy_str a) || negb (truthy_str b)); [done|].
  set (w1 := split_ws (toLowerCase (default "" a))) in *.
  set (w2 := split_ws (toLowerCase (default "" b))) in *.
  assert (length (uniq (w1 ++ w2)) = length (uniq (w2 ++ w1))) as ->.
  { apply Permutation_length, NoDup_Permutation; try apply uniq_NoDup.
    intros x. rewrite !elem_of_uniq, !elem_of_app. tauto. }
  assert (length (filter (fun w => mem w w2 = true) w1)
          = length (filter (fun w => mem w w1 = true) w2)) as ->; [|done].
  apply Permutation_length, NoDup_Permutation; try by apply NoDup_filter.
  intros x. rewrite !elem_of_common. tauto.
Qed.

(** X9.  The similarity of a non-empty string with itself is at least 1,
    and it is 1 exactly when the string repeats no word. *)
Theorem similarity_self (x : string) :
  x <> "" ->
  exists q,
    _calculateSimilarity (Some x) (Some x) = Fin q /\
    (1 <= q)%Q /\
    ((q == 1)%Q <-> NoDup (split_ws (toLowerCase x))).
Proof.
  intros Hx. destruct (similarity_unfold x x Hx Hx) as [Hpos ->].
  set (w := split_ws (toLowerCase x)) in *.
  assert (filter (fun v => mem v w = true) w = w) as ->.
  { apply filter_all, Forall_forall. intros v Hv. unfold mem.
    by apply bool_decide_eq_true. }
  assert (length (uniq (w ++ w)) = length (uniq w)) as Hlen.
  { apply Permutation_length, NoDup_Permutation; try apply uniq_NoDup.
    intros v. rewrite !elem_of_uniq, elem_of_app. tauto. }
  rewrite Hlen in Hpos |- *. eexists. split; [reflexivity|].
  destruct (quotient_facts (length w) (length (uniq w)) Hpos) as (_ & _ & H1 & He & _).
  destruct (uniq_length w) as [Hle Hnd].
  split; [by apply H1|]. rewrite He, <- Hnd. split; intros E; by symmetry.
Qed.

(** X10.  For a capability combination with at least one capability and a
    context with [requiredCapabilities], the relevance is the share of the
    pattern's capabilities that are required: between 0 and 1, 1 exactly
    when all of them are required, 0 exactly when none is. *)
Theorem capability_relevance (ctx : query) (p : pattern) (required : list string) :
  type p = capability_combination ->
  requiredCapabilities ctx = Some required ->
  capabilities p <> [] ->
  exists q,
    relevance_of ctx p = Fin q /\
    (0 <= q <= 1)%Q /\
    ((q == 1)%Q <-> forall c, c ∈ capabilities p -> c ∈ required) /\
    ((q == 0)%Q <-> forall c, c ∈ capabilities p -> c ∉ required).
Proof.
  intros Ht Hreq Hne. unfold relevance_of. rewrite Ht, Hreq.
  set (caps := capabilities p) in *.
  set (overlap := filter (fun c => mem c required = true) caps).
  assert (0 < length caps)%nat as Hpos by (destruct caps; [done | simpl; lia]).
  rewrite div_of_nat_pos by done. eexists. split; [reflexivity|].
  destruct (quotient_facts (length overlap) (length caps) Hpos)
    as (H0 & H1 & _ & He & Hz).
  split; [split; [done | apply H1, length_filter]|].
  rewrite He, Hz. split; split.
  - intros Hlen c Hc.
    destruct (decide (mem c required = true)) as [Hm | Hm];
      [by apply bool_decide_eq_true in Hm|].
    pose proof (length_filter_lt (fun c => mem c required = true) caps c Hc Hm).
    fold overlap in H. lia.
  - intros Hall. unfold overlap. rewrite filter_all; [done|].
    apply Forall_forall. intros c Hc. apply bool_decide_eq_true. by apply Hall.
  - intros Hlen c Hc Hin.
    assert (c ∈ overlap) as Ho.
    { apply list_elem_of_filter. split; [by apply bool_decide_eq_true | done]. }
    destruct overlap; [by apply elem_of_nil in Ho | discriminate].
  - intros Hnone. destruct overlap as [|c l] eqn:E; [done|]. exfalso.
    assert (c ∈ overlap) as Ho by (rewrite E; by left).
    apply list_elem_of_filter in Ho as [Hm Hc].
    apply bool_decide_eq_true in Hm. by apply (Hnone c).
Qed.

End quotients.

(** ** Estimates, similar workflows and clean-up *)

Section estimates.
Import LearningSystem.
Context `{ArraySort}.

Lemma add64_NaN_r (a : num) : add64 a NaN = NaN.
Proof. by destruct a. Qed.

Lemma foldl_NaN {A} (f : A -> num) (l : list A) :
  foldl (fun sum m => add64 sum (f m)) NaN l = NaN.
Proof. induction l as [|x l IH]; [done|]. simpl. apply IH. Qed.

(** X11.  [estimateDuration] returns [null] exactly when no duration
    estimate is similar enough to the goal; and when the estimate of one of
    the similar patterns is [NaN], it returns [NaN]. *)
Theorem estimateDuration_null_or_NaN (ctx : query) (st : state) :
  (estimateDuration ctx st = None <-> duration_matches ctx st = []) /\
  (forall m, m ∈ duration_matches ctx st ->
             to_number (estimatedDuration m) = NaN ->
             estimateDuration ctx st = Some NaN).
Proof.
  unfold estimateDuration. fold (duration_matches ctx st).
  set (matches := duration_matches ctx st). split.
  - destruct matches; simpl; split; intros; done.
  - intros m Hm Hnan. destruct matches as [|x l] eqn:E; [by apply elem_of_nil in Hm|].
    rewrite <- E in *. clear E x l.
    assert ((length matches =? 0)%nat = false) as ->.
    { apply Nat.eqb_neq. destruct matches; [by apply elem_of_nil in Hm | done]. }
    assert (forall acc,
               foldl (fun sum m0 =>
                        add64 sum (mul64 (to_number (estimatedDuration m0))
                                         (to_number (confidence m0)))) acc matches
               = NaN) as ->; [|done].
    apply list_elem_of_split in Hm as (l1 & l2 & ->). intros acc.
    rewrite foldl_app. simpl. rewrite Hnan.
    change (mul64 NaN (to_number (confidence m))) with NaN.
    rewrite add64_NaN_r.
    apply (foldl_NaN (fun m0 => mul64 (to_number (estimatedDuration m0))
                                      (to_number (confidence m0)))).
Qed.

(** The sum of the weights, which are all 1, is the number of patterns. *)
Lemma foldl_confidence (l : list pattern) (x : Z) :
  Forall (fun m => confidence m = Some (Fin 1)) l ->
  (0 <= x)%Z -> (x + Z.of_nat (length l) < 2 ^ 53)%Z ->
  foldl (fun sum m => add64 sum (to_number (confidence m))) (of_Z x) l
  = of_Z (x + Z.of_nat (length l)).
Proof.
  intros Hl. revert x. induction Hl as [|m l Hm _ IH]; intros x Hx Hb.
  - cbn [foldl length]. f_equal. lia.
  - cbn [foldl]. rewrite Hm. cbn [to_number]. cbn [length] in Hb |- *.
    rewrite (add64_Z (of_Z x) (Fin 1) x 1); [|apply same_refl|reflexivity|lia].
    rewrite IH by lia. f_equal. lia.
Qed.

(** The weighted sum of estimates that are positive integers is their
    sum, as long as it stays below [2^53]. *)
Lemma foldl_weighted (l : list pattern) :
  Forall (fun m => confidence m = Some (Fin 1)) l ->
  Forall (fun m => exists d : Z,
            (0 < d)%Z /\ same (to_number (estimatedDuration m)) (of_Z d)) l ->
  exists s : Z,
    (total_estimate l == inject_Z s)%Q /\
    (Z.of_nat (length l) <= s)%Z /\
    forall x : Z, (0 <= x)%Z -> (x + s < 2 ^ 53)%Z ->
      foldl (fun sum m => add64 sum (mul64 (to_number (estimatedDuration m))
                                           (to_number (confidence m))))
            (of_Z x) l
      = of_Z (x + s).
Proof.
  intros Hc Hd. induction Hc as [|m l Hm _ IH].
  - exists 0%Z. split; [reflexivity|]. split; [reflexivity|].
    intros x _ _. cbn [foldl]. f_equal. lia.
  - apply Forall_cons in Hd as [(d & Hd0 & Hmd) Hd].
    destruct (IH Hd) as (s & Hs & Hlen & Hfold). exists (d + s)%Z.
    destruct (estimatedDuration m) as [[q| | |]|] eqn:E; try done.
    cbn [to_number same of_Z] in Hmd.
    split; [|split].
    + cbn [total_estimate foldr]. rewrite E. fold (total_estimate l).
      by rewrite Hs, Hmd, inject_Z_plus.
    + cbn [length]. lia.
    + intros x Hx Hb. cbn [foldl]. rewrite Hm, E. cbn [to_number].
      rewrite (mul64_Z (Fin q) (Fin 1) d 1); [|done|reflexivity|lia].
      rewrite (add64_Z (of_Z x) (of_Z (d * 1)) x (d * 1));
        [|apply same_refl|apply same_refl|lia].
      rewrite Hfold by lia. f_equal. lia.
Qed.

(** X12.  In a state reached from a fresh instance, when the estimates of
    the similar patterns are positive integers whose sum is below [2^52],
    [estimateDuration] returns their mean, rounded to the nearest integer
    (a tie going up): the confidence of every pattern is 1 and no sum is
    rounded. *)
Theorem estimateDuration_mean (ctx : query) (st : state) :
  reachable st ->
  duration_matches ctx st <> [] ->
  Forall (fun m => exists d : Z,
            (0 < d)%Z /\ same (to_number (estimatedDuration m)) (of_Z d))
         (duration_matches ctx st) ->
  (total_estimate (duration_matches ctx st) < 2 ^ 52)%Q ->
  estimateDuration ctx st
  = Some (of_Z (Qfloor (total_estimate (duration_matches ctx st)
                        / inject_Z (Z.of_nat (length (duration_matches ctx st)))
                        + (1 # 2)))).
Proof.
  intros Hr Hne Hint Hbound. unfold estimateDuration. fold (duration_matches ctx st).
  set (matches := duration_matches ctx st) in *.
  assert (0 < length matches)%nat as Hpos by (destruct matches; [done | simpl; lia]).
  rewrite (proj2 (Nat.eqb_neq _ _)) by lia.
  assert (Forall (fun m => confidence m = Some (Fin 1)) matches) as Hconf.
  { apply Forall_forall. intros m Hm.
    apply list_elem_of_filter in Hm as [[Ht _] Hm].
    destruct (reachable_shape st Hr) as (_ & Hw & _).
    destruct (proj1 (Forall_forall _ _) Hw m Hm) as (_ & _ & Hs).
    by rewrite Ht in Hs. }
  destruct (foldl_weighted matches Hconf Hint) as (s & Hs & Hlen & Hfold).
  assert (s < 2 ^ 52)%Z as Hs52.
  { rewrite Hs, pow2_Z in Hbound by lia. by rewrite <- Zlt_Qlt in Hbound. }
  change (Fin 0) with (of_Z 0).
  rewrite foldl_confidence by (try done; lia).
  rewrite Hfold by lia. cbn [Z.add].
  rewrite (div64_Z _ _ s (Z.of_nat (length matches))) by (try apply same_refl; lia).
  rewrite round_quotient by lia.
  do 2 f_equal. apply Qfloor_comp. by rewrite Hs.
Qed.

(** X13.  [getSimilarWorkflows] returns at most [limit] records; each is a
    logged workflow with a goal whose similarity to the goal of the context
    is above 0.4; and when [limit] is not below the number of such records,
    all of them are returned. *)
Theorem getSimilarWorkflows_similar (ctx : query) (limit : nat) (st : state) :
  let similar :=
    filter (fun wf =>
              truthy_str (Workflow.goal (s_context wf)) = true /\
              gt (_calculateSimilarity (Workflow.goal (s_context wf)) (q_goal ctx))
                 (Fin (4 # 10)) = true)
           (successfulWorkflows st) in
  (length (getSimilarWorkflows ctx limit st) <= limit)%nat /\
  (forall wf, wf ∈ getSimilarWorkflows ctx limit st ->
     wf ∈ successfulWorkflows st /\
     truthy_str (Workflow.goal (s_context wf)) = true /\
     gt (_calculateSimilarity (Workflow.goal (s_context wf)) (q_goal ctx))
        (Fin (4 # 10)) = true) /\
  ((length similar <= limit)%nat -> getSimilarWorkflows ctx limit st ≡ₚ similar).
Proof.
  intros similar. unfold getSimilarWorkflows. fold similar.
  split; [|split].
  - rewrite length_take. lia.
  - intros wf Hwf. apply elem_of_take in Hwf as (i & Hi & _).
    apply list_elem_of_lookup_2 in Hi. rewrite sort_by_perm in Hi.
    apply list_elem_of_filter in Hi as [[Hg Hs] Hin]. done.
  - intros Hlen. rewrite take_ge; [apply sort_by_perm|].
    by rewrite sort_by_perm.
Qed.


End estimates.

(** ** The template extractor *)

Section extractor.
Import PatternExtractor.

Lemma uniq_go_ext (seen seen' a : list string) :
  (forall y, y ∈ seen <-> y ∈ seen') -> uniq_go seen a = uniq_go seen' a.
Proof.
  revert seen seen'. induction a as [|x t IH]; intros seen seen' Hs; simpl; [done|].
  unfold mem. rewrite (bool_decide_ext _ _ (Hs x)).
  case_bool_decide; [by apply IH|]. f_equal. apply IH.
  intros y. rewrite !elem_of_cons, Hs. tauto.
Qed.

Lemma extractTools_foldl (steps : list Workflow.step) (tools : list string) :
  foldl (fun tools step =>
           if truthy_str (Workflow.tool step) &&
              negb (mem (default "" (Workflow.tool step)) tools)
           then tools ++ [default "" (Workflow.tool step)]
           else tools)
        tools steps
  = tools ++ uniq_go tools
               (LearningSystem.filter_truthy (map Workflow.tool steps)).
Proof.
  revert tools. induction steps as [|s steps IH]; intros tools.
  - simpl. by rewrite app_nil_r.
  - cbn [foldl map]. rewrite IH. clear IH.
    unfold LearningSystem.filter_truthy. cbn [omap list_omap].
    fold (@omap list _ _ _ (fun v : option string => if truthy_str v then v else None)
            (map Workflow.tool steps)).
    destruct (Workflow.tool s) as [x|] eqn:Ex; [|done].
    destruct (truthy_str (Some x)) eqn:Et; cbn [andb]; [|done].
    cbn [default from_option uniq_go]. unfold Datatypes.id.
    destruct (mem x tools); cbn [negb]; [done|].
    rewrite <- app_assoc. cbn [app]. do 2 f_equal. apply uniq_go_ext.
    intros y. rewrite elem_of_app, !elem_of_cons, elem_of_nil. tauto.
Qed.

(** X15.  The tools that a template requires are the non-empty tools of
    the steps, each once, in the order of their first use. *)
Theorem extractTools_first_uses (steps : list Workflow.step) :
  _extractTools steps
  = uniq (LearningSystem.filter_truthy (map Workflow.tool steps)) /\
  NoDup (_extractTools steps) /\
  ("" ∉ _extractTools steps) /\
  forall x, x ∈ _extractTools steps <->
            x <> "" /\ exists s, s ∈ steps /\ Workflow.tool s = Some x.
Proof.
  assert (_extractTools steps
          = uniq (LearningSystem.filter_truthy (map Workflow.tool steps))) as E
    by apply (extractTools_foldl steps []).
  split; [done|]. rewrite E.
  assert (forall x, x ∈ LearningSystem.filter_truthy (map Workflow.tool steps) <->
                    x <> "" /\ exists s, s ∈ steps /\ Workflow.tool s = Some x) as Hin.
  { intros x. unfold LearningSystem.filter_truthy. rewrite list_elem_of_omap. split.
    - intros (v & Hv & Hx). destruct v as [y|]; [|done]. simpl in Hx.
      destruct (String.eqb_spec y ""); simpl in Hx; [done|]. injection Hx as ->.
      split; [done|]. apply list_elem_of_fmap in Hv as (s & Hs & Hin). by exists s.
    - intros (Hx & s & Hs & Ht). exists (Some x). split.
      + rewrite <- Ht. by apply list_elem_of_fmap_2.
      + simpl. by rewrite (proj2 (String.eqb_neq x "") Hx). }
  split; [apply uniq_NoDup|]. split.
  - rewrite elem_of_uniq, Hin. tauto.
  - intros x. by rewrite elem_of_uniq.
Qed.

(** The test of [_findSimilarTemplate], read off its three conjuncts. *)
Lemma similar_unfold (template t : template) :
  similar template t = true <->
  category_of t = category_of template /\
  length (toolsRequired t) = length (toolsRequired template) /\
  forall x, x ∈ toolsRequired t -> x ∈ toolsRequired template.
Proof.
  unfold similar. rewrite !andb_true_iff, bool_decide_eq_true.
  rewrite Nat.eqb_eq, forallb_forall. split.
  - intros [[Hc Hl] Hall]. split; [done|]. split; [done|]. intros x Hx.
    apply list_elem_of_In, Hall in Hx. by apply bool_decide_eq_true in Hx.
  - intros (Hc & Hl & Hall). split; [done|]. intros x Hx.
    apply bool_decide_eq_true, Hall. by apply list_elem_of_In.
Qed.

(** Two lists of the same length, the first without repetition and
    included in the second, are the same up to their order. *)
Lemma included_same_length (a b : list string) :
  NoDup a ->
  length a = length b /\ (forall x, x ∈ a -> x ∈ b) <-> a ≡ₚ b.
Proof.
  intros Hnd. split.
  - intros [Hl Hall]. apply submseteq_length_Permutation; [|lia].
    by apply NoDup_submseteq.
  - intros Hp. split; [by rewrite Hp|]. intros x. by rewrite Hp.
Qed.

(** X16.  A stored template whose tools are listed once each is similar to
    a candidate exactly when both have the same category and the same set
    of tools. *)
Theorem similar_is_set_equality (template t : template) :
  NoDup (toolsRequired t) ->
  similar template t = true <->
  category_of t = category_of template /\
  toolsRequired t ≡ₚ toolsRequired template.
Proof.
  intros Hnd. rewrite similar_unfold.
  rewrite <- (included_same_length (toolsRequired t) (toolsRequired template) Hnd).
  tauto.
Qed.

End extractor.

Section extractor_states.
Import PatternExtractor.

Lemma find_with_index_spec {A} (f : A -> bool) (l : list A) :
  match find_with_index f l with
  | Some (k, x) =>
      l !! k = Some x /\ f x = true /\
      forall j y, (j < k)%nat -> l !! j = Some y -> f y = false
  | None => forall x, x ∈ l -> f x = false
  end.
Proof.
  induction l as [|y t IH]; simpl; [by intros x ?%elem_of_nil|].
  destruct (f y) eqn:E.
  { split; [done|]. split; [done|]. intros j z Hj. lia. }
  destruct (find_with_index f t) as [[k x]|]; simpl.
  - destruct IH as (Hk & Hx & Hfirst). split; [done|]. split; [done|].
    intros [|j] z Hj Hz; simpl in Hz; [by injection Hz as <-|].
    apply (Hfirst j z); [lia | done].
  - intros x [-> | Hx]%elem_of_cons; auto.
Qed.

(** [extractFromWorkflow] on a workflow with at least two steps, in terms
    of the candidate. *)
Lemma extractFromWorkflow_unfold (workflow : Workflow.t) (now : Z) (st : state)
    (l : list Workflow.step) :
  Workflow.steps workflow = Some l -> (2 <= length l)%nat ->
  let c := candidate workflow l (fst (_generateId now st)) now in
  extractFromWorkflow workflow now st
  = match find_with_index (similar c) (skillTemplates st) with
    | Some (k, t) =>
        (Some (Extraction true (merge_into workflow c now t)),
         State (<[k := merge_into workflow c now t]> (skillTemplates st))
           (S (entropy st)))
    | None =>
        (Some (Extraction false c),
         State (skillTemplates st ++ [c]) (S (entropy st)))
    end.
Proof.
  intros Hl Hlen c. unfold extractFromWorkflow. rewrite Hl.
  rewrite (proj2 (Nat.ltb_ge _ _) Hlen). cbn [_generateId].
  unfold _findSimilarTemplate. cbn [skillTemplates entropy].
  fold (candidate workflow l ("pattern_" +:+ pretty now +:+ "_" +:+ pretty (entropy st)) now).
  change (candidate workflow l _ now) with c.
  by destruct (find_with_index (similar c) (skillTemplates st)) as [[k t]|].
Qed.

Lemma merge_into_same (workflow : Workflow.t) (c : template) (now : Z) (t : template) :
  same_template t (merge_into workflow c now t).
Proof. by repeat split. Qed.

(** X17.  [extractFromWorkflow] returns [null], and changes nothing, exactly
    when the workflow has no [steps] or fewer than two.  Otherwise it
    builds a candidate and either merges it into the first stored template
    that is similar to it, which keeps its position, identifier, name,
    description, category, use cases, steps and tools while its count
    grows by one, its examples by the context and its last use becomes
    [now]; or, when no stored template is similar, it appends the
    candidate, which has the count 1, the context as only example and the
    tools of the steps. *)
Theorem extractFromWorkflow_cases (workflow : Workflow.t) (now : Z) (st : state) :
  let r := extractFromWorkflow workflow now st in
  match fst r with
  | None =>
      (Workflow.steps workflow = None \/
       exists l, Workflow.steps workflow = Some l /\ (length l < 2)%nat) /\
      snd r = st
  | Some e =>
      exists l,
        Workflow.steps workflow = Some l /\ (2 <= length l)%nat /\
        let c := candidate workflow l (fst (_generateId now st)) now in
        entropy (snd r) = S (entropy st) /\
        category_of (template_of e) = _classifyCategory workflow /\
        lastUsed (template_of e) = now /\
        if merged e then
          exists k t,
            skillTemplates st !! k = Some t /\
            similar c t = true /\
            (forall j t', (j < k)%nat -> skillTemplates st !! j = Some t' ->
                          similar c t' = false) /\
            skillTemplates (snd r) = <[k := template_of e]> (skillTemplates st) /\
            same_template t (template_of e) /\
            successCount (template_of e) = add (successCount t) (Fin 1) /\
            examples (template_of e) = examples t ++ [Workflow.context_of workflow]
        else
          template_of e = c /\
          skillTemplates (snd r) = skillTemplates st ++ [template_of e] /\
          toolsRequired (template_of e) = _extractTools l /\
          successCount (template_of e) = Fin 1 /\
          examples (template_of e) = [Workflow.context_of workflow] /\
          forall t, t ∈ skillTemplates st -> similar (template_of e) t = false
  end.
Proof.
  intros r. subst r.
  destruct (Workflow.steps workflow) as [l|] eqn:El; cycle 1.
  { unfold extractFromWorkflow. rewrite El. simpl. auto. }
  destruct (Nat.lt_ge_cases (length l) 2) as [Hlt | Hge].
  { unfold extractFromWorkflow. rewrite El, (proj2 (Nat.ltb_lt _ _) Hlt). simpl.
    split; [|done]. right. by exists l. }
  rewrite (extractFromWorkflow_unfold workflow now st l El Hge). cbv zeta.
  set (c := candidate workflow l (fst (_generateId now st)) now).
  pose proof (find_with_index_spec (similar c) (skillTemplates st)) as Hfind.
  destruct (find_with_index (similar c) (skillTemplates st)) as [[k t]|];
    cbn [fst snd merged template_of]; exists l; (split; [done|]); (split; [done|]);
    (split; [done|]).
  - destruct Hfind as (Hk & Hsim & Hfirst).
    split.
    { cbn. apply similar_unfold in Hsim. by destruct Hsim as [-> _]. }
    split; [done|]. exists k, t. repeat split; try done.
  - by repeat split.
Qed.

(** The category and the tools of a template never change, so similarity
    to a stored template is stable. *)
Lemma similar_same (template t t' : template) :
  same_template t t' -> similar template t' = similar template t.
Proof.
  intros (_ & _ & _ & Hc & _ & _ & Ht & _). unfold similar. by rewrite Hc, Ht.
Qed.

Lemma similar_sym (a b : template) :
  NoDup (toolsRequired a) -> NoDup (toolsRequired b) ->
  similar a b = similar b a.
Proof.
  intros Ha Hb. apply eq_true_iff_eq. rewrite !similar_unfold. split.
  - intros (Hc & Hl & Hall).
    pose proof (proj1 (included_same_length _ _ Hb) (conj Hl Hall)) as Hp.
    split; [done|]. apply (included_same_length _ _ Ha). by symmetry.
  - intros (Hc & Hl & Hall).
    pose proof (proj1 (included_same_length _ _ Ha) (conj Hl Hall)) as Hp.
    split; [done|]. apply (included_same_length _ _ Hb). by symmetry.
Qed.

Lemma extractTools_NoDup (l : list Workflow.step) : NoDup (_extractTools l).
Proof.
  unfold _extractTools. rewrite extractTools_foldl. apply uniq_NoDup.
Qed.

Lemma reachable_templates (st : state) :
  reachable st ->
  Forall (fun t =>
            NoDup (toolsRequired t) /\ NoDup (useCases t) /\
            (2 <= length (steps t))%nat /\ (1 <= length (examples t))%nat /\
            same (successCount t) (of_nat (length (examples t))))
         (skillTemplates st) /\
  forall i j t t',
    i <> j -> skillTemplates st !! i = Some t -> skillTemplates st !! j = Some t' ->
    similar t t' = false.
Proof.
  induction 1 as [|st workflow now _ [Hall Hdist]]; [split; [constructor | done]|].
  destruct (Workflow.steps workflow) as [l|] eqn:El; cycle 1.
  { unfold extractFromWorkflow. by rewrite El. }
  destruct (Nat.lt_ge_cases (length l) 2) as [Hlt | Hge].
  { unfold extractFromWorkflow. by rewrite El, (proj2 (Nat.ltb_lt _ _) Hlt). }
  rewrite (extractFromWorkflow_unfold workflow now st l El Hge). cbv zeta.
  set (c := candidate workflow l (fst (_generateId now st)) now).
  pose proof (find_with_index_spec (similar c) (skillTemplates st)) as Hfind.
  destruct (find_with_index (similar c) (skillTemplates st)) as [[k t]|];
    cbn [snd skillTemplates].
  - destruct Hfind as (Hk & _ & _).
    set (t1 := merge_into workflow c now t).
    pose proof (merge_into_same workflow c now t) as Hsame. fold t1 in Hsame.
    pose proof (proj1 (Forall_lookup _ _) Hall k t Hk) as (Hnt & Hnu & Hs & He & Hsc).
    split.
    + apply Forall_insert; [done|]. subst t1.
      cbn [merge_into toolsRequired useCases steps examples successCount].
      rewrite length_app. cbn [length].
      repeat split; try done; try lia.
      replace (length (examples t) + 1)%nat with (S (length (examples t))) by lia.
      unfold of_nat. rewrite Nat2Z.inj_succ. unfold Z.succ.
      eapply same_trans; [|apply add_of_Z]. apply add_same; [done | apply same_refl].
    + intros i j a b Hij Ha Hb.
      assert (forall n x, <[k := t1]> (skillTemplates st) !! n = Some x ->
                exists y, skillTemplates st !! n = Some y /\ same_template y x) as Hold.
      { intros n x Hx. destruct (decide (n = k)) as [-> | Hne].
        - rewrite list_lookup_insert_eq in Hx by (by eapply lookup_lt_Some).
          injection Hx as <-. by exists t.
        - rewrite list_lookup_insert_ne in Hx by done. exists x. split; [done|].
          by repeat split. }
      destruct (Hold i a Ha) as (a0 & Ha0 & Hsa).
      destruct (Hold j b Hb) as (b0 & Hb0 & Hsb).
      rewrite (similar_same a b0 b Hsb).
      pose proof (Hdist i j a0 b0 Hij Ha0 Hb0) as Hd0.
      destruct Hsa as (_ & _ & _ & Hca & _ & _ & Hta & _).
      unfold similar in Hd0 |- *. by rewrite Hca, Hta.
  - assert (NoDup (toolsRequired c)) as Hnd by apply extractTools_NoDup.
    split.
    + apply Forall_app. split; [done|]. constructor; [|constructor].
      split; [done|]. subst c. cbn [candidate useCases steps examples successCount].
      split; [apply uniq_NoDup|]. unfold _normalizeSteps. rewrite length_map.
      split; [done|]. split; [simpl; lia | reflexivity].
    + intros i j a b Hij Ha Hb.
      apply lookup_app_Some in Ha as [Ha | [Hi Ha]];
        apply lookup_app_Some in Hb as [Hb | [Hj Hb]].
      * by apply (Hdist i j).
      * apply list_lookup_singleton_Some in Hb as [_ <-].
        pose proof (proj1 (Forall_lookup _ _) Hall i a Ha) as (Hna & _).
        rewrite similar_sym by done. apply Hfind. by eapply list_elem_of_lookup_2.
      * apply list_lookup_singleton_Some in Ha as [_ <-].
        apply Hfind. by eapply list_elem_of_lookup_2.
      * apply list_lookup_singleton_Some in Ha as [? _].
        apply list_lookup_singleton_Some in Hb as [? _]. lia.
Qed.

(** X18.  In every state reached from a fresh extractor, the tools and the
    use cases of a template are listed once each, a template has at least
    two steps, and its [successCount] is the number of its examples, at
    least 1. *)
Theorem reachable_template_counts (st : state) (t : template) :
  reachable st ->
  t ∈ skillTemplates st ->
  NoDup (toolsRequired t) /\ NoDup (useCases t) /\
  (2 <= length (steps t))%nat /\ (1 <= length (examples t))%nat /\
  same (successCount t) (of_nat (length (examples t))).
Proof.
  intros Hr Ht. destruct (reachable_templates st Hr) as [Hall _].
  by apply (proj1 (Forall_forall _ _) Hall t Ht).
Qed.

(** X19.  In every state reached from a fresh extractor, no two templates
    have the same category and the same set of tools. *)
Theorem reachable_templates_distinct (st : state) (i j : nat) (t t' : template) :
  reachable st ->
  i <> j ->
  skillTemplates st !! i = Some t ->
  skillTemplates st !! j = Some t' ->
  ~ (category_of t = category_of t' /\ toolsRequired t ≡ₚ toolsRequired t').
Proof.
  intros Hr Hij Ht Ht' [Hc Hp].
  destruct (reachable_templates st Hr) as [Hall Hdist].
  pose proof (Hdist j i t' t (not_eq_sym Hij) Ht' Ht) as Hs.
  pose proof (proj1 (Forall_lookup _ _) Hall i t Ht) as (Hnd & _).
  apply not_true_iff_false in Hs. apply Hs.
  apply similar_unfold. split; [done|]. by apply included_same_length.
Qed.

End extractor_states.

Section search.
Import PatternExtractor.
Context `{ArraySort}.

Lemma foldl_score (f : string -> bool) (n : nat) (score : nat) (l : list string) :
  foldl (fun score x => if f x then (score + n)%nat else score) score l
  = (score + n * length (filter (fun x => f x = true) l))%nat.
Proof.
  revert score. induction l as [|x l IH]; intros score; simpl; [lia|].
  rewrite IH, filter_cons. destruct (f x) eqn:E; case_decide; try done; simpl; lia.
Qed.

Lemma foldl_reasons (f : string -> bool) (g : string -> string)
    (reasons : list string) (l : list string) :
  foldl (fun reasons x => if f x then reasons ++ [g x] else reasons) reasons l
  = reasons ++ map g (filter (fun x => f x = true) l).
Proof.
  revert reasons. induction l as [|x l IH]; intros reasons; simpl.
  - by rewrite app_nil_r.
  - rewrite IH, filter_cons. destruct (f x) eqn:E; case_decide; try done.
    by rewrite <- app_assoc.
Qed.

(** X20.  [searchTemplates] returns at most 10 matches.  Each is a stored
    template whose score is 3 for the name, 2 for the description, 2 for
    every use case and 1 for every tool that contains the lower-cased query,
    and is positive; the reasons list the name, the description and the
    matching use cases, so a template that matches through its tools alone
    is returned without a reason. *)
Theorem searchTemplates_scores (query : string) (st : state) :
  (length (searchTemplates query st) <= 10)%nat /\
  forall m, m ∈ searchTemplates query st ->
    let q := toLowerCase query in
    let t := m_template m in
    let by_name := includes (toLowerCase (name t)) q in
    let by_description := includes (toLowerCase (description t)) q in
    let by_use := filter (fun uc => includes (toLowerCase uc) q = true) (useCases t) in
    let by_tool := filter (fun tool => includes (toLowerCase tool) q = true)
                          (toolsRequired t) in
    t ∈ skillTemplates st /\
    matchScore m
    = ((if by_name then 3 else 0) + (if by_description then 2 else 0)
       + 2 * length by_use + length by_tool)%nat /\
    (0 < matchScore m)%nat /\
    matchReasons m
    = (if by_name then ["Name match"] else [])
      ++ (if by_description then ["Description match"] else [])
      ++ map (fun uc => "Use case: " +:+ uc) by_use /\
    (matchReasons m = [] <->
     by_name = false /\ by_description = false /\ by_use = []).
Proof.
  split.
  - unfold searchTemplates. rewrite length_take. lia.
  - intros m Hm q t by_name by_description by_use by_tool.
    unfold searchTemplates in Hm. apply elem_of_take in Hm as (i & Hi & _).
    apply list_elem_of_lookup_2 in Hi. rewrite sort_by_perm in Hi.
    apply list_elem_of_omap in Hi as (t0 & Ht0 & Hm).
    destruct (0 <? score_template t0 (toLowerCase query))%nat eqn:Epos; [|done].
    injection Hm as <-. apply Nat.ltb_lt in Epos.
    subst t by_name by_description by_use by_tool q. cbn [m_template matchScore matchReasons].
    assert (score_template t0 (toLowerCase query)
            = ((if includes (toLowerCase (name t0)) (toLowerCase query) then 3 else 0)
               + (if includes (toLowerCase (description t0)) (toLowerCase query)
                  then 2 else 0)
               + 2 * length (filter (fun uc => includes (toLowerCase uc)
                                                 (toLowerCase query) = true)
                               (useCases t0))
               + length (filter (fun tool => includes (toLowerCase tool)
                                               (toLowerCase query) = true)
                           (toolsRequired t0)))%nat) as Escore.
    { unfold score_template.
      rewrite (foldl_score (fun uc => includes (toLowerCase uc) (toLowerCase query)) 2).
      rewrite (foldl_score (fun tool => includes (toLowerCase tool) (toLowerCase query)) 1).
      destruct (includes (toLowerCase (name t0)) _);
        destruct (includes (toLowerCase (description t0)) _); lia. }
    assert (_getMatchReasons t0 (toLowerCase query)
            = (if includes (toLowerCase (name t0)) (toLowerCase query)
               then ["Name match"] else [])
              ++ (if includes (toLowerCase (description t0)) (toLowerCase query)
                  then ["Description match"] else [])
              ++ map (fun uc => "Use case: " +:+ uc)
                   (filter (fun uc => includes (toLowerCase uc) (toLowerCase query) = true)
                      (useCases t0))) as Ereasons.
    { unfold _getMatchReasons.
      rewrite (foldl_reasons (fun uc => includes (toLowerCase uc) (toLowerCase query))
                 (fun uc => "Use case: " +:+ uc)).
      by rewrite <- app_assoc. }
    split; [done|]. split; [done|]. split; [lia|]. split; [done|].
    rewrite Ereasons.
    destruct (includes (toLowerCase (name t0)) _);
      destruct (includes (toLowerCase (description t0)) _); cbn [app];
      try (split; [discriminate | intros (? & ? & ?); discriminate]).
    destruct (filter _ (useCases t0)) as [|uc l]; cbn [map];
      [done | split; [discriminate | intros (_ & _ & ?); discriminate]].
Qed.

End search.

(** ** Votes, requests and sharing *)

Section community.
Import CommunityShare.
Context `{ArraySort}.

(** X21.  [vote] counts a vote exactly when it is "up" or "down" and the
    call is no dry run; otherwise the state is as it was.  A counted vote
    adds one to the chosen count of the key [type:id], starting from zero
    for a new key, and leaves the other count, the other keys and the
    shared patterns alone. *)
Theorem cast_vote_counts (type id choice : string) (dryRun : bool) (st : state) :
  let r := cast_vote type id choice dryRun st in
  let voteKey := type +:+ ":" +:+ id in
  let before := default (Vote 0 0) (votes st !! voteKey) in
  sharedPatterns (snd r) = sharedPatterns st /\
  (fst r = vote_recorded <-> (choice = "up" \/ choice = "down") /\ dryRun = false) /\
  (fst r <> vote_recorded -> snd r = st) /\
  (fst r = vote_recorded ->
   (forall k, k <> voteKey -> votes (snd r) !! k = votes st !! k) /\
   votes (snd r) !! voteKey
   = Some (if String.eqb choice "up"
           then Vote (up before + 1) (down before)
           else Vote (up before) (down before + 1))).
Proof.
  intros r voteKey before. subst r. unfold cast_vote.
  destruct (String.eqb_spec choice "up") as [-> | Hup];
    [|destruct (String.eqb_spec choice "down") as [-> | Hdown]];
    destruct dryRun; cbn [negb andb fst snd sharedPatterns votes];
    (split; [reflexivity|]); (split; [intuition (discriminate || congruence)|]);
    (split; [done|]); try discriminate; intros _; fold voteKey;
    (split; [intros k Hk; by rewrite lookup_insert_ne | by rewrite lookup_insert_eq]).
Qed.

Lemma count_after_vote (f : vote -> Z) (type id choice : string) (st : state)
    (key : string) :
  key <> type +:+ ":" +:+ id ->
  count_or_zero f (snd (cast_vote type id choice false st)) key
  = count_or_zero f st key.
Proof.
  intros Hk. unfold count_or_zero, cast_vote.
  destruct (negb _ && negb _); [done|]. cbn [snd votes].
  by rewrite lookup_insert_ne.
Qed.



(** X23.  [getTopRequests] returns at most [limit] requests, each with the
    score [10 * up + 50] when its urgency is "high" and [10 * up] otherwise;
    votes down do not count, so a vote down on anything leaves the result
    as it was. *)
Theorem getTopRequests_ignores_down_votes
    (limit : nat) (requests : list request) (st : state) (type target : string) :
  (length (getTopRequests limit requests st) <= limit)%nat /\
  (forall e, e ∈ getTopRequests limit requests st ->
     request_of e ∈ requests /\
     request_score e
     = Fin (inject_Z (default 0%Z (up <$> votes st !! ("request:" +:+ request_id (request_of e))))
            * 10
            + (if String.eqb (urgency (request_of e)) "high" then 50 else 0))) /\
  getTopRequests limit requests (snd (cast_vote type target "down" false st))
  = getTopRequests limit requests st.
Proof.
  split; [|split].
  - unfold getTopRequests. rewrite length_take. lia.
  - intros e He. unfold getTopRequests in He.
    apply elem_of_take in He as (i & Hi & _).
    apply list_elem_of_lookup_2 in Hi. rewrite sort_by_perm in Hi.
    apply list_elem_of_fmap in Hi as (r & -> & Hr). split; [done|].
    unfold score_request, count_or_zero. cbn [request_of request_score].
    by destruct (String.eqb (urgency r) "high").
  - unfold getTopRequests. do 2 f_equal. apply map_ext. intros r.
    unfold score_request.
    assert (count_or_zero up (snd (cast_vote type target "down" false st))
              ("request:" +:+ request_id r)
            = count_or_zero up st ("request:" +:+ request_id r)) as ->; [|done].
    destruct (decide ("request:" +:+ request_id r = type +:+ ":" +:+ target))
      as [E | Hne]; [|by apply count_after_vote].
    unfold count_or_zero, cast_vote. cbn [String.eqb Ascii.eqb Bool.eqb negb andb snd votes].
    rewrite E, lookup_insert_eq. by destruct (votes st !! _) as [[u d]|].
Qed.

(** X24.  A shared learned pattern is named after its type, is created at
    [now], and never has a success rate that is 0, [NaN] or missing: in
    those cases it is shared with the rate 1.  A dry run changes nothing; a
    real call appends the shared pattern and leaves the votes alone. *)
Theorem sharePattern_rate (pattern : LearningSystem.pattern) (dryRun : bool)
    (now : Z) (salt : string) (st : state) :
  let r := sharePattern pattern dryRun now salt st in
  name (fst r) = kind_name (LearningSystem.type pattern) /\
  createdAt (fst r) = now /\
  truthy_num (successRate (fst r)) = true /\
  (truthy_num (to_number (LearningSystem.successRate pattern)) = false ->
   successRate (fst r) = Fin 1) /\
  (truthy_num (to_number (LearningSystem.successRate pattern)) = true ->
   Some (successRate (fst r)) = LearningSystem.successRate pattern) /\
  votes (snd r) = votes st /\
  sharedPatterns (snd r)
  = (if dryRun then sharedPatterns st else sharedPatterns st ++ [fst r]).
Proof.
  intros r. subst r. unfold sharePattern.
  destruct dryRun; cbn [fst snd name createdAt successRate votes sharedPatterns];
    (split; [reflexivity|]); (split; [reflexivity|]);
    destruct (LearningSystem.successRate pattern) as [n|]; cbn [num_or to_number];
    try destruct (truthy_num n) eqn:E; by repeat split.
Qed.

End community.

(** ** Duration estimates and shared rates *)

Section durations_in_general.
Import LearningSystem.

Lemma type_update_existing (c p : pattern) : type (update_existing c p) = type p.
Proof. unfold update_existing. by case_bool_decide. Qed.

Lemma unmerged_or_NaN_update (c p : pattern) :
  type p = type c -> unmerged_or_NaN p -> unmerged_or_NaN (update_existing c p).
Proof.
  intros Htc Hp Ht. rewrite type_update_existing in Ht. right.
  unfold update_existing. rewrite bool_decide_eq_true_2 by congruence.
  cbn [count successRate estimatedDuration set_estimatedDuration set_successRate set_count].
  assert (forall a, div a NaN = NaN) as Hdiv by (by intros []).
  destruct (Hp Ht) as [(-> & -> & _) | (-> & -> & ->)]; cbn [to_number add];
    by rewrite !Hdiv.
Qed.

Lemma reachable_durations (st : state) :
  reachable st ->
  Forall unmerged_or_NaN (learnedPatterns st) /\ Forall unrated (learnedPatterns st).
Proof.
  induction 1 as [|st workflow now _ [Hd Hu]|st failure now _ [Hd Hu]].
  - by split.
  - unfold exec. rewrite recordSuccess_unfold. cbn [snd].
    set (i := "learn_" +:+ _).
    destruct (candidates_types (record_of workflow i now)) as [_ Hcands].
    split.
    + apply for_each_merge_Forall; [| |  | done].
      * by intros p p' [-> | ->].
      * intros c c' p _ _ Ht. by apply unmerged_or_NaN_update.
      * intros c c' i' Hc Hs.
        assert (unmerged_or_NaN c) as Hcand.
        { unfold candidates in Hc.
          apply elem_of_app in Hc as [Hc | Hc]; [|apply elem_of_app in Hc as [Hc | Hc]].
          - destruct (1 <? length (s_steps _))%nat; [|by apply elem_of_nil in Hc].
            destruct (1 <? length (filter_truthy _))%nat; [|by apply elem_of_nil in Hc].
            by apply list_elem_of_singleton in Hc as ->.
          - destruct (1 <? length (s_capabilitiesUsed _))%nat;
              [|by apply elem_of_nil in Hc].
            by apply list_elem_of_singleton in Hc as ->.
          - destruct (truthy_num _) eqn:E; [|by apply elem_of_nil in Hc].
            apply list_elem_of_singleton in Hc as ->. intros _. left.
            cbn [count successRate estimatedDuration]. split; [done|]. split; [done|].
            destruct (s_duration _) as [d|]; [|done]. by exists d. }
        by destruct Hs as [-> | ->].
    + apply for_each_merge_Forall; [| |  | done].
      * by intros p p' [-> | ->].
      * intros c c' p Hc Hs Ht _ Hty. rewrite type_update_existing in Hty.
        destruct (Hcands c Hc) as [Hna _]. destruct Hna.
        destruct Hs as [-> | ->]; cbn [type set_capabilities] in Ht; congruence.
      * intros c c' i' Hc Hs Hty. destruct (Hcands c Hc) as [Hna _]. destruct Hna.
        by destruct Hs as [-> | ->].
  - destruct (recordFailure_cases failure now st) as (record & _ & _ & _ & _ & Hcase).
    destruct Hcase as [(e & _ & ->) | (i & a & m & e & _ & -> & _ & _ & Ht & _ & _ & Hs & _)];
      [done|].
    split; (apply Forall_app; split; [done|]); (constructor; [|constructor]).
    + intros E. congruence.
    + by intros _.
Qed.

(** X25.  In every state reached from a fresh instance, a duration estimate
    is in one of two conditions: never merged, with no count, no success
    rate and the duration of its workflow as estimate; or merged at least
    once, with [NaN] as count, success rate and estimate. *)
Theorem reachable_duration_estimates (st : state) (p : pattern) :
  reachable st ->
  p ∈ learnedPatterns st ->
  type p = duration_estimate ->
  (count p = None /\ successRate p = None /\
   exists d, estimatedDuration p = Some d /\ truthy_num d = true) \/
  (count p = Some NaN /\ successRate p = Some NaN /\ estimatedDuration p = Some NaN).
Proof.
  intros Hr Hp Ht. destruct (reachable_durations st Hr) as [Hd _].
  by apply (proj1 (Forall_forall _ _) Hd p Hp).
Qed.

(** X26.  Whatever its type and its history, a learned pattern of a state
    reached from a fresh instance is shared with the success rate 1. *)
Theorem shared_rate_is_one (st : state) (p : pattern) (dryRun : bool)
    (now : Z) (salt : string) (community : CommunityShare.state) :
  reachable st ->
  p ∈ learnedPatterns st ->
  same (CommunityShare.successRate
          (fst (CommunityShare.sharePattern p dryRun now salt community)))
       (Fin 1).
Proof.
  intros Hr Hp. unfold CommunityShare.sharePattern.
  assert (same (num_or (successRate p) (Fin 1)) (Fin 1)) as Hrate; [|by destruct dryRun].
  destruct (reachable_durations st Hr) as [Hd Hu].
  pose proof (proj1 (Forall_forall _ _) Hd p Hp) as Hdp.
  pose proof (proj1 (Forall_forall _ _) Hu p Hp) as Hup.
  destruct (reachable_shape st Hr) as (Ha & _ & _).
  pose proof (proj1 (Forall_forall _ _) Ha p Hp) as Hap.
  destruct (type p) eqn:Ht.
  - destruct (Hap (or_introl Ht)) as [_ Hs].
    destruct (successRate p) as [[q| | |]|]; try done. simpl in Hs |- *.
    destruct (Qeq_bool q 0) eqn:E; [|done]. reflexivity.
  - destruct (Hap (or_intror Ht)) as [_ Hs].
    destruct (successRate p) as [[q| | |]|]; try done. simpl in Hs |- *.
    destruct (Qeq_bool q 0) eqn:E; [|done]. reflexivity.
  - destruct (Hdp Ht) as [(_ & -> & _) | (_ & -> & _)]; reflexivity.
  - rewrite (Hup Ht). reflexivity.
Qed.

End durations_in_general.

(** ** The further properties at concrete inputs *)

Section further_examples.

(** The capabilities [b, a] and then [d, c]: the second call compares
    the two arrays, which sorts both; the first is also that of the record
    logged by the first call, the second that of the new record. *)
Lemma recordSuccess_keeps_entries_example :
  let st := LearningSystem.exec
              (LearningSystem.recordSuccess (Scenario.combining ["b"; "a"]) 1)
              LearningSystem.initial in
  let st' := LearningSystem.exec
               (LearningSystem.recordSuccess (Scenario.combining ["d"; "c"]) 2) st in
  LearningSystem.reachable st /\
  LearningSystem.s_capabilitiesUsed <$> LearningSystem.successfulWorkflows st
  = [["b"; "a"]] /\
  LearningSystem.s_capabilitiesUsed <$> LearningSystem.successfulWorkflows st'
  = [["a"; "b"]; ["c"; "d"]] /\
  LearningSystem.capabilities <$> LearningSystem.learnedPatterns st'
  = [["a"; "b"]; ["c"; "d"]] /\
  exists i log record,
    LearningSystem.successfulWorkflows st' = log ++ [record] /\
    Forall2 LearningSystem.resorted (LearningSystem.successfulWorkflows st) log /\
    LearningSystem.resorted
      (LearningSystem.record_of (Scenario.combining ["d"; "c"]) i 2) record /\
    LearningSystem.s_capabilitiesUsed record = ["c"; "d"].
Proof.
  intros st st'.
  assert (LearningSystem.reachable st) as Hr
    by apply LearningSystem.reachable_success, LearningSystem.reachable_initial.
  split; [exact Hr|]. split; [vm_compute; reflexivity|].
  split; [vm_compute; reflexivity|]. split; [vm_compute; reflexivity|].
  destruct (recordSuccess_keeps_entries st (Scenario.combining ["d"; "c"]) 2 Hr)
    as ((i & log & record & _ & Hlog & Hold & Hnew & Hcaps) & _).
  exists i, log, record. split; [exact Hlog|]. split; [exact Hold|].
  split; [exact Hnew|]. rewrite Hcaps. vm_compute. reflexivity.
Defined.

Lemma recordFailure_appends_rule_example :
  let failure := Scenario.search_failure (VString "API key not found") in
  LearningSystem.f_error failure = VString "API key not found" /\
  Forall (fun r => exists m, LearningSystem.r_error r = VString m)
         (LearningSystem.failedAttempts LearningSystem.initial) /\
  exists i a,
    fst (LearningSystem.recordFailure failure 1 LearningSystem.initial) = Return i /\
    LearningSystem.learnedPatterns
      (LearningSystem.exec (LearningSystem.recordFailure failure 1) LearningSystem.initial)
    = [a] /\
    LearningSystem.errorType a = Some LearningSystem.missing_dependency /\
    LearningSystem.avoidCombination a = ["web_search"].
Proof.
  intros failure. split; [reflexivity|]. split; [constructor|].
  destruct (recordFailure_appends_rule failure 1 LearningSystem.initial
              "API key not found" eq_refl (Forall_nil_2 _))
    as (i & a & Hi & Hp & _ & Hk & Ha & _).
  exists i, a. repeat split; assumption.
Defined.

Lemma recordFailure_unreadable_log_example :
  let st := LearningSystem.exec
              (LearningSystem.recordFailure (Scenario.search_failure VUndefined) 1)
              LearningSystem.initial in
  exists r rest,
    LearningSystem.failedAttempts st = r :: rest /\
    (forall m, LearningSystem.r_error r <> VString m) /\
    exists e,
      fst (LearningSystem.recordFailure Scenario.bare_failure 2 st) = Throw e /\
      LearningSystem.learnedPatterns
        (LearningSystem.exec (LearningSystem.recordFailure Scenario.bare_failure 2) st)
      = LearningSystem.learnedPatterns st.
Proof.
  intros st. eexists _, _. split; [reflexivity|].
  assert (forall m, VUndefined <> VString m) as Hne by discriminate.
  split; [exact Hne|].
  exact (recordFailure_unreadable_log Scenario.bare_failure 2 st _ _ eq_refl Hne).
Defined.

Lemma recordFailure_throws_example :
  (forall s, LearningSystem.f_error (Scenario.search_failure (VNumber (Fin 404)))
             <> VString s) /\
  exists e st',
    LearningSystem.recordFailure (Scenario.search_failure (VNumber (Fin 404))) 1
      LearningSystem.initial = (Throw e, st') /\
    LearningSystem.learnedPatterns st' = [] /\
    length (LearningSystem.failedAttempts st') = 1%nat.
Proof.
  assert (forall s, LearningSystem.f_error (Scenario.search_failure (VNumber (Fin 404)))
                    <> VString s) as Hne by discriminate.
  split; [exact Hne|].
  exact (recordFailure_throws (Scenario.search_failure (VNumber (Fin 404))) 1
           LearningSystem.initial Hne).
Defined.

Lemma reachable_scrape :
  LearningSystem.reachable
    (LearningSystem.exec (LearningSystem.recordSuccess (Scenario.scrape None) 1)
       LearningSystem.initial).
Proof. apply LearningSystem.reachable_success, LearningSystem.reachable_initial. Defined.

Lemma reachable_backup_twice :
  LearningSystem.reachable
    (LearningSystem.exec (LearningSystem.recordSuccess (Scenario.backup 300) 2)
       (LearningSystem.exec (LearningSystem.recordSuccess (Scenario.backup 100) 1)
          LearningSystem.initial)).
Proof.
  do 2 apply LearningSystem.reachable_success. apply LearningSystem.reachable_initial.
Defined.

Lemma reachable_success_rate_example :
  let st := LearningSystem.exec (LearningSystem.recordSuccess (Scenario.scrape None) 1)
              LearningSystem.initial in
  LearningSystem.reachable st /\
  exists p,
    p ∈ LearningSystem.learnedPatterns st /\
    (LearningSystem.type p = LearningSystem.tool_sequence \/
     LearningSystem.type p = LearningSystem.capability_combination) /\
    (exists n : Z, (1 <= n)%Z /\
                   same (to_number (LearningSystem.count p)) (of_Z n)) /\
    same (to_number (LearningSystem.successRate p)) (Fin 1).
Proof.
  intros st. split; [exact reachable_scrape|].
  eexists. split; [apply list_elem_of_here|]. split; [left; reflexivity|].
  apply (reachable_success_rate st _ reachable_scrape);
    [apply list_elem_of_here | left; reflexivity].
Defined.

Lemma reachable_shapes_example :
  let st := LearningSystem.exec (LearningSystem.recordSuccess (Scenario.scrape None) 1)
              LearningSystem.initial in
  LearningSystem.reachable st /\
  exists p,
    p ∈ LearningSystem.learnedPatterns st /\
    is_Some (LearningSystem.id p) /\
    (2 <= length (LearningSystem.sequence p))%nat.
Proof.
  intros st. split; [exact reachable_scrape|].
  eexists. split; [apply list_elem_of_here|].
  destruct (reachable_shapes st _ reachable_scrape (list_elem_of_here _ _))
    as (Hi & _ & Hs).
  split; [exact Hi | exact (proj1 Hs)].
Defined.

Lemma reachable_duration_estimates_example :
  let st := LearningSystem.exec (LearningSystem.recordSuccess (Scenario.backup 300) 2)
              (LearningSystem.exec (LearningSystem.recordSuccess (Scenario.backup 100) 1)
                 LearningSystem.initial) in
  LearningSystem.reachable st /\
  exists p,
    p ∈ LearningSystem.learnedPatterns st /\
    LearningSystem.type p = LearningSystem.duration_estimate /\
    ((LearningSystem.count p = None /\ LearningSystem.successRate p = None /\
      exists d, LearningSystem.estimatedDuration p = Some d /\ truthy_num d = true) \/
     (LearningSystem.count p = Some NaN /\ LearningSystem.successRate p = Some NaN /\
      LearningSystem.estimatedDuration p = Some NaN)).
Proof.
  intros st. split; [exact reachable_backup_twice|].
  eexists. split; [apply list_elem_of_here|]. split; [reflexivity|].
  apply (reachable_duration_estimates st _ reachable_backup_twice);
    [apply list_elem_of_here | reflexivity].
Defined.

Lemma shared_rate_is_one_example :
  let st := LearningSystem.exec (LearningSystem.recordSuccess (Scenario.backup 300) 2)
              (LearningSystem.exec (LearningSystem.recordSuccess (Scenario.backup 100) 1)
                 LearningSystem.initial) in
  LearningSystem.reachable st /\
  exists p,
    p ∈ LearningSystem.learnedPatterns st /\
    LearningSystem.successRate p = Some NaN /\
    same (CommunityShare.successRate
            (fst (CommunityShare.sharePattern p false 3 "k3x" Scenario.community)))
         (Fin 1).
Proof.
  intros st. split; [exact reachable_backup_twice|].
  eexists. split; [apply list_elem_of_here|]. split; [reflexivity|].
  apply (shared_rate_is_one st _ false 3 "k3x" Scenario.community reachable_backup_twice).
  apply list_elem_of_here.
Defined.

Lemma words_once :
  NoDup (split_ws (toLowerCase "Web scraping demo")) /\
  NoDup (split_ws (toLowerCase "web scraping tool")).
Proof. split; apply (bool_decide_unpack _); vm_compute; exact I. Defined.

Lemma similarity_bounded_example :
  "Web scraping demo" <> "" /\ "web scraping tool" <> "" /\
  NoDup (split_ws (toLowerCase "Web scraping demo")) /\
  exists q,
    LearningSystem._calculateSimilarity (Some "Web scraping demo")
      (Some "web scraping tool") = Fin q /\
    (0 <= q <= 1)%Q.
Proof.
  assert ("Web scraping demo" <> "") as Ha by discriminate.
  assert ("web scraping tool" <> "") as Hb by discriminate.
  split; [exact Ha|]. split; [exact Hb|]. split; [exact (proj1 words_once)|].
  destruct (similarity_bounded "Web scraping demo" "web scraping tool" Ha Hb)
    as (q & Hq & H0 & H1).
  exists q. split; [exact Hq|]. split; [exact H0 | exact (H1 (proj1 words_once))].
Defined.

Lemma similarity_symmetric_example :
  NoDup (split_ws (toLowerCase "Web scraping demo")) /\
  NoDup (split_ws (toLowerCase "web scraping tool")) /\
  LearningSystem._calculateSimilarity (Some "Web scraping demo") (Some "web scraping tool")
  = LearningSystem._calculateSimilarity (Some "web scraping tool") (Some "Web scraping demo").
Proof.
  split; [exact (proj1 words_once)|]. split; [exact (proj2 words_once)|].
  exact (similarity_symmetric (Some "Web scraping demo") (Some "web scraping tool")
           (proj1 words_once) (proj2 words_once)).
Defined.

Lemma similarity_self_example :
  "Web scraping demo" <> "" /\
  exists q,
    LearningSystem._calculateSimilarity (Some "Web scraping demo")
      (Some "Web scraping demo") = Fin q /\
    (q == 1)%Q.
Proof.
  assert ("Web scraping demo" <> "") as Ha by discriminate.
  split; [exact Ha|].
  destruct (similarity_self "Web scraping demo" Ha) as (q & Hq & _ & H1).
  exists q. split; [exact Hq|]. exact (proj2 H1 (proj1 words_once)).
Defined.

Lemma capability_relevance_example :
  LearningSystem.type Scenario.searching_and_browsing
  = LearningSystem.capability_combination /\
  LearningSystem.requiredCapabilities Scenario.needing_search = Some ["web-search"] /\
  LearningSystem.capabilities Scenario.searching_and_browsing <> [] /\
  exists q,
    LearningSystem.relevance_of Scenario.needing_search Scenario.searching_and_browsing
    = Fin q /\
    (0 <= q <= 1)%Q.
Proof.
  assert (LearningSystem.capabilities Scenario.searching_and_browsing <> [])
    as Hne by discriminate.
  split; [reflexivity|]. split; [reflexivity|]. split; [exact Hne|].
  destruct (capability_relevance Scenario.needing_search Scenario.searching_and_browsing
              ["web-search"] eq_refl eq_refl Hne) as (q & Hq & Hb & _).
  exists q. split; [exact Hq | exact Hb].
Defined.

Lemma reachable_two_backups :
  LearningSystem.reachable
    (LearningSystem.exec (LearningSystem.recordSuccess (Scenario.backup_job 201) 2)
       (LearningSystem.exec (LearningSystem.recordSuccess (Scenario.backup 100) 1)
          LearningSystem.initial)).
Proof.
  do 2 apply LearningSystem.reachable_success. apply LearningSystem.reachable_initial.
Defined.

(** Two estimates, 100 and 201, are similar enough to the goal: their
    mean 150.5 is rounded to 151. *)
Lemma estimateDuration_mean_example :
  let st := LearningSystem.exec
              (LearningSystem.recordSuccess (Scenario.backup_job 201) 2)
              (LearningSystem.exec (LearningSystem.recordSuccess (Scenario.backup 100) 1)
                 LearningSystem.initial) in
  LearningSystem.reachable st /\
  length (LearningSystem.duration_matches Scenario.backing_up st) = 2%nat /\
  (LearningSystem.total_estimate (LearningSystem.duration_matches Scenario.backing_up st)
   == 301)%Q /\
  LearningSystem.estimateDuration Scenario.backing_up st = Some (of_Z 151).
Proof.
  intros st.
  assert (length (LearningSystem.duration_matches Scenario.backing_up st) = 2%nat)
    as Hlen by reflexivity.
  assert (LearningSystem.duration_matches Scenario.backing_up st <> []) as Hne
    by discriminate.
  assert (Forall (fun m => exists d : Z,
                    (0 < d)%Z /\
                    same (to_number (LearningSystem.estimatedDuration m)) (of_Z d))
            (LearningSystem.duration_matches Scenario.backing_up st)) as Hint.
  { apply Forall_cons. split; [exists 100%Z; split; [lia | reflexivity]|].
    apply Forall_cons. split; [exists 201%Z; split; [lia | reflexivity]|].
    apply Forall_nil_2. }
  assert (LearningSystem.total_estimate
            (LearningSystem.duration_matches Scenario.backing_up st) < 2 ^ 52)%Q
    as Hbound by reflexivity.
  split; [exact reachable_two_backups|]. split; [exact Hlen|].
  split; [reflexivity|].
  rewrite (estimateDuration_mean Scenario.backing_up st reachable_two_backups
             Hne Hint Hbound).
  reflexivity.
Defined.

Lemma similar_is_set_equality_example :
  NoDup (PatternExtractor.toolsRequired Scenario.scraper) /\
  (PatternExtractor.similar Scenario.scraper Scenario.scraper = true <->
   PatternExtractor.category_of Scenario.scraper
   = PatternExtractor.category_of Scenario.scraper /\
   PatternExtractor.toolsRequired Scenario.scraper
   ≡ₚ PatternExtractor.toolsRequired Scenario.scraper).
Proof.
  assert (NoDup (PatternExtractor.toolsRequired Scenario.scraper)) as Hnd
    by (apply (bool_decide_unpack _); vm_compute; exact I).
  split; [exact Hnd|].
  exact (similar_is_set_equality Scenario.scraper Scenario.scraper Hnd).
Defined.

Lemma reachable_two_templates :
  PatternExtractor.reachable
    (snd (PatternExtractor.extractFromWorkflow Scenario.copying 2
            (snd (PatternExtractor.extractFromWorkflow (Scenario.scrape None) 1
                    PatternExtractor.initial)))).
Proof.
  do 2 apply PatternExtractor.reachable_extract. apply PatternExtractor.reachable_initial.
Defined.

Lemma reachable_template_counts_example :
  let st := snd (PatternExtractor.extractFromWorkflow Scenario.copying 2
                   (snd (PatternExtractor.extractFromWorkflow (Scenario.scrape None) 1
                           PatternExtractor.initial))) in
  PatternExtractor.reachable st /\
  exists t,
    t ∈ PatternExtractor.skillTemplates st /\
    NoDup (PatternExtractor.toolsRequired t) /\
    same (PatternExtractor.successCount t)
         (of_nat (length (PatternExtractor.examples t))).
Proof.
  intros st. split; [exact reachable_two_templates|].
  eexists. split; [apply list_elem_of_here|].
  destruct (reachable_template_counts st _ reachable_two_templates (list_elem_of_here _ _))
    as (Hnd & _ & _ & _ & Hc).
  split; [exact Hnd | exact Hc].
Defined.

Lemma reachable_templates_distinct_example :
  let st := snd (PatternExtractor.extractFromWorkflow Scenario.copying 2
                   (snd (PatternExtractor.extractFromWorkflow (Scenario.scrape None) 1
                           PatternExtractor.initial))) in
  PatternExtractor.reachable st /\
  exists t t',
    PatternExtractor.skillTemplates st !! 0%nat = Some t /\
    PatternExtractor.skillTemplates st !! 1%nat = Some t' /\
    ~ (PatternExtractor.category_of t = PatternExtractor.category_of t' /\
       PatternExtractor.toolsRequired t ≡ₚ PatternExtractor.toolsRequired t').
Proof.
  intros st. split; [exact reachable_two_templates|].
  eexists _, _. split; [reflexivity|]. split; [reflexivity|].
  apply (reachable_templates_distinct st 0 1 _ _ reachable_two_templates);
    [discriminate | reflexivity | reflexivity].
Defined.


End further_examples.
